(** * instantWM: arrangement, focus and tag/view engine

    A shallow embedding of the window arrangement and focus engine of
    [instantwm.c], and the properties of the specification checked
    against it.

    Conventions of the embedding.

    - C [int] values are [Z]; signed arithmetic is assumed not to
      overflow.  [unsigned int] values are [Z] in [0, 2^32) and the
      wrap-around of unsigned arithmetic is written out with [u32]; an
      unsigned value passed where an [int] is expected is reinterpreted
      with [s32].
    - [Client *] and [Monitor *] are addresses ([nat]) into two heaps
      ([gmap]); a nullable client pointer is an [option].  The two
      intrusive singly linked lists of a monitor ([clients] through
      [next], [stack] through [snext]) are the lists of the addresses
      they link, so a pointer into a list is a suffix of it.
    - Dereferencing an address that is not allocated, indexing an array
      out of its bounds and unlinking a client from a list it is not on
      are outside the list abstraction: the model has no result there
      ([None]).  The same holds for recursion that does not end.
    - Requests sent to the X server and drawing (XConfigureWindow,
      XSetInputFocus, drawbar, ...) leave the modelled state alone and
      are omitted, with the reads that only feed such a request; what
      the program reads back from the server (the WM_STATE property,
      the pointer position) is part of the state.
    - The constants of [config.h] and the helper [clientcount] are not
      in [instantwm.c]; they are taken as parameters.  So is the value
      of the easing step of [animateclient]: [easeOutQuint] computes
      [1 + (--t) * t * t], which modifies and reads [t] without a
      sequence point. *)

From Stdlib Require Import ZArith Lia String DecimalString.
From Stdlib Require Import Floats.SpecFloat.
From stdpp Require Import base option list gmap.

Local Open Scope Z_scope.

(** ** Machine integers *)

Definition u32 (z : Z) : Z := z mod 2 ^ 32.

Definition s32 (z : Z) : Z :=
  let r := z mod 2 ^ 32 in if r <? 2 ^ 31 then r else r - 2 ^ 32.

(** C truth value of an [int]. *)
Definition truthy (z : Z) : bool := negb (z =? 0).

(** C [!z]. *)
Definition lnot (z : Z) : Z := if z =? 0 then 1 else 0.

(** A two-element C array and its indexing. *)
Definition idx2 {A} (p : A * A) (i : Z) : option A :=
  if i =? 0 then Some p.1 else if i =? 1 then Some p.2 else None.

Definition upd2 {A} (p : A * A) (i : Z) (v : A) : option (A * A) :=
  if i =? 0 then Some (v, p.2) else if i =? 1 then Some (p.1, v) else None.

(** An array of [LENGTH(tags) + 1] entries and its indexing. *)
Definition aget {A} (l : list A) (i : Z) : option A :=
  if i <? 0 then None else l !! Z.to_nat i.

Definition aset {A} (l : list A) (i : Z) (v : A) : option (list A) :=
  if (0 <=? i) && (i <? Z.of_nat (length l))
  then Some (<[Z.to_nat i := v]> l) else None.

(** ** Floating point

    The program stores aspect ratios and the master split factor as
    [float], IEEE 754 binary32: the numbers of [spec_float] at 24 bits of
    precision.  Where an expression mixes [int] and [float] the [int]
    operand is converted first; a [double] constant promotes the
    operation to binary64. *)

Definition float : Type := spec_float.

(** [(float)z] *)
Definition f32_of_int (z : Z) : float := binary_normalize 24 128 z 0 false.

(** Conversion to an integer: the fraction is dropped. *)
Definition sf_trunc (f : spec_float) : Z :=
  match f with
  | S754_finite sg m e =>
      let a := if 0 <=? e then Z.pos m * 2 ^ e else Z.pos m / 2 ^ (- e) in
      if sg then - a else a
  | _ => 0
  end.

(** [f > 0] *)
Definition fgt0 (f : float) : bool := SFltb (S754_zero false) f.

(** [f < (float)a / b] *)
Definition flt_ratio (f : float) (a b : Z) : bool :=
  SFltb f (SFdiv 24 128 (f32_of_int a) (f32_of_int b)).

(** [(int)(a * f + 0.5)] *)
Definition fscale_round (a : Z) (f : float) : Z :=
  sf_trunc (SFadd 53 1024 (SFmul 24 128 (f32_of_int a) f)
                  (binary_normalize 53 1024 1 (-1) false)).

(** [a * f] converted to an integer *)
Definition fmul_trunc (a : Z) (f : float) : Z :=
  sf_trunc (SFmul 24 128 (f32_of_int a) f).

(** ** Layout table *)

(** The arrange functions defined in [instantwm.c]. *)
Inductive arrange_fn := fn_tile | fn_monocle | fn_bstack | fn_bstackhoriz.

Global Instance arrange_fn_eq_dec : EqDecision arrange_fn.
Proof. solve_decision. Defined.

(** [Layout]: a symbol and an arrange function, null for floating. *)
Record Layout := { symbol : string; arrange_of : option arrange_fn }.

(** A [const Layout *] is an index into [layouts]. *)
Definition layout_ptr := nat.

(** ** Data model *)

Definition cid := nat.
Definition mid := nat.

Module Client.

Record t := mk {
  mina : float; maxa : float;
  x : Z; y : Z; w : Z; h : Z;
  oldx : Z; oldy : Z; oldw : Z; oldh : Z;
  basew : Z; baseh : Z; incw : Z; inch : Z;
  maxw : Z; maxh : Z; minw : Z; minh : Z;
  bw : Z;
  tags : Z;
  isfloating : Z; isurgent : Z; isfullscreen : Z; isfakefullscreen : Z;
  issticky : Z;
  mon : mid;
  win : Z;
}.

(** [c->oldx = c->x; c->x = x; ...] of [resizeclient]. *)
Definition set_geom (c : t) (nx ny nw nh : Z) : t :=
  mk (mina c) (maxa c) nx ny nw nh (x c) (y c) (w c) (h c)
     (basew c) (baseh c) (incw c) (inch c) (maxw c) (maxh c) (minw c) (minh c)
     (bw c) (tags c) (isfloating c) (isurgent c) (isfullscreen c)
     (isfakefullscreen c) (issticky c)
     (mon c) (win c).

(** [c->w = ...; c->h = ...] *)
Definition set_wh (c : t) (nw nh : Z) : t :=
  mk (mina c) (maxa c) (x c) (y c) nw nh (oldx c) (oldy c) (oldw c) (oldh c)
     (basew c) (baseh c) (incw c) (inch c) (maxw c) (maxh c) (minw c) (minh c)
     (bw c) (tags c) (isfloating c) (isurgent c) (isfullscreen c)
     (isfakefullscreen c) (issticky c)
     (mon c) (win c).

Definition set_isurgent (c : t) (v : Z) : t :=
  mk (mina c) (maxa c) (x c) (y c) (w c) (h c) (oldx c) (oldy c) (oldw c) (oldh c)
     (basew c) (baseh c) (incw c) (inch c) (maxw c) (maxh c) (minw c) (minh c)
     (bw c) (tags c) (isfloating c) v (isfullscreen c)
     (isfakefullscreen c) (issticky c)
     (mon c) (win c).

Definition set_mon (c : t) (v : mid) : t :=
  mk (mina c) (maxa c) (x c) (y c) (w c) (h c) (oldx c) (oldy c) (oldw c) (oldh c)
     (basew c) (baseh c) (incw c) (inch c) (maxw c) (maxh c) (minw c) (minh c)
     (bw c) (tags c) (isfloating c) (isurgent c) (isfullscreen c)
     (isfakefullscreen c) (issticky c)
     v (win c).

(** [WIDTH(X)] and [HEIGHT(X)] *)
Definition WIDTH (c : t) : Z := w c + 2 * bw c.
Definition HEIGHT (c : t) : Z := h c + 2 * bw c.

End Client.

Module Pertag.

Record t := mk {
  curtag : Z; prevtag : Z;
  nmasters : list Z;
  mfacts : list float;
  sellts : list Z;
  ltidxs : list (layout_ptr * layout_ptr);
  showbars : list Z;
}.

Definition set_tags (p : t) (cur prev : Z) : t :=
  mk cur prev (nmasters p) (mfacts p) (sellts p) (ltidxs p) (showbars p).

Definition set_showbars (p : t) (v : list Z) : t :=
  mk (curtag p) (prevtag p) (nmasters p) (mfacts p) (sellts p) (ltidxs p) v.

End Pertag.

Module Monitor.

Record t := mk {
  ltsymbol : string;
  mfact : float;
  nmaster : Z;
  num : Z;
  by_ : Z;
  mx : Z; my : Z; mw : Z; mh : Z;
  wx : Z; wy : Z; ww : Z; wh : Z;
  seltags : Z;
  sellt : Z;
  tagset : Z * Z;
  showbar : Z;
  topbar : Z;
  clients : list cid;
  sel : option cid;
  stack : list cid;
  gesture : Z;
  lt : layout_ptr * layout_ptr;
  pertag : Pertag.t;
}.

Definition set_ltsymbol (m : t) (v : string) : t :=
  mk v (mfact m) (nmaster m) (num m) (by_ m) (mx m) (my m) (mw m) (mh m)
     (wx m) (wy m) (ww m) (wh m) (seltags m) (sellt m) (tagset m)
     (showbar m) (topbar m) (clients m) (sel m) (stack m) (gesture m)
     (lt m) (pertag m).

Definition set_clients (m : t) (v : list cid) : t :=
  mk (ltsymbol m) (mfact m) (nmaster m) (num m) (by_ m) (mx m) (my m) (mw m) (mh m)
     (wx m) (wy m) (ww m) (wh m) (seltags m) (sellt m) (tagset m)
     (showbar m) (topbar m) v (sel m) (stack m) (gesture m)
     (lt m) (pertag m).

Definition set_stack (m : t) (v : list cid) : t :=
  mk (ltsymbol m) (mfact m) (nmaster m) (num m) (by_ m) (mx m) (my m) (mw m) (mh m)
     (wx m) (wy m) (ww m) (wh m) (seltags m) (sellt m) (tagset m)
     (showbar m) (topbar m) (clients m) (sel m) v (gesture m)
     (lt m) (pertag m).

Definition set_sel (m : t) (v : option cid) : t :=
  mk (ltsymbol m) (mfact m) (nmaster m) (num m) (by_ m) (mx m) (my m) (mw m) (mh m)
     (wx m) (wy m) (ww m) (wh m) (seltags m) (sellt m) (tagset m)
     (showbar m) (topbar m) (clients m) v (stack m) (gesture m)
     (lt m) (pertag m).

Definition set_gesture (m : t) (v : Z) : t :=
  mk (ltsymbol m) (mfact m) (nmaster m) (num m) (by_ m) (mx m) (my m) (mw m) (mh m)
     (wx m) (wy m) (ww m) (wh m) (seltags m) (sellt m) (tagset m)
     (showbar m) (topbar m) (clients m) (sel m) (stack m) v
     (lt m) (pertag m).

(** The bar position and the window area, as [updatebarpos] writes them. *)
Definition set_bar (m : t) (nby nwy nwh : Z) : t :=
  mk (ltsymbol m) (mfact m) (nmaster m) (num m) nby (mx m) (my m) (mw m) (mh m)
     (wx m) nwy (ww m) nwh (seltags m) (sellt m) (tagset m)
     (showbar m) (topbar m) (clients m) (sel m) (stack m) (gesture m)
     (lt m) (pertag m).

(** [m->showbar = m->pertag->showbars[...] = v] *)
Definition set_showbar (m : t) (v : Z) (p : Pertag.t) : t :=
  mk (ltsymbol m) (mfact m) (nmaster m) (num m) (by_ m) (mx m) (my m) (mw m) (mh m)
     (wx m) (wy m) (ww m) (wh m) (seltags m) (sellt m) (tagset m)
     v (topbar m) (clients m) (sel m) (stack m) (gesture m)
     (lt m) p.

(** The tag selection written by [view]. *)
Definition set_view (m : t) (nseltags : Z) (ntagset : Z * Z) (p : Pertag.t) : t :=
  mk (ltsymbol m) (mfact m) (nmaster m) (num m) (by_ m) (mx m) (my m) (mw m) (mh m)
     (wx m) (wy m) (ww m) (wh m) nseltags (sellt m) ntagset
     (showbar m) (topbar m) (clients m) (sel m) (stack m) (gesture m)
     (lt m) p.

(** The live per-tag configuration reloaded by [view]. *)
Definition set_live (m : t) (nn : Z) (nf : float) (nsellt : Z)
    (nlt : layout_ptr * layout_ptr) : t :=
  mk (ltsymbol m) nf nn (num m) (by_ m) (mx m) (my m) (mw m) (mh m)
     (wx m) (wy m) (ww m) (wh m) (seltags m) nsellt (tagset m)
     (showbar m) (topbar m) (clients m) (sel m) (stack m) (gesture m)
     nlt (pertag m).

(** The screen geometry written by [updategeom]. *)
Definition set_screen (m : t) (n nx ny nw nh : Z) : t :=
  mk (ltsymbol m) (mfact m) (nmaster m) n (by_ m) nx ny nw nh
     nx ny nw nh (seltags m) (sellt m) (tagset m)
     (showbar m) (topbar m) (clients m) (sel m) (stack m) (gesture m)
     (lt m) (pertag m).

(** [mons->mw = mons->ww = sw; mons->mh = mons->wh = sh] *)
Definition set_size (m : t) (nw nh : Z) : t :=
  mk (ltsymbol m) (mfact m) (nmaster m) (num m) (by_ m) (mx m) (my m) nw nh
     (wx m) (wy m) nw nh (seltags m) (sellt m) (tagset m)
     (showbar m) (topbar m) (clients m) (sel m) (stack m) (gesture m)
     (lt m) (pertag m).

End Monitor.

(** ** Configuration ([config.h]) *)

Record Config := {
  (** [LENGTH(tags)]; the program refuses to compile when it exceeds 31 *)
  ntags : nat;
  resizehints : Z;
  layouts : list Layout;
  cfg_mfact : float;
  cfg_nmaster : Z;
  cfg_showbar : Z;
  cfg_topbar : Z;
}.

(** ** Program state: the heaps and the global variables *)

Record State := mkState {
  cl : gmap cid Client.t;
  mn : gmap mid Monitor.t;
  (** the monitor list headed by [mons], through [next] *)
  mons : list mid;
  selmon : mid;
  sw : Z; sh : Z;
  bh : Z;
  animated : Z;
  isdesktop : Z;
  (** WM_STATE property of each window, as [getstate] reads it *)
  wmstate : gmap Z Z;
  (** the pointer position, as [getrootptr] reads it *)
  rootptr : option (Z * Z);
}.

(** ** The engine *)

Section Engine.
Context (cfg : Config).

(** [oldx + easeOutQuint((double)time/frames) * (x - oldx)] converted to
    [int]: [ease time frames old target]. *)
Variable ease : Z -> Z -> Z -> Z -> Z.

(** [clientcount()], declared outside [instantwm.c]. *)
Variable clientcount : State -> Z.

Definition set_cl (s : State) (v : gmap cid Client.t) : State :=
  mkState v (mn s) (mons s) (selmon s) (sw s) (sh s) (bh s) (animated s)
          (isdesktop s) (wmstate s) (rootptr s).

Definition set_mn (s : State) (v : gmap mid Monitor.t) : State :=
  mkState (cl s) v (mons s) (selmon s) (sw s) (sh s) (bh s) (animated s)
          (isdesktop s) (wmstate s) (rootptr s).

Definition set_mons (s : State) (v : list mid) : State :=
  mkState (cl s) (mn s) v (selmon s) (sw s) (sh s) (bh s) (animated s)
          (isdesktop s) (wmstate s) (rootptr s).

Definition set_selmon (s : State) (v : mid) : State :=
  mkState (cl s) (mn s) (mons s) v (sw s) (sh s) (bh s) (animated s)
          (isdesktop s) (wmstate s) (rootptr s).

Definition set_isdesktop (s : State) (v : Z) : State :=
  mkState (cl s) (mn s) (mons s) (selmon s) (sw s) (sh s) (bh s) (animated s)
          v (wmstate s) (rootptr s).

Definition put_client (s : State) (c : cid) (C : Client.t) : State :=
  set_cl s (<[c := C]> (cl s)).

Definition put_mon (s : State) (m : mid) (M : Monitor.t) : State :=
  set_mn s (<[m := M]> (mn s)).

(** *** Visibility *)

Definition IconicState : Z := 3.

(** [getstate(w)]: the WM_STATE property, [-1] when it is missing. *)
Definition getstate (s : State) (wn : Z) : Z := default (-1) (wmstate s !! wn).

(** [ISVISIBLE(C)] *)
Definition ISVISIBLE (s : State) (c : cid) : option bool :=
  C ← cl s !! c;
  M ← mn s !! Client.mon C;
  ts ← idx2 (Monitor.tagset M) (Monitor.seltags M);
  Some (negb (Z.land (Client.tags C) ts =? 0) || truthy (Client.issticky C)).

(** [HIDDEN(C)] *)
Definition HIDDEN (s : State) (c : cid) : option bool :=
  C ← cl s !! c;
  Some (getstate s (Client.win C) =? IconicState).

(** The test of [nexttiled]: [c->isfloating || !ISVISIBLE(c) || HIDDEN(c)]. *)
Definition untiled (s : State) (c : cid) : option bool :=
  C ← cl s !! c;
  if truthy (Client.isfloating C) then Some true
  else v ← ISVISIBLE s c; if v : bool then HIDDEN s c else Some true.

(** [nexttiled(c)]: the suffix of the list that starts at the first tiled
    client. *)
Fixpoint nexttiled (s : State) (l : list cid) : option (list cid) :=
  match l with
  | [] => Some []
  | c :: rest => u ← untiled s c; if u : bool then nexttiled s rest else Some (c :: rest)
  end.

(** [m->lt[m->sellt]] dereferenced. *)
Definition cur_layout (M : Monitor.t) : option Layout :=
  i ← idx2 (Monitor.lt M) (Monitor.sellt M); layouts cfg !! i.

(** *** Geometry solver *)

(** The hint resolution of [applysizehints] (ICCCM 4.1.2.3) on the size. *)
Definition sizehints (C : Client.t) (w h : Z) : Z * Z :=
  let baseismin :=
    (Client.basew C =? Client.minw C) && (Client.baseh C =? Client.minh C) in
  let '(w, h) :=
    if negb baseismin then (w - Client.basew C, h - Client.baseh C) else (w, h) in
  let '(w, h) :=
    if fgt0 (Client.mina C) && fgt0 (Client.maxa C) then
      if flt_ratio (Client.maxa C) w h then (fscale_round h (Client.maxa C), h)
      else if flt_ratio (Client.mina C) h w then (w, fscale_round w (Client.mina C))
      else (w, h)
    else (w, h) in
  let '(w, h) :=
    if baseismin then (w - Client.basew C, h - Client.baseh C) else (w, h) in
  let w := if truthy (Client.incw C) then w - Z.rem w (Client.incw C) else w in
  let h := if truthy (Client.inch C) then h - Z.rem h (Client.inch C) else h in
  let w := Z.max (w + Client.basew C) (Client.minw C) in
  let h := Z.max (h + Client.baseh C) (Client.minh C) in
  let w := if truthy (Client.maxw C) then Z.min w (Client.maxw C) else w in
  let h := if truthy (Client.maxh C) then Z.min h (Client.maxh C) else h in
  (w, h).

(** [resizehints || c->isfloating || !c->mon->lt[c->mon->sellt]->arrange] *)
Definition hints_apply (s : State) (C : Client.t) : option bool :=
  if truthy (resizehints cfg) || truthy (Client.isfloating C) then Some true
  else
    M ← mn s !! Client.mon C;
    L ← cur_layout M;
    Some (bool_decide (arrange_of L = None)).

(** [applysizehints(c, &x, &y, &w, &h, interact)]: the resolved rectangle
    and the returned flag. *)
Definition applysizehints (s : State) (c : cid) (x y w h : Z) (interact : bool)
    : option (Z * Z * Z * Z * bool) :=
  C ← cl s !! c;
  let w := Z.max 1 w in
  let h := Z.max 1 h in
  '(x, y) ←
    (if interact then
       let x := if sw s <? x then sw s - Client.WIDTH C else x in
       let y := if sh s <? y then sh s - Client.HEIGHT C else y in
       let x := if x + w + 2 * Client.bw C <? 0 then 0 else x in
       let y := if y + h + 2 * Client.bw C <? 0 then 0 else y in
       Some (x, y)
     else
       M ← mn s !! Client.mon C;
       let x := if Monitor.wx M + Monitor.ww M <=? x
                then Monitor.wx M + Monitor.ww M - Client.WIDTH C else x in
       let y := if Monitor.wy M + Monitor.wh M <=? y
                then Monitor.wy M + Monitor.wh M - Client.HEIGHT C else y in
       let x := if x + w + 2 * Client.bw C <=? Monitor.wx M then Monitor.wx M else x in
       let y := if y + h + 2 * Client.bw C <=? Monitor.wy M then Monitor.wy M else y in
       Some (x, y));
  let h := if h <? bh s then bh s else h in
  let w := if w <? bh s then bh s else w in
  hint ← hints_apply s C;
  let '(w, h) := if hint : bool then sizehints C w h else (w, h) in
  Some (x, y, w, h,
        negb (x =? Client.x C) || negb (y =? Client.y C)
        || negb (w =? Client.w C) || negb (h =? Client.h C)).

(** [resizeclient(c, x, y, w, h)] *)
Definition resizeclient (s : State) (c : cid) (x y w h : Z) : option State :=
  C ← cl s !! c;
  let C1 := Client.set_geom C x y w h in
  let s1 := put_client s c C1 in
  M ← mn s1 !! Client.mon C1;
  nt ← nexttiled s1 (Monitor.clients M);
  only ← match nt with
         | c' :: rest =>
             if decide (c' = c) then r ← nexttiled s1 rest; Some (bool_decide (r = []))
             else Some false
         | [] => Some false
         end;
  L ← cur_layout M;
  let bump :=
    ((only && bool_decide (arrange_of L <> None))
     || bool_decide (arrange_of L = Some fn_monocle))
    && negb (truthy (Client.isfullscreen C1)) && negb (truthy (Client.isfloating C1)) in
  let C2 := if bump
            then Client.set_wh C1 (w + Client.bw C1 * 2) (h + Client.bw C1 * 2)
            else C1 in
  Some (put_client s1 c C2).

(** [resize(c, x, y, w, h, interact)] *)
Definition resize (s : State) (c : cid) (x y w h : Z) (interact : bool)
    : option State :=
  '(x, y, w, h, changed) ← applysizehints s c x y w h interact;
  if changed : bool then resizeclient s c x y w h else Some s.

(** *** Animation *)

(** The [while (time < frames)] loop of [animateclient]; [k] iterations
    are left. *)
Fixpoint animate_frames (k : nat) (s : State) (c : cid)
    (time frames oldx oldy x y width height : Z) : option State :=
  match k with
  | O => Some s
  | S k' =>
      s' ← resize s c (ease time frames oldx x) (ease time frames oldy y)
                   width height true;
      animate_frames k' s' c (time + 1) frames oldx oldy x y width height
  end.

(** [animateclient(c, x, y, w, h, frames, resetpos)]; the fuel bounds the
    depth of its recursion. *)
Fixpoint animateclient (fuel : nat) (s : State) (c : cid)
    (x y w h frames : Z) (resetpos : bool) : option State :=
  match fuel with
  | O => None
  | S fuel' =>
      C ← cl s !! c;
      let width := if truthy w then w else Client.w C in
      let height := if truthy h then h else Client.h C in
      let oldx := Client.x C in
      let oldy := Client.y C in
      s1 ←
        (if truthy (animated s)
            && ((10 <? Z.abs (oldx - x)) || (10 <? Z.abs (oldy - y))
                || (10 <? Z.abs (w - Client.w C)) || (10 <? Z.abs (h - Client.h C)))
         then
           still ←
             (if (x =? Client.x C) && (y =? Client.y C)
              then SM ← mn s !! selmon s; Some (Client.w C <? Monitor.mw SM - 50)
              else Some false);
           if still : bool then
             animateclient fuel' s c (Client.x C + (width - Client.w C))
                           (Client.y C + (height - Client.h C)) 0 0 frames false
           else
             animate_frames (Z.to_nat (frames - 1)) s c 1 frames oldx oldy x y
                            width height
         else Some s);
      if resetpos then resize s1 c oldx oldy width height false
      else resize s1 c x y width height true
  end.

(** *** Layouts

    A loop [for (c = nexttiled(m->clients); c; c = nexttiled(c->next))]
    walks the arrangement list and leaves out the clients that fail the
    test of [nexttiled]. *)

(** [for (n = 0, c = nexttiled(m->clients); c; c = nexttiled(c->next), n++);] *)
Fixpoint count_tiled (s : State) (l : list cid) : option Z :=
  match l with
  | [] => Some 0
  | c :: rest =>
      u ← untiled s c; n ← count_tiled s rest;
      Some (if u : bool then n else n + 1)
  end.

(** [for (c = m->clients; c; c = c->next) if (ISVISIBLE(c)) n++;] *)
Fixpoint count_visible (s : State) (l : list cid) : option Z :=
  match l with
  | [] => Some 0
  | c :: rest =>
      v ← ISVISIBLE s c; n ← count_visible s rest;
      Some (if v : bool then n + 1 else n)
  end.

(** [MIN(n, m->nmaster)], compared and typed as [unsigned int]. *)
Definition umin (n nmaster : Z) : Z :=
  if n <? u32 nmaster then n else u32 nmaster.

(** The second loop of [tile]. *)
Fixpoint tile_loop (fuel : nat) (s : State) (M : Monitor.t)
    (n mw framecount : Z) (l : list cid) (i my ty : Z) : option State :=
  match l with
  | [] => Some s
  | c :: rest =>
      u ← untiled s c;
      if u : bool then tile_loop fuel s M n mw framecount rest i my ty
      else
        C ← cl s !! c;
        if i <? u32 (Monitor.nmaster M) then
          let h := u32 (Monitor.wh M - my) / u32 (umin n (Monitor.nmaster M) - i) in
          s' ← animateclient fuel s c (Monitor.wx M) (s32 (Monitor.wy M + my))
                 (s32 (mw - 2 * Client.bw C)) (s32 (h - 2 * Client.bw C))
                 framecount false;
          C' ← cl s' !! c;
          let my' := if u32 (my + Client.HEIGHT C') <? u32 (Monitor.wh M)
                     then u32 (my + Client.HEIGHT C') else my in
          tile_loop fuel s' M n mw framecount rest (i + 1) my' ty
        else
          let h := u32 (Monitor.wh M - ty) / u32 (n - i) in
          s' ← animateclient fuel s c (s32 (Monitor.wx M + mw)) (s32 (Monitor.wy M + ty))
                 (s32 (Monitor.ww M - mw - 2 * Client.bw C)) (s32 (h - 2 * Client.bw C))
                 framecount false;
          C' ← cl s' !! c;
          let ty' := if u32 (ty + Client.HEIGHT C') <? u32 (Monitor.wh M)
                     then u32 (ty + Client.HEIGHT C') else ty in
          tile_loop fuel s' M n mw framecount rest (i + 1) my ty'
  end.

(** [tile(m)] *)
Definition tile (fuel : nat) (s : State) (m : mid) : option State :=
  M ← mn s !! m;
  let framecount := if truthy (animated s) && (5 <? clientcount s) then 4 else 7 in
  n ← count_tiled s (Monitor.clients M);
  if n =? 0 then Some s
  else
    let mw :=
      if u32 (Monitor.nmaster M) <? n then
        if truthy (Monitor.nmaster M)
        then u32 (fmul_trunc (Monitor.ww M) (Monitor.mfact M)) else 0
      else u32 (Monitor.ww M) in
    tile_loop fuel s M n mw framecount (Monitor.clients M) 0 0 0.

(** The second loop of [monocle]. *)
Fixpoint monocle_loop (fuel : nat) (s : State) (M : Monitor.t) (l : list cid)
    : option State :=
  match l with
  | [] => Some s
  | c :: rest =>
      u ← untiled s c;
      if u : bool then monocle_loop fuel s M rest
      else
        C ← cl s !! c;
        s' ← animateclient fuel s c (Monitor.wx M) (Monitor.wy M)
               (Monitor.ww M - 2 * Client.bw C) (Monitor.wh M - 2 * Client.bw C)
               10 false;
        monocle_loop fuel s' M rest
  end.

(** ["[%d]"] printed for the count [n]; at most twelve characters, so
    [snprintf] never cuts it. *)
Definition monocle_symbol (n : Z) : string :=
  ("[" ++ NilZero.string_of_int (Z.to_int (s32 n)) ++ "]")%string.

(** [monocle(m)] *)
Definition monocle (fuel : nat) (s : State) (m : mid) : option State :=
  M ← mn s !! m;
  n ← count_visible s (Monitor.clients M);
  let M1 := if 0 <? n then Monitor.set_ltsymbol M (monocle_symbol n) else M in
  let s1 := if 0 <? n then put_mon s m M1 else s in
  monocle_loop fuel s1 M1 (Monitor.clients M1).

(** The second loop of [bstack]. *)
Fixpoint bstack_loop (fuel : nat) (s : State) (M : Monitor.t)
    (n mh tw ty : Z) (l : list cid) (i mx tx : Z) : option State :=
  match l with
  | [] => Some s
  | c :: rest =>
      u ← untiled s c;
      if u : bool then bstack_loop fuel s M n mh tw ty rest i mx tx
      else
        C ← cl s !! c;
        if i <? u32 (Monitor.nmaster M) then
          let w := s32 (u32 (Monitor.ww M - mx) / u32 (umin n (Monitor.nmaster M) - i)) in
          s' ← animateclient fuel s c (Monitor.wx M + mx) (Monitor.wy M)
                 (w - 2 * Client.bw C) (mh - 2 * Client.bw C) 10 false;
          C' ← cl s' !! c;
          bstack_loop fuel s' M n mh tw ty rest (i + 1) (mx + Client.WIDTH C') tx
        else
          let h := Monitor.wh M - mh in
          s' ← animateclient fuel s c tx ty
                 (tw - 2 * Client.bw C) (h - 2 * Client.bw C) 10 false;
          C' ← cl s' !! c;
          let tx' := if negb (tw =? Monitor.ww M) then tx + Client.WIDTH C' else tx in
          bstack_loop fuel s' M n mh tw ty rest (i + 1) mx tx'
  end.

(** [bstack(m)] *)
Definition bstack (fuel : nat) (s : State) (m : mid) : option State :=
  M ← mn s !! m;
  n ← count_tiled s (Monitor.clients M);
  if n =? 0 then Some s
  else
    let '(mh, tw, ty) :=
      if u32 (Monitor.nmaster M) <? n then
        let mh := if truthy (Monitor.nmaster M)
                  then fmul_trunc (Monitor.wh M) (Monitor.mfact M) else 0 in
        (mh, s32 (u32 (Monitor.ww M) / u32 (n - Monitor.nmaster M)), Monitor.wy M + mh)
      else (Monitor.wh M, Monitor.ww M, Monitor.wy M) in
    bstack_loop fuel s M n mh tw ty (Monitor.clients M) 0 0 (Monitor.wx M).

(** The second loop of [bstackhoriz]. *)
Fixpoint bstackhoriz_loop (fuel : nat) (s : State) (M : Monitor.t)
    (n mh th tx : Z) (l : list cid) (i mx ty : Z) : option State :=
  match l with
  | [] => Some s
  | c :: rest =>
      u ← untiled s c;
      if u : bool then bstackhoriz_loop fuel s M n mh th tx rest i mx ty
      else
        C ← cl s !! c;
        if i <? u32 (Monitor.nmaster M) then
          let w := s32 (u32 (Monitor.ww M - mx) / u32 (umin n (Monitor.nmaster M) - i)) in
          s' ← animateclient fuel s c (Monitor.wx M + mx) (Monitor.wy M)
                 (w - 2 * Client.bw C) (mh - 2 * Client.bw C) 10 false;
          C' ← cl s' !! c;
          bstackhoriz_loop fuel s' M n mh th tx rest (i + 1) (mx + Client.WIDTH C') ty
        else
          s' ← animateclient fuel s c tx ty
                 (Monitor.ww M - 2 * Client.bw C) (th - 2 * Client.bw C) 10 false;
          C' ← cl s' !! c;
          let ty' := if negb (th =? Monitor.wh M) then ty + Client.HEIGHT C' else ty in
          bstackhoriz_loop fuel s' M n mh th tx rest (i + 1) mx ty'
  end.

(** [bstackhoriz(m)] *)
Definition bstackhoriz (fuel : nat) (s : State) (m : mid) : option State :=
  M ← mn s !! m;
  n ← count_tiled s (Monitor.clients M);
  if n =? 0 then Some s
  else
    let '(mh, th, ty) :=
      if u32 (Monitor.nmaster M) <? n then
        let mh := if truthy (Monitor.nmaster M)
                  then fmul_trunc (Monitor.wh M) (Monitor.mfact M) else 0 in
        (mh, s32 (u32 (Monitor.wh M - mh) / u32 (n - Monitor.nmaster M)),
         Monitor.wy M + mh)
      else (Monitor.wh M, Monitor.wh M, Monitor.wy M) in
    bstackhoriz_loop fuel s M n mh th (Monitor.wx M) (Monitor.clients M) 0 0 ty.

(** The call through [m->lt[m->sellt]->arrange]. *)
Definition run_layout (f : arrange_fn) (fuel : nat) (s : State) (m : mid)
    : option State :=
  match f with
  | fn_tile => tile fuel s m
  | fn_monocle => monocle fuel s m
  | fn_bstack => bstack fuel s m
  | fn_bstackhoriz => bstackhoriz fuel s m
  end.

(** [strncpy(m->ltsymbol, ..., sizeof m->ltsymbol)]: sixteen bytes. *)
Definition strncpy16 (src : string) : string := String.substring 0 16 src.

(** [arrangemon(m)] *)
Definition arrangemon (fuel : nat) (s : State) (m : mid) : option State :=
  M ← mn s !! m;
  L ← cur_layout M;
  let s1 := put_mon s m (Monitor.set_ltsymbol M (strncpy16 (symbol L))) in
  match arrange_of L with
  | Some f => run_layout f fuel s1 m
  | None => Some s1
  end.

(** [showhide(c)], along the stack list. *)
Fixpoint showhide (s : State) (l : list cid) : option State :=
  match l with
  | [] => Some s
  | c :: rest =>
      v ← ISVISIBLE s c;
      if v : bool then
        C ← cl s !! c;
        M ← mn s !! Client.mon C;
        L ← cur_layout M;
        s1 ← (if bool_decide (arrange_of L = None)
                 || (truthy (Client.isfloating C)
                     && (negb (truthy (Client.isfullscreen C))
                         || truthy (Client.isfakefullscreen C)))
              then resize s c (Client.x C) (Client.y C) (Client.w C) (Client.h C) false
              else Some s);
        showhide s1 rest
      else showhide s rest
  end.

(** [for (m = mons; m; m = m->next) showhide(m->stack);] *)
Fixpoint showhide_all (s : State) (l : list mid) : option State :=
  match l with
  | [] => Some s
  | m :: rest => M ← mn s !! m; s1 ← showhide s (Monitor.stack M); showhide_all s1 rest
  end.

(** [for (m = mons; m; m = m->next) arrangemon(m);] *)
Fixpoint arrangemon_all (fuel : nat) (s : State) (l : list mid) : option State :=
  match l with
  | [] => Some s
  | m :: rest => s1 ← arrangemon fuel s m; arrangemon_all fuel s1 rest
  end.

(** [arrange(m)]; [restack] only talks to the X server. *)
Definition arrange (fuel : nat) (s : State) (m : option mid) : option State :=
  match m with
  | Some m =>
      M ← mn s !! m;
      s1 ← showhide s (Monitor.stack M);
      arrangemon fuel s1 m
  | None =>
      s1 ← showhide_all s (mons s);
      arrangemon_all fuel s1 (mons s1)
  end.

(** *** Client registry *)

(** The unlinking loop of [detach] and [detachstack]: the link that points
    to [c] is set to the successor of [c].  It is given for a client that
    is on the list. *)
Fixpoint unlink (c : cid) (l : list cid) : option (list cid) :=
  match l with
  | [] => None
  | a :: rest => if decide (a = c) then Some rest else r ← unlink c rest; Some (a :: r)
  end.

(** [attach(c)] *)
Definition attach (s : State) (c : cid) : option State :=
  C ← cl s !! c;
  M ← mn s !! Client.mon C;
  Some (put_mon s (Client.mon C) (Monitor.set_clients M (c :: Monitor.clients M))).

(** [attachstack(c)] *)
Definition attachstack (s : State) (c : cid) : option State :=
  C ← cl s !! c;
  M ← mn s !! Client.mon C;
  Some (put_mon s (Client.mon C) (Monitor.set_stack M (c :: Monitor.stack M))).

(** [detach(c)] *)
Definition detach (s : State) (c : cid) : option State :=
  C ← cl s !! c;
  M ← mn s !! Client.mon C;
  l ← unlink c (Monitor.clients M);
  Some (put_mon s (Client.mon C) (Monitor.set_clients M l)).

(** [for (t = c->mon->stack; t && !ISVISIBLE(t); t = t->snext);] *)
Fixpoint first_visible (s : State) (l : list cid) : option (option cid) :=
  match l with
  | [] => Some None
  | t :: rest => v ← ISVISIBLE s t; if v : bool then Some (Some t) else first_visible s rest
  end.

(** [detachstack(c)] *)
Definition detachstack (s : State) (c : cid) : option State :=
  C ← cl s !! c;
  M ← mn s !! Client.mon C;
  l ← unlink c (Monitor.stack M);
  let M1 := Monitor.set_stack M l in
  let s1 := put_mon s (Client.mon C) M1 in
  if decide (Monitor.sel M1 = Some c) then
    t ← first_visible s1 (Monitor.stack M1);
    Some (put_mon s1 (Client.mon C) (Monitor.set_sel M1 t))
  else Some s1.

(** *** Focus *)

(** [for (c = selmon->stack; c && (!ISVISIBLE(c) || HIDDEN(c)); c = c->snext);] *)
Fixpoint first_focusable (s : State) (l : list cid) : option (option cid) :=
  match l with
  | [] => Some None
  | c :: rest =>
      v ← ISVISIBLE s c;
      if v : bool then
        hd ← HIDDEN s c;
        if hd : bool then first_focusable s rest else Some (Some c)
      else first_focusable s rest
  end.

(** [!c || !ISVISIBLE(c) || HIDDEN(c)] *)
Definition unfocusable (s : State) (c : option cid) : option bool :=
  match c with
  | None => Some true
  | Some c => v ← ISVISIBLE s c; if v : bool then HIDDEN s c else Some true
  end.

(** [seturgent(c, urg)] *)
Definition seturgent (s : State) (c : cid) (urg : Z) : option State :=
  C ← cl s !! c; Some (put_client s c (Client.set_isurgent C urg)).

(** [focus(c)]; [unfocus], [grabbuttons], [setfocus], [drawbars] and
    [grabkeys] only talk to the X server. *)
Definition focus (s : State) (c : option cid) : option State :=
  u ← unfocusable s c;
  c ← (if u : bool
       then SM ← mn s !! selmon s; first_focusable s (Monitor.stack SM)
       else Some c);
  s1 ← match c with
       | Some k =>
           C ← cl s !! k;
           let s1 := if decide (Client.mon C = selmon s) then s
                     else set_selmon s (Client.mon C) in
           s2 ← (if truthy (Client.isurgent C) then seturgent s1 k 0 else Some s1);
           s3 ← detachstack s2 k;
           attachstack s3 k
       | None => Some s
       end;
  SM ← mn s1 !! selmon s1;
  let SM1 := Monitor.set_sel SM c in
  let SM2 := if negb (Monitor.gesture SM1 =? 11) && truthy (Monitor.gesture SM1)
             then Monitor.set_gesture SM1 0 else SM1 in
  let s2 := put_mon s1 (selmon s1) SM2 in
  Some (match c with
        | None => if truthy (isdesktop s2) then s2 else set_isdesktop s2 1
        | Some _ => if truthy (isdesktop s2) then set_isdesktop s2 0 else s2
        end).

(** *** Tag/view state *)

(** [TAGMASK] *)
Definition TAGMASK : Z := Z.shiftl 1 (Z.of_nat (ntags cfg)) - 1.

(** [for (i = 0; !(ui & 1 << i); i++);] within the width of an [int]. *)
Fixpoint lowest_bit (k : nat) (i : Z) (ui : Z) : option Z :=
  match k with
  | O => None
  | S k' => if Z.land ui (Z.shiftl 1 i) =? 0 then lowest_bit k' (i + 1) ui else Some i
  end.

(** [updatebarpos(m)] *)
Definition updatebarpos (s : State) (M : Monitor.t) : Monitor.t :=
  let wy := Monitor.my M in
  let wh := Monitor.mh M in
  if truthy (Monitor.showbar M) then
    let wh := wh - bh s in
    let by_ := if truthy (Monitor.topbar M) then wy else wy + wh in
    let wy := if truthy (Monitor.topbar M) then wy + bh s else wy in
    Monitor.set_bar M by_ wy wh
  else Monitor.set_bar M (- bh s) wy wh.

(** [togglebar(arg)]; [resizebarwin] and the systray window only concern
    the X server. *)
Definition togglebar (fuel : nat) (s : State) : option State :=
  SM ← mn s !! selmon s;
  let v := lnot (Monitor.showbar SM) in
  sb ← aset (Pertag.showbars (Monitor.pertag SM)) (Pertag.curtag (Monitor.pertag SM)) v;
  let SM1 := Monitor.set_showbar SM v (Pertag.set_showbars (Monitor.pertag SM) sb) in
  let s1 := put_mon s (selmon s) (updatebarpos s SM1) in
  arrange fuel s1 (Some (selmon s1)).

(** [view(arg)] with [arg->ui = ui]. *)
Definition view (fuel : nat) (s : State) (ui : Z) : option State :=
  SM ← mn s !! selmon s;
  let seltags := Z.lxor (Monitor.seltags SM) 1 in
  let P := Monitor.pertag SM in
  '(ts, P1) ←
    (if negb (Z.land ui TAGMASK =? 0) then
       ts ← upd2 (Monitor.tagset SM) seltags (Z.land ui TAGMASK);
       cur ← (if ui =? 2 ^ 32 - 1 then Some 0
              else i ← lowest_bit 32 0 ui; Some (i + 1));
       Some (ts, Pertag.set_tags P cur (Pertag.curtag P))
     else
       Some (Monitor.tagset SM, Pertag.set_tags P (Pertag.prevtag P) (Pertag.curtag P)));
  let cur := Pertag.curtag P1 in
  nm ← aget (Pertag.nmasters P1) cur;
  mf ← aget (Pertag.mfacts P1) cur;
  sl ← aget (Pertag.sellts P1) cur;
  lts ← aget (Pertag.ltidxs P1) cur;
  a ← idx2 lts sl;
  lt1 ← upd2 (Monitor.lt SM) sl a;
  b ← idx2 lts (Z.lxor sl 1);
  lt2 ← upd2 lt1 (Z.lxor sl 1) b;
  let SM1 := Monitor.set_live (Monitor.set_view SM seltags ts P1) nm mf sl lt2 in
  let s1 := put_mon s (selmon s) SM1 in
  sb ← aget (Pertag.showbars P1) cur;
  s2 ← (if negb (Monitor.showbar SM1 =? sb) then togglebar fuel s1 else Some s1);
  s3 ← focus s2 None;
  arrange fuel s3 (Some (selmon s3)).

(** *** Output manager *)

Record XineramaScreenInfo := {
  x_org : Z; y_org : Z; width : Z; height : Z;
}.

(** [createmon()]: the record [ecalloc] returns is zeroed and lives at an
    address that was not in use. *)
Definition createmon (s : State) : option (mid * State) :=
  L0 ← layouts cfg !! 0%nat;
  let m : mid := fresh (dom (mn s)) in
  let lt0 : layout_ptr := 3%nat in
  let lt1 : layout_ptr := 0%nat in
  let k := S (ntags cfg) in
  let P :=
    Pertag.mk 1 1
      (replicate k (cfg_nmaster cfg))
      (replicate k (cfg_mfact cfg))
      (replicate k 0)
      (replicate k (lt1, lt0))
      (replicate k (cfg_showbar cfg)) in
  let M :=
    Monitor.mk (strncpy16 (symbol L0)) (cfg_mfact cfg) (cfg_nmaster cfg)
      0 0 0 0 0 0 0 0 0 0 0 0 (1, 1) (cfg_showbar cfg) (cfg_topbar cfg)
      [] None [] 0 (lt0, lt1) P in
  Some (m, put_mon s m M).

(** [cleanupmon(mon)] *)
Definition cleanupmon (s : State) (m : mid) : option State :=
  l ← unlink m (mons s);
  Some (set_mn (set_mons s l) (delete m (mn s))).

(** [INTERSECT(x,y,w,h,m)] *)
Definition INTERSECT (x y w h : Z) (M : Monitor.t) : Z :=
  Z.max 0 (Z.min (x + w) (Monitor.wx M + Monitor.ww M) - Z.max x (Monitor.wx M))
  * Z.max 0 (Z.min (y + h) (Monitor.wy M + Monitor.wh M) - Z.max y (Monitor.wy M)).

(** The loop of [recttomon]. *)
Fixpoint recttomon_loop (s : State) (l : list mid) (x y w h : Z) (r : mid) (area : Z)
    : option mid :=
  match l with
  | [] => Some r
  | m :: rest =>
      M ← mn s !! m;
      let a := INTERSECT x y w h M in
      if area <? a then recttomon_loop s rest x y w h m a
      else recttomon_loop s rest x y w h r area
  end.

(** [recttomon(x, y, w, h)] *)
Definition recttomon (s : State) (x y w h : Z) : option mid :=
  recttomon_loop s (mons s) x y w h (selmon s) 0.

(** [wintomon(root)]; the root window is no bar window and no client
    window. *)
Definition wintomon_root (s : State) : option mid :=
  match rootptr s with
  | Some (x, y) => recttomon s x y 1 1
  | None => Some (selmon s)
  end.

(** [isuniquegeom(unique, n, info)] *)
Definition isuniquegeom (unique : list XineramaScreenInfo) (info : XineramaScreenInfo)
    : bool :=
  negb (existsb (fun u => (x_org u =? x_org info) && (y_org u =? y_org info)
                          && (width u =? width info) && (height u =? height info))
                unique).

(** The loop that keeps the screens with a geometry not seen before. *)
Fixpoint unique_screens (unique info : list XineramaScreenInfo)
    : list XineramaScreenInfo :=
  match info with
  | [] => unique
  | i :: rest =>
      if isuniquegeom unique i then unique_screens (unique ++ [i]) rest
      else unique_screens unique rest
  end.

(** The loop that appends new monitors to the list. *)
Fixpoint add_mons (k : nat) (s : State) : option State :=
  match k with
  | O => Some s
  | S k' => '(m, s1) ← createmon s; add_mons k' (set_mons s1 (mons s1 ++ [m]))
  end.

(** The loop that writes the screen geometries into the monitors. *)
Fixpoint update_screens (s : State) (l : list mid) (unique : list XineramaScreenInfo)
    (i n dirty : Z) : option (State * Z) :=
  match l, unique with
  | m :: rest, u :: urest =>
      M ← mn s !! m;
      if (n <=? i) || negb (x_org u =? Monitor.mx M) || negb (y_org u =? Monitor.my M)
         || negb (width u =? Monitor.mw M) || negb (height u =? Monitor.mh M)
      then
        let M1 := Monitor.set_screen M i (x_org u) (y_org u) (width u) (height u) in
        update_screens (put_mon s m (updatebarpos s M1)) rest urest (i + 1) n 1
      else update_screens s rest urest (i + 1) n dirty
  | _, _ => Some (s, dirty)
  end.

(** [while ((c = m->clients)) { ... }]: the clients of [m] move to the
    first monitor. *)
Fixpoint migrate (fuel : nat) (s : State) (m : mid) (dirty : Z)
    : option (State * Z) :=
  match fuel with
  | O => None
  | S fuel' =>
      M ← mn s !! m;
      match Monitor.clients M with
      | [] => Some (s, dirty)
      | c :: rest =>
          let s1 := put_mon s m (Monitor.set_clients M rest) in
          s2 ← detachstack s1 c;
          C ← cl s2 !! c;
          first ← head (mons s2);
          let s3 := put_client s2 c (Client.set_mon C first) in
          s4 ← attach s3 c;
          s5 ← attachstack s4 c;
          migrate fuel' s5 m 1
      end
  end.

(** The loop that removes the monitors beyond the screens that are left. *)
Fixpoint remove_mons (fuel : nat) (k : nat) (s : State) (dirty : Z)
    : option (State * Z) :=
  match k with
  | O => Some (s, dirty)
  | S k' =>
      m ← last (mons s);
      '(s1, dirty1) ← migrate fuel s m dirty;
      s2 ← (if decide (m = selmon s1)
            then first ← head (mons s1); Some (set_selmon s1 first)
            else Some s1);
      s3 ← cleanupmon s2 m;
      remove_mons fuel k' s3 dirty1
  end.

(** [updategeom()]; [xin] holds the screens Xinerama reports when it is
    active.  The result is the new state and [dirty]. *)
Definition updategeom (fuel : nat) (s : State) (xin : option (list XineramaScreenInfo))
    : option (State * Z) :=
  '(s1, dirty) ←
    match xin with
    | Some info =>
        let n := length (mons s) in
        let unique := unique_screens [] info in
        let nn := length unique in
        if (n <=? nn)%nat then
          s1 ← add_mons (nn - n) s;
          update_screens s1 (mons s1) unique 0 (Z.of_nat n) 0
        else remove_mons fuel (n - nn) s 0
    | None =>
        s1 ← match mons s with
             | [] => '(m, s1) ← createmon s; Some (set_mons s1 [m])
             | _ => Some s
             end;
        m0 ← head (mons s1);
        M0 ← mn s1 !! m0;
        if negb (Monitor.mw M0 =? sw s1) || negb (Monitor.mh M0 =? sh s1) then
          let M1 := Monitor.set_size M0 (sw s1) (sh s1) in
          Some (put_mon s1 m0 (updatebarpos s1 M1), 1)
        else Some (s1, 0)
    end;
  if truthy dirty then
    first ← head (mons s1);
    let s2 := set_selmon s1 first in
    m ← wintomon_root s2;
    Some (set_selmon s2 m, dirty)
  else Some (s1, dirty).

End Engine.

(** ** Vocabulary of the specification

    Predicates and functions that the statements below are written in;
    none of them is part of the program. *)

Section Vocabulary.
Context (cfg : Config).
Implicit Types s : State.
Implicit Types C : Client.t.
Implicit Types M : Monitor.t.

(** The size that [applysizehints] resolves does not depend on the
    position: it is this function of the proposed size. *)
Definition solve_size (s : State) (C : Client.t) (w h : Z) : option (Z * Z) :=
  let w := Z.max 1 w in
  let h := Z.max 1 h in
  let h := if h <? bh s then bh s else h in
  let w := if w <? bh s then bh s else w in
  hint ← hints_apply cfg s C;
  Some (if hint : bool then sizehints C w h else (w, h)).

(** A client without its geometry and its urgency flag. *)
Definition cstatic (C : Client.t) : Client.t :=
  Client.set_isurgent (Client.set_geom (Client.set_geom C 0 0 0 0) 0 0 0 0) 0.

(** A monitor without its layout symbol, stack list, focused client and
    gesture. *)
Definition mstatic (M : Monitor.t) : Monitor.t :=
  Monitor.set_gesture
    (Monitor.set_sel (Monitor.set_stack (Monitor.set_ltsymbol M "") []) None) 0.

(** Two states that differ at most in the geometry and urgency of their
    clients, in the stack order and focus of their monitors, in the
    selected monitor and in [isdesktop]. *)
Record same_static (s s' : State) : Prop := {
  ss_cl : forall k, cstatic <$> cl s' !! k = cstatic <$> cl s !! k;
  ss_mn : forall m, mstatic <$> mn s' !! m = mstatic <$> mn s !! m;
  ss_mons : mons s' = mons s;
  ss_sw : sw s' = sw s;
  ss_sh : sh s' = sh s;
  ss_bh : bh s' = bh s;
  ss_animated : animated s' = animated s;
  ss_wmstate : wmstate s' = wmstate s;
  ss_rootptr : rootptr s' = rootptr s;
}.

(** A monitor without its layout symbol. *)
Definition unsym (M : Monitor.t) : Monitor.t := Monitor.set_ltsymbol M "".

(** Two states that differ at most in the geometry and urgency of their
    clients and in the layout symbols: what arranging may change. *)
Record same_arr (s s' : State) : Prop := {
  sa_cl : forall k, cstatic <$> cl s' !! k = cstatic <$> cl s !! k;
  sa_mn : forall m, unsym <$> mn s' !! m = unsym <$> mn s !! m;
  sa_mons : mons s' = mons s;
  sa_selmon : selmon s' = selmon s;
  sa_sw : sw s' = sw s;
  sa_sh : sh s' = sh s;
  sa_bh : bh s' = bh s;
  sa_animated : animated s' = animated s;
  sa_isdesktop : isdesktop s' = isdesktop s;
  sa_wmstate : wmstate s' = wmstate s;
  sa_rootptr : rootptr s' = rootptr s;
}.

(** What [view] leaves in the monitor that was selected: [SM] before the
    call, [M'] after it. *)
Definition view_post (ui : Z) (SM M' : Monitor.t) : Prop :=
  let P := Monitor.pertag SM in
  let P' := Monitor.pertag M' in
  let cur := Pertag.curtag P' in
  Monitor.seltags M' = Z.lxor (Monitor.seltags SM) 1
  /\ (if Z.land ui (TAGMASK cfg) =? 0
      then Monitor.tagset M' = Monitor.tagset SM /\ cur = Pertag.prevtag P
      else upd2 (Monitor.tagset SM) (Monitor.seltags M') (Z.land ui (TAGMASK cfg))
           = Some (Monitor.tagset M')
           /\ (if ui =? 2 ^ 32 - 1 then cur = 0
               else exists i, lowest_bit 32 0 ui = Some i /\ cur = i + 1))
  /\ Pertag.prevtag P' = Pertag.curtag P
  /\ Pertag.nmasters P' = Pertag.nmasters P
  /\ Pertag.mfacts P' = Pertag.mfacts P
  /\ Pertag.sellts P' = Pertag.sellts P
  /\ Pertag.ltidxs P' = Pertag.ltidxs P
  /\ aget (Pertag.nmasters P) cur = Some (Monitor.nmaster M')
  /\ aget (Pertag.mfacts P) cur = Some (Monitor.mfact M')
  /\ aget (Pertag.sellts P) cur = Some (Monitor.sellt M')
  /\ aget (Pertag.ltidxs P) cur = Some (Monitor.lt M')
  /\ (Monitor.sellt M' = 0 \/ Monitor.sellt M' = 1)
  /\ exists sb, aget (Pertag.showbars P) cur = Some sb
       /\ if Monitor.showbar SM =? sb
          then Monitor.showbar M' = Monitor.showbar SM
               /\ Pertag.showbars P' = Pertag.showbars P
          else Monitor.showbar M' = lnot (Monitor.showbar SM)
               /\ aset (Pertag.showbars P) cur (lnot (Monitor.showbar SM))
                  = Some (Pertag.showbars P').

(** The candidate [focus] settles on. *)
Definition focus_candidate s (c : option cid) : option (option cid) :=
  u ← unfocusable s c;
  if u : bool
  then SM ← mn s !! selmon s; first_focusable s (Monitor.stack SM)
  else Some c.

(** The selected monitor is allocated, tag selectors are array indices,
    and the clients on a stack list are allocated and owned by the
    monitor of the list. *)
Record wf s : Prop := {
  wf_selmon : is_Some (mn s !! selmon s);
  wf_seltags : forall m M, mn s !! m = Some M ->
               Monitor.seltags M = 0 \/ Monitor.seltags M = 1;
  wf_stack : forall m M t, mn s !! m = Some M -> t ∈ Monitor.stack M ->
             exists T, cl s !! t = Some T /\ Client.mon T = m;
}.

(** A client that is allocated and on the stack list of its monitor. *)
Definition managed s (k : cid) : Prop :=
  exists C M, cl s !! k = Some C /\ mn s !! Client.mon C = Some M
              /\ k ∈ Monitor.stack M.

(** The live configuration of a monitor agrees with its per-tag block at
    the current tag index, and its bar flag is 0 or 1. *)
Definition pertag_synced (M : Monitor.t) : Prop :=
  let P := Monitor.pertag M in
  aget (Pertag.nmasters P) (Pertag.curtag P) = Some (Monitor.nmaster M)
  /\ aget (Pertag.mfacts P) (Pertag.curtag P) = Some (Monitor.mfact M)
  /\ aget (Pertag.sellts P) (Pertag.curtag P) = Some (Monitor.sellt M)
  /\ aget (Pertag.ltidxs P) (Pertag.curtag P) = Some (Monitor.lt M)
  /\ aget (Pertag.showbars P) (Pertag.curtag P) = Some (Monitor.showbar M)
  /\ (Monitor.showbar M = 0 \/ Monitor.showbar M = 1).

(** The condition under which [resizeclient] drops the border and widens
    the client by it: the client is the only tiled one under an arranging
    layout, or the layout is monocle, and it is neither fullscreen nor
    floating. *)
Definition bumps s (c : cid) : option bool :=
  C ← cl s !! c;
  M ← mn s !! Client.mon C;
  nt ← nexttiled s (Monitor.clients M);
  only ← match nt with
         | c' :: rest =>
             if decide (c' = c) then r ← nexttiled s rest; Some (bool_decide (r = []))
             else Some false
         | [] => Some false
         end;
  L ← cur_layout cfg M;
  Some (((only && bool_decide (arrange_of L <> None))
         || bool_decide (arrange_of L = Some fn_monocle))
        && negb (truthy (Client.isfullscreen C))
        && negb (truthy (Client.isfloating C))).

(** What a call of [resize] on [c] dereferences is allocated. *)
Definition can_resize s (c : cid) : Prop :=
  exists C M L,
    cl s !! c = Some C /\ mn s !! Client.mon C = Some M
    /\ cur_layout cfg M = Some L
    /\ forall t, t ∈ Monitor.clients M -> is_Some (untiled s t).



(** The clients a loop over [nexttiled] visits, in list order. *)
Fixpoint tiled s (l : list cid) : option (list cid) :=
  match l with
  | [] => Some []
  | c :: rest =>
      u ← untiled s c; t ← tiled s rest; Some (if u : bool then t else c :: t)
  end.

(** The client list of a monitor, empty when the record is gone. *)
Definition clients_of s (m : mid) : list cid :=
  match mn s !! m with Some M => Monitor.clients M | None => [] end.

(** What the lists of one monitor look like in a state [manage] and
    [unmanage] built: no client twice, every client also on the stack
    list, every stack entry an allocated client owned by the monitor. *)
Record mon_ok s (m : mid) M : Prop := {
  ok_seltags : Monitor.seltags M = 0 \/ Monitor.seltags M = 1;
  ok_clients : NoDup (Monitor.clients M);
  ok_stack : NoDup (Monitor.stack M);
  ok_listed : forall c, c ∈ Monitor.clients M -> c ∈ Monitor.stack M;
  ok_owner : forall t, t ∈ Monitor.stack M ->
             exists T, cl s !! t = Some T /\ Client.mon T = m;
}.

Record registry_ok s : Prop := {
  reg_nodup : NoDup (mons s);
  reg_mon : forall m, m ∈ mons s -> exists M, mn s !! m = Some M /\ mon_ok s m M;
}.

(** The clients of the monitors [rem], each monitor's list reversed. *)
Definition moved s (rem : list mid) : list cid :=
  concat (map (fun m => reverse (clients_of s m)) rem).

(** What arranging monitor [m] dereferences is allocated, and the
    animation is switched off. *)
Record arr_ready s (m : mid) : Prop := {
  ar_still : animated s = 0;
  ar_mon : exists M L,
      mn s !! m = Some M /\ cur_layout cfg M = Some L
      /\ (Monitor.seltags M = 0 \/ Monitor.seltags M = 1)
      /\ (forall t, t ∈ Monitor.clients M \/ t ∈ Monitor.stack M ->
            exists T, cl s !! t = Some T /\ Client.mon T = m);
}.

(** The layout loops can walk the list [l]: the animation is off, and
    every client on the list can be tested and resized. *)
Definition walkable s (l : list cid) : Prop :=
  animated s = 0
  /\ forall t, t ∈ l -> can_resize s t /\ is_Some (untiled s t).

(** Every monitor of [s'] is a monitor of [s], and its stack list holds
    no client that the stack list in [s] does not hold. *)
Definition stack_sub s s' : Prop :=
  forall m M', mn s' !! m = Some M' ->
    exists M, mn s !! m = Some M /\ forall t, t ∈ Monitor.stack M' -> t ∈ Monitor.stack M.

(** The per-tag block of a monitor has its [LENGTH(tags) + 1] entries,
    the tag indices are in range, the selected-layout entries are 0 or 1
    and the layout entries point into [layouts]. *)
Record pertag_ok M : Prop := {
  po_nmasters : length (Pertag.nmasters (Monitor.pertag M)) = S (ntags cfg);
  po_mfacts : length (Pertag.mfacts (Monitor.pertag M)) = S (ntags cfg);
  po_sellts : length (Pertag.sellts (Monitor.pertag M)) = S (ntags cfg);
  po_ltidxs : length (Pertag.ltidxs (Monitor.pertag M)) = S (ntags cfg);
  po_showbars : length (Pertag.showbars (Monitor.pertag M)) = S (ntags cfg);
  po_curtag : 0 <= Pertag.curtag (Monitor.pertag M) <= Z.of_nat (ntags cfg);
  po_prevtag : 0 <= Pertag.prevtag (Monitor.pertag M) <= Z.of_nat (ntags cfg);
  po_sellt : Forall (fun v => v = 0 \/ v = 1) (Pertag.sellts (Monitor.pertag M));
  po_lt : Forall (fun p : layout_ptr * layout_ptr =>
                    (p.1 < length (layouts cfg))%nat /\ (p.2 < length (layouts cfg))%nat)
                 (Pertag.ltidxs (Monitor.pertag M));
}.

(** What [view] needs of a state to return: the state is well formed,
    the animation is off, there are at most 31 tags, and the clients and
    the per-tag block of the selected monitor are in order. *)
Record view_ready s : Prop := {
  vr_wf : wf s;
  vr_still : animated s = 0;
  vr_ntags : (ntags cfg <= 31)%nat;
  vr_mon : exists SM,
      mn s !! selmon s = Some SM /\ pertag_ok SM
      /\ forall t, t ∈ Monitor.clients SM ->
            exists T, cl s !! t = Some T /\ Client.mon T = selmon s;
}.

(** *** Return under animation

    With [animated] set, [animateclient] calls itself; a call with an
    empty width or height can go on calling itself without end.  The
    layouts propose the window area less the border to every client
    under monocle, and to a client that is the only tiled one under the
    other layouts. *)

(** The clients of a list that do not float. *)
Definition nonfloating s (l : list cid) : list cid :=
  filter (fun c => Client.isfloating <$> cl s !! c = Some 0) l.

(** The border of the client is not negative, and twice the border is
    less than the width and the height of the window area of [M]. *)
Definition border_fits s M (t : cid) : Prop :=
  forall T, cl s !! t = Some T ->
    0 <= Client.bw T /\ 2 * Client.bw T < Monitor.ww M
    /\ 2 * Client.bw T < Monitor.wh M.

(** The layout loops can walk the list [l] with the animation on or off:
    the selected monitor is allocated, the window area of [M] fits an
    [int], and every client on the list can be tested and resized and
    has a border that fits the window area. *)
Definition anim_walkable s M (l : list cid) : Prop :=
  is_Some (mn s !! selmon s)
  /\ Monitor.ww M < 2 ^ 31 /\ Monitor.wh M < 2 ^ 31
  /\ forall t, t ∈ l -> can_resize s t /\ is_Some (untiled s t) /\ border_fits s M t.

(** What arranging monitor [m] needs with the animation on or off: what
    it dereferences is allocated, the master count is an [int], the
    borders of the clients fit the window area, and the layout is null
    or monocle, or at most one client of the monitor does not float. *)
Record anim_ready s (m : mid) : Prop := {
  an_sel : is_Some (mn s !! selmon s);
  an_mon : exists M L,
      mn s !! m = Some M /\ cur_layout cfg M = Some L
      /\ (Monitor.seltags M = 0 \/ Monitor.seltags M = 1)
      /\ (forall t, t ∈ Monitor.clients M \/ t ∈ Monitor.stack M ->
            exists T, cl s !! t = Some T /\ Client.mon T = m)
      /\ - 2 ^ 31 <= Monitor.nmaster M < 2 ^ 31
      /\ Monitor.ww M < 2 ^ 31 /\ Monitor.wh M < 2 ^ 31
      /\ (forall t, t ∈ Monitor.clients M -> border_fits s M t)
      /\ (arrange_of L = None \/ arrange_of L = Some fn_monocle
          \/ (length (nonfloating s (Monitor.clients M)) <= 1)%nat);
}.

(** An entry of [layouts] that is null or monocle. *)
Definition steady_layout (p : layout_ptr) : Prop :=
  exists L, layouts cfg !! p = Some L
            /\ (arrange_of L = None \/ arrange_of L = Some fn_monocle).

(** What [view] needs of a state to return with the animation on or
    off: the state is well formed, there are at most 31 tags, the bar
    thickness is not negative; the per-tag block of the selected monitor
    is in order and its master counts are [int]s; the borders of the
    clients of the monitor fit its window area with and without the bar;
    and at most one of these clients does not float, or every layout
    that the per-tag block names is null or monocle. *)
Record view_anim_ready s : Prop := {
  va_wf : wf s;
  va_ntags : (ntags cfg <= 31)%nat;
  va_bh : 0 <= bh s;
  va_mon : exists SM,
      mn s !! selmon s = Some SM /\ pertag_ok SM
      /\ Forall (fun v => - 2 ^ 31 <= v < 2 ^ 31) (Pertag.nmasters (Monitor.pertag SM))
      /\ Monitor.ww SM < 2 ^ 31 /\ Monitor.wh SM < 2 ^ 31 /\ Monitor.mh SM < 2 ^ 31
      /\ (forall t, t ∈ Monitor.clients SM ->
            exists T, cl s !! t = Some T /\ Client.mon T = selmon s
              /\ 0 <= Client.bw T /\ 2 * Client.bw T < Monitor.ww SM
              /\ 2 * Client.bw T < Monitor.wh SM
              /\ 2 * Client.bw T + bh s < Monitor.mh SM)
      /\ ((length (nonfloating s (Monitor.clients SM)) <= 1)%nat
          \/ Forall (fun p : layout_ptr * layout_ptr =>
                       steady_layout p.1 /\ steady_layout p.2)
                    (Pertag.ltidxs (Monitor.pertag SM)));
}.

(** *** The words of the specification *)

(** [floor(W * f)], the product taken exactly: [f] is the number that
    the binary32 value stands for. *)
Definition floor_product (W : Z) (f : float) : Z :=
  match f with
  | S754_finite sg m e =>
      let n := W * (if sg then Z.neg m else Z.pos m) in
      if 0 <=? e then n * 2 ^ e else n / 2 ^ (- e)
  | _ => 0
  end.

End Vocabulary.

(** ** A concrete instance

    The easing of [animateclient] is computed in binary64, with [--t]
    evaluated first.  The configuration table uses the arrange functions
    of [instantwm.c]; as in the program, entry 3 is the monocle
    layout. *)

Module Demo.

Definition f64_of_int (z : Z) : spec_float := binary_normalize 53 1024 z 0 false.

(** [1 + (--t) * t * t] with [t = (double)time / frames], then
    [old + ... * (target - old)]. *)
Definition ease (time frames old target : Z) : Z :=
  let t := SFdiv 53 1024 (f64_of_int time) (f64_of_int frames) in
  let t1 := SFsub 53 1024 t (f64_of_int 1) in
  let e := SFadd 53 1024 (f64_of_int 1) (SFmul 53 1024 (SFmul 53 1024 t1 t1) t1) in
  sf_trunc (SFadd 53 1024 (f64_of_int old)
                  (SFmul 53 1024 e (f64_of_int (target - old)))).

(** A stand-in for [clientcount()]: the number of clients of the
    selected monitor. *)
Definition clientcount (s : State) : Z :=
  match mn s !! selmon s with
  | Some M => Z.of_nat (length (Monitor.clients M))
  | None => 0
  end.

Definition fzero : spec_float := S754_zero false.

(** 0.55f *)
Definition f055 : spec_float := SFdiv 24 128 (f32_of_int 55) (f32_of_int 100).

Definition layouts : list Layout :=
  [ Build_Layout "+" (Some fn_tile);
    Build_Layout "TTT" (Some fn_bstack);
    Build_Layout "-" None;
    Build_Layout "[M]" (Some fn_monocle);
    Build_Layout "===" (Some fn_bstackhoriz) ].

Definition cfg : Config :=
  Build_Config 9 1 layouts f055 1 1 1.

(** The same table with [resizehints = 0]. *)
Definition cfg_nohints : Config :=
  Build_Config 9 0 layouts f055 1 1 1.

(** A client without size hints. *)
Definition client (x y w h bw tags isfloating : Z) (m : mid) (wn : Z)
    : Client.t :=
  Client.mk fzero fzero x y w h 0 0 0 0 0 0 0 0 0 0 0 0 bw tags isfloating 0 0 0 0 m wn.

(** The state after [setup] on one 1920x1080 screen: an empty monitor
    list grown by [updategeom], a bar of 20 pixels. *)
Definition boot : State :=
  mkState ∅ ∅ [] 0%nat 1920 1080 20 1 0 ∅ None.

Definition started : option State :=
  fst <$> updategeom cfg 8 boot None.

(** The desktop after [setup]: one monitor, no client. *)
Definition desk : State := default boot started.

(** What [manage] does to the registry: the record is allocated and put
    at the head of both lists of its monitor. *)
Definition place (s : State) (c : cid) (C : Client.t) : State :=
  default s (s1 ← attach (put_client s c C) c; attachstack s1 c).

(** The WM_STATE property of window [wn] is set to [IconicState]. *)
Definition iconify (s : State) (wn : Z) : State :=
  mkState (cl s) (mn s) (mons s) (selmon s) (sw s) (sh s) (bh s) (animated s)
          (isdesktop s) (<[wn := IconicState]> (wmstate s)) (rootptr s).

(** Client 1 is tiled, client 2 floats; both carry tag 1.  The layout of
    a fresh monitor is entry 3 of the table. *)
Definition mono_desk : State :=
  place (place desk 1%nat (client 0 20 800 600 1 1 0 0%nat 101))
        2%nat (client 100 100 300 200 1 1 1 0%nat 102).

(** After a first [view] of tag 1 the layout is entry 0 of the table,
    taken from the per-tag block. *)
Definition tile_desk0 : State := default desk (view cfg ease clientcount 3 desk 1).

(** Two tiled clients, 1 before 2 on the client list. *)
Definition tile_desk : State :=
  place (place tile_desk0 2%nat (client 0 20 800 600 1 1 0 0%nat 102))
        1%nat (client 0 20 800 600 1 1 0 0%nat 101).

(** A client with [incw = 10] and [minw = 20]. *)
Definition stepped : Client.t :=
  Client.mk fzero fzero 0 20 100 100 0 0 0 0 0 0 10 0 0 0 20 0 1 1 0 0 0 0 0 0%nat 101.

Definition stepped_desk : State := place desk 1%nat stepped.

(** A client with [maxw = maxh = 16], below the bar thickness 20. *)
Definition small : Client.t :=
  Client.mk fzero fzero 0 20 16 16 0 0 0 0 0 0 0 0 16 16 0 0 1 1 1 0 0 0 0 0%nat 101.

Definition small_desk : State := place desk 1%nat small.

(** Stack order 1, 2, 3 with client 1 focused and the window of client 2
    iconic. *)
Definition hidden_desk : State :=
  let s := place (place (place desk 3%nat (client 0 20 800 600 1 1 0 0%nat 103))
                        2%nat (client 0 20 800 600 1 1 0 0%nat 102))
                 1%nat (client 0 20 800 600 1 1 0 0%nat 101) in
  iconify (default s (focus s (Some 1%nat))) 102.

Definition screen0 : XineramaScreenInfo := Build_XineramaScreenInfo 0 0 1920 1080.
Definition screen1 : XineramaScreenInfo := Build_XineramaScreenInfo 1920 0 1280 1024.

(** A second screen is plugged in. *)
Definition twin : State :=
  default desk (fst <$> updategeom cfg 8 desk (Some [screen0; screen1])).

(** Client 1 on the first monitor, clients 6 and 5, in this order, on the
    client list of the second. *)
Definition twin_desk : State :=
  place (place (place twin 1%nat (client 0 20 800 600 1 1 0 0%nat 101))
               5%nat (client 1930 30 500 400 1 1 0 1%nat 105))
        6%nat (client 1940 40 500 400 1 1 0 1%nat 106).

(** The animation is switched off. *)
Definition calm (s : State) : State :=
  mkState (cl s) (mn s) (mons s) (selmon s) (sw s) (sh s) (bh s) 0
          (isdesktop s) (wmstate s) (rootptr s).

Definition calm_desk : State := calm tile_desk.

(** [calm_desk] after [view] with the mask 6; after [view] with the mask
    2; and after the [view] with the empty mask that follows. *)
Definition calm_desk_6 : State :=
  default calm_desk (view cfg ease clientcount 1 calm_desk 6).

Definition calm_desk_2 : State :=
  default calm_desk (view cfg ease clientcount 1 calm_desk 2).

Definition calm_desk_back : State :=
  default calm_desk_2 (view cfg ease clientcount 1 calm_desk_2 0).

(** [mono_desk] after [focus] on client 1. *)
Definition mono_focused : State := default mono_desk (focus mono_desk (Some 1%nat)).

(** The stack list and the focused client of a monitor. *)
Definition stack_sel (s : State) (m : mid) : option (list cid * option cid) :=
  M ← mn s !! m; Some (Monitor.stack M, Monitor.sel M).

(** The client list of a monitor. *)
Definition client_list (s : State) (m : mid) : option (list cid) :=
  M ← mn s !! m; Some (Monitor.clients M).



(** The current tag index of the selected monitor. *)
Definition curtag_of (s : State) : option Z :=
  M ← mn s !! selmon s; Some (Pertag.curtag (Monitor.pertag M)).

(** The layout pair of the selected monitor. *)
Definition layout_pair (s : State) : option (layout_ptr * layout_ptr) :=
  M ← mn s !! selmon s; Some (Monitor.lt M).

(** A client with the hints of [stepped] whose aspect ratio is fixed to
    one. *)
Definition stepped_square : Client.t :=
  Client.mk (f32_of_int 1) (f32_of_int 1) 0 20 100 100 0 0 0 0 0 0 10 0 0 0 20 0
            1 1 0 0 0 0 0 0%nat 101.

Definition square_desk : State := place desk 1%nat stepped_square.

(** 0.7f, and the configuration with this split factor. *)
Definition f07 : spec_float := SFdiv 24 128 (f32_of_int 7) (f32_of_int 10).

Definition cfg07 : Config :=
  Build_Config 9 1 layouts f07 1 1 1.

(** Two tiled clients under the tile layout, the split factor 0.7f. *)
Definition tile_desk07 : State :=
  let d := default boot (fst <$> updategeom cfg07 8 boot None) in
  place (place (default d (view cfg07 ease clientcount 3 d 1))
               2%nat (client 0 20 800 600 1 1 0 0%nat 102))
        1%nat (client 0 20 800 600 1 1 0 0%nat 101).

(** The width of a client with its border. *)
Definition width_of (s : State) (c : cid) : option Z :=
  C ← cl s !! c; Some (Client.WIDTH C).

(** The animation is on, the live configuration agrees with the per-tag
    block; client 1 is tiled and client 2 floats. *)
Definition anim_desk : State :=
  place (place tile_desk0 1%nat (client 0 20 800 600 1 1 0 0%nat 101))
        2%nat (client 100 100 300 200 1 1 1 0%nat 102).

(** [anim_desk] after [view] with the mask 3, and after the [view] with
    the empty mask that follows. *)
Definition anim_desk_3 : State :=
  default anim_desk (view cfg ease clientcount 2 anim_desk 3).

Definition anim_desk_back : State :=
  default anim_desk_3 (view cfg ease clientcount 2 anim_desk_3 0).

End Demo.

(** ** Proof engineering *)

Arguments fgt0 : simpl never.
Arguments flt_ratio : simpl never.
Arguments fscale_round : simpl never.
Arguments fmul_trunc : simpl never.
Arguments ISVISIBLE : simpl never.
Arguments HIDDEN : simpl never.
Arguments untiled : simpl never.
Arguments cur_layout : simpl never.
Arguments hints_apply : simpl never.
Arguments sizehints : simpl never.
Arguments applysizehints : simpl never.
Arguments resizeclient : simpl never.
Arguments resize : simpl never.
Arguments tile : simpl never.
Arguments monocle : simpl never.
Arguments bstack : simpl never.
Arguments bstackhoriz : simpl never.
Arguments arrangemon : simpl never.
Arguments arrange : simpl never.
Arguments attach : simpl never.
Arguments attachstack : simpl never.
Arguments detach : simpl never.
Arguments detachstack : simpl never.
Arguments seturgent : simpl never.
Arguments focus : simpl never.
Arguments updatebarpos : simpl never.
Arguments togglebar : simpl never.
Arguments view : simpl never.
Arguments createmon : simpl never.
Arguments cleanupmon : simpl never.
Arguments updategeom : simpl never.
Arguments TAGMASK : simpl never.

(** Boolean comparisons on [Z] turned into propositions. *)
Ltac zbool :=
  repeat match goal with
  | H : (_ <? _) = true |- _ => apply Z.ltb_lt in H
  | H : (_ <? _) = false |- _ => apply Z.ltb_ge in H
  | H : (_ <=? _) = true |- _ => apply Z.leb_le in H
  | H : (_ <=? _) = false |- _ => apply Z.leb_gt in H
  | H : (_ =? _) = true |- _ => apply Z.eqb_eq in H
  | H : (_ =? _) = false |- _ => apply Z.eqb_neq in H
  end.

(** Evaluation at the concrete states of [Demo]: the states are kept
    folded for the tactics and unfolded by the virtual machine only. *)
Opaque Demo.desk Demo.mono_desk Demo.tile_desk0 Demo.tile_desk Demo.stepped_desk
       Demo.small_desk Demo.hidden_desk Demo.twin Demo.twin_desk Demo.calm_desk
       Demo.calm_desk_6 Demo.calm_desk_2 Demo.calm_desk_back Demo.mono_focused
       Demo.square_desk Demo.tile_desk07 Demo.anim_desk Demo.anim_desk_3
       Demo.anim_desk_back.

(** Closes a side condition on a concrete state by evaluation. *)
Ltac by_eval :=
  vm_compute;
  first [ reflexivity | discriminate | congruence | lia | by eauto | by left | by right ].

(** Splits a conjunction into its parts. *)
Ltac conj_split := repeat match goal with |- _ /\ _ => split end.

(** Splits a membership in a concrete list into its cases. *)
Ltac in_list H :=
  repeat (apply elem_of_cons in H as [->|H]); [..|by apply elem_of_nil in H].

(** Membership in a concrete list. *)
Ltac in_eval := vm_compute; repeat constructor.

(** Well-formedness of a concrete state, monitor by monitor. *)
Ltac prove_wf s :=
  split;
  [ by_eval
  | apply map_Forall_to_list; vm_compute;
    repeat (constructor; [first [by left | by right]|]); constructor
  | let m := fresh "m" in let M := fresh "M" in let t := fresh "t" in
    let HM := fresh "HM" in let Ht := fresh "Ht" in
    intros m M t HM Ht; revert m M HM t Ht;
    apply (map_Forall_to_list (fun m M => forall t, t ∈ Monitor.stack M ->
             exists T, cl s !! t = Some T /\ Client.mon T = m));
    vm_compute map_to_list; repeat constructor;
    intros t Ht; vm_compute in Ht; in_list Ht; eexists; split; by_eval ].

(** ** Geometry solver *)

Section SolverFacts.
Context (cfg : Config).

Lemma applysizehints_size s c C x y w h interact x' y' w' h' ch :
  cl s !! c = Some C ->
  applysizehints cfg s c x y w h interact = Some (x', y', w', h', ch) ->
  solve_size cfg s C w h = Some (w', h')
  /\ ch = negb (x' =? Client.x C) || negb (y' =? Client.y C)
          || negb (w' =? Client.w C) || negb (h' =? Client.h C).
Proof.
  intros HC H. unfold applysizehints in H. rewrite HC in H. simpl in H.
  unfold solve_size.
  destruct interact; simplify_option_eq;
    match goal with
    | H : (let '(_, _) := ?e in _) = _ |- _ => destruct e as [w0 h0] eqn:E
    end; simplify_eq; done.
Qed.

Lemma applysizehints_total s c C x y w h interact :
  cl s !! c = Some C ->
  is_Some (mn s !! Client.mon C) ->
  is_Some (hints_apply cfg s C) ->
  is_Some (applysizehints cfg s c x y w h interact).
Proof.
  intros HC [M HM] [hint Hh]. unfold applysizehints. rewrite HC. simpl.
  destruct interact; simpl; rewrite ?HM; simpl; rewrite Hh; simpl;
    destruct hint; [destruct (sizehints C _ _)| |destruct (sizehints C _ _)|]; eauto.
Qed.

Lemma sizehints_no_aspect (C : Client.t) w h :
  fgt0 (Client.mina C) && fgt0 (Client.maxa C) = false ->
  (sizehints C w h).1 =
    let w1 := w - Client.basew C in
    let w2 := if truthy (Client.incw C) then w1 - Z.rem w1 (Client.incw C) else w1 in
    let w3 := Z.max (w2 + Client.basew C) (Client.minw C) in
    if truthy (Client.maxw C) then Z.min w3 (Client.maxw C) else w3.
Proof.
  intros Ha. unfold sizehints. rewrite Ha.
  destruct ((Client.basew C =? Client.minw C) && (Client.baseh C =? Client.minh C));
    reflexivity.
Qed.

(** C5, as amended.  With [incw = 10], base width 0, [minw = 20], no
    maximal width and no aspect limits, a client to which the hint
    resolution applies gets the proposed width 47 resolved to 40 (the
    bar being at most 47 thick); 40 is congruent to [minw] modulo [incw]
    and at least [minw], and it is the largest such width up to 47. *)
Theorem applysizehints_increment_snap s c C x y h interact :
  cl s !! c = Some C ->
  is_Some (mn s !! Client.mon C) ->
  Client.incw C = 10 -> Client.basew C = 0 ->
  Client.minw C = 20 -> Client.maxw C = 0 ->
  fgt0 (Client.mina C) && fgt0 (Client.maxa C) = false ->
  hints_apply cfg s C = Some true ->
  bh s <= 47 ->
  (exists x' y' h' ch,
      applysizehints cfg s c x y 47 h interact = Some (x', y', 40, h', ch))
  /\ (Client.minw C <= 40 /\ 40 mod Client.incw C = Client.minw C mod Client.incw C)
  /\ (forall v, v <= 47 -> Client.minw C <= v ->
        v mod Client.incw C = Client.minw C mod Client.incw C -> v <= 40).
Proof.
  intros HC HM Hinc Hbase Hmin Hmax Ha Hh Hbh. split; [|split].
  - destruct (applysizehints_total s c C x y 47 h interact HC HM) as [r Hr]; [eauto|].
    destruct r as [[[[x' y'] w'] h'] ch].
    destruct (applysizehints_size _ _ _ _ _ _ _ _ _ _ _ _ _ HC Hr) as [Hs _].
    unfold solve_size in Hs. rewrite Hh in Hs. simpl in Hs.
    assert (Hw : (sizehints C (if 1 `max` 47 <? bh s then bh s else 1 `max` 47)
                    (if 1 `max` h <? bh s then bh s else 1 `max` h)).1 = 40).
    { rewrite sizehints_no_aspect by done. rewrite Hinc, Hbase, Hmin, Hmax.
      replace (1 `max` 47) with 47 by lia.
      destruct (47 <? bh s) eqn:E; [apply Z.ltb_lt in E; lia|]. reflexivity. }
    destruct (sizehints C _ _) as [w0 h0]. simpl in Hw. simplify_eq.
    eauto.
  - rewrite Hinc, Hmin. split; [lia|reflexivity].
  - intros v Hv Hlo Hmod. rewrite Hinc, Hmin in *.
    change (20 mod 10) with 0 in Hmod.
    apply Z.mod_divide in Hmod; [|lia]. destruct Hmod as [k ->]. lia.
Qed.

(** C7, as amended.  [applysizehints] raises the proposed width and
    height to the bar thickness [bh] before the size hints are resolved:
    the resolved size is the outcome of the hint resolution on a size of
    at least [bh] by [bh].  When the hint resolution does not apply
    (hints off for tiled clients, the client not floating, the layout
    arranging) the resolved width and height are at least [bh]. *)
Theorem applysizehints_bar_floor s c C x y w h interact hint :
  cl s !! c = Some C ->
  is_Some (mn s !! Client.mon C) ->
  hints_apply cfg s C = Some hint ->
  exists x' y' w' h' ch w0 h0,
    applysizehints cfg s c x y w h interact = Some (x', y', w', h', ch)
    /\ bh s <= w0 /\ bh s <= h0
    /\ (w', h') = (if hint then sizehints C w0 h0 else (w0, h0))
    /\ (hint = false -> bh s <= w' /\ bh s <= h').
Proof.
  intros HC HM Hh.
  destruct (applysizehints_total s c C x y w h interact HC HM) as [r Hr]; [eauto|].
  destruct r as [[[[x' y'] w'] h'] ch].
  destruct (applysizehints_size _ _ _ _ _ _ _ _ _ _ _ _ _ HC Hr) as [Hs _].
  unfold solve_size in Hs. rewrite Hh in Hs. cbn [mbind option_bind] in Hs.
  injection Hs as Hs.
  set (h0 := if Z.max 1 h <? bh s then bh s else Z.max 1 h) in *.
  set (w0 := if Z.max 1 w <? bh s then bh s else Z.max 1 w) in *.
  assert (Hw0 : bh s <= w0)
    by (unfold w0; destruct (Z.ltb_spec (Z.max 1 w) (bh s)); lia).
  assert (Hh0 : bh s <= h0)
    by (unfold h0; destruct (Z.ltb_spec (Z.max 1 h) (bh s)); lia).
  exists x', y', w', h', ch, w0, h0. split; [exact Hr|].
  split; [done|]. split; [done|]. split; [done|].
  intros ->. by simplify_eq.
Qed.

End SolverFacts.

(** ** What arranging and focusing leave alone *)

Section Static.
Implicit Types s : State.
Implicit Types C : Client.t.
Implicit Types M : Monitor.t.

Lemma same_static_refl s : same_static s s.
Proof. by split. Qed.

Lemma same_static_sym s s' : same_static s s' -> same_static s' s.
Proof. intros []. by split. Qed.

Lemma same_static_trans s1 s2 s3 :
  same_static s1 s2 -> same_static s2 s3 -> same_static s1 s3.
Proof.
  intros [] []. split; congruence.
Qed.

Lemma same_static_cl s s' k C :
  same_static s s' -> cl s !! k = Some C ->
  exists C', cl s' !! k = Some C' /\ cstatic C' = cstatic C.
Proof.
  intros Hs HC. pose proof (ss_cl _ _ Hs k) as H. rewrite HC in H. simpl in H.
  apply fmap_Some in H as (C' & ? & ?). eauto.
Qed.

Lemma same_static_mn s s' m M :
  same_static s s' -> mn s !! m = Some M ->
  exists M', mn s' !! m = Some M' /\ mstatic M' = mstatic M.
Proof.
  intros Hs HM. pose proof (ss_mn _ _ Hs m) as H. rewrite HM in H. simpl in H.
  apply fmap_Some in H as (M' & ? & ?). eauto.
Qed.

Lemma cstatic_set_geom (C : Client.t) x y w h :
  cstatic (Client.set_geom C x y w h) = cstatic C.
Proof. reflexivity. Qed.

Lemma cstatic_set_wh (C : Client.t) w h :
  cstatic (Client.set_wh C w h) = cstatic C.
Proof. reflexivity. Qed.

Lemma cstatic_set_isurgent (C : Client.t) v :
  cstatic (Client.set_isurgent C v) = cstatic C.
Proof. reflexivity. Qed.

Lemma cstatic_fields (C C' : Client.t) :
  cstatic C' = cstatic C ->
  Client.tags C' = Client.tags C /\ Client.issticky C' = Client.issticky C
  /\ Client.mon C' = Client.mon C /\ Client.win C' = Client.win C
  /\ Client.isfloating C' = Client.isfloating C
  /\ Client.isfullscreen C' = Client.isfullscreen C
  /\ Client.isfakefullscreen C' = Client.isfakefullscreen C
  /\ Client.bw C' = Client.bw C.
Proof.
  intros H. destruct C, C'. unfold cstatic in H. simpl in H.
  by simplify_eq.
Qed.

Lemma cstatic_sizehints (C C' : Client.t) w h :
  cstatic C' = cstatic C -> sizehints C' w h = sizehints C w h.
Proof.
  intros H. destruct C, C'. unfold cstatic in H. simpl in H.
  by simplify_eq.
Qed.

Lemma mstatic_fields (M M' : Monitor.t) :
  mstatic M' = mstatic M ->
  Monitor.tagset M' = Monitor.tagset M /\ Monitor.seltags M' = Monitor.seltags M
  /\ Monitor.lt M' = Monitor.lt M /\ Monitor.sellt M' = Monitor.sellt M
  /\ Monitor.clients M' = Monitor.clients M
  /\ Monitor.pertag M' = Monitor.pertag M
  /\ Monitor.nmaster M' = Monitor.nmaster M /\ Monitor.mfact M' = Monitor.mfact M
  /\ Monitor.showbar M' = Monitor.showbar M
  /\ (Monitor.mx M', Monitor.my M', Monitor.mw M', Monitor.mh M')
     = (Monitor.mx M, Monitor.my M, Monitor.mw M, Monitor.mh M)
  /\ (Monitor.wx M', Monitor.wy M', Monitor.ww M', Monitor.wh M')
     = (Monitor.wx M, Monitor.wy M, Monitor.ww M, Monitor.wh M).
Proof.
  intros H. destruct M, M'. unfold mstatic in H. simpl in H.
  by simplify_eq.
Qed.

Lemma same_arr_refl s : same_arr s s.
Proof. by split. Qed.

Lemma same_arr_trans s1 s2 s3 :
  same_arr s1 s2 -> same_arr s2 s3 -> same_arr s1 s3.
Proof. intros [] []. split; congruence. Qed.

Lemma unsym_mstatic (M M' : Monitor.t) :
  unsym M' = unsym M -> mstatic M' = mstatic M.
Proof.
  intros H. destruct M, M'. unfold unsym in H. simpl in H. by simplify_eq.
Qed.

Lemma unsym_fields (M M' : Monitor.t) :
  unsym M' = unsym M ->
  Monitor.stack M' = Monitor.stack M /\ Monitor.sel M' = Monitor.sel M.
Proof.
  intros H. destruct M, M'. unfold unsym in H. simpl in H. by simplify_eq.
Qed.

Lemma same_arr_static s s' : same_arr s s' -> same_static s s'.
Proof.
  intros Hs. destruct Hs as [Hcl Hmn ? ? ? ? ? ? ? ? ?].
  split; try done. intros m. specialize (Hmn m).
  destruct (mn s' !! m) as [M'|], (mn s !! m) as [M|]; simpl in *; try done.
  f_equal. apply unsym_mstatic. congruence.
Qed.

Lemma same_arr_mn s s' m M :
  same_arr s s' -> mn s !! m = Some M ->
  exists M', mn s' !! m = Some M' /\ unsym M' = unsym M.
Proof.
  intros Hs HM. pose proof (sa_mn _ _ Hs m) as H. rewrite HM in H. simpl in H.
  apply fmap_Some in H as (M' & ? & ?). eauto.
Qed.

End Static.

Section Frames.
Context (cfg : Config).
Variable ease : Z -> Z -> Z -> Z -> Z.
Variable clientcount : State -> Z.
Implicit Types s : State.
Implicit Types C : Client.t.
Implicit Types M : Monitor.t.

(** *** Reads *)

Lemma static_read {A} (f : State -> option A) :
  (forall s s' a, same_static s s' -> f s = Some a -> f s' = Some a) ->
  forall s s', same_static s s' -> f s' = f s.
Proof.
  intros Hf s s' Hs. destruct (f s) as [a|] eqn:E1.
  - eauto.
  - destruct (f s') as [a|] eqn:E2; [|done].
    apply (Hf s' s a) in E2; [congruence|by apply same_static_sym].
Qed.

Lemma ISVISIBLE_static s s' c :
  same_static s s' -> ISVISIBLE s' c = ISVISIBLE s c.
Proof.
  revert s s'. apply (static_read (fun s : State => ISVISIBLE s c)).
  intros s s' b Hs H. unfold ISVISIBLE in *.
  destruct (cl s !! c) as [C|] eqn:HC; [|done]. simpl in H.
  destruct (mn s !! Client.mon C) as [M|] eqn:HM; [|done]. simpl in H.
  destruct (same_static_cl _ _ _ _ Hs HC) as (C' & -> & HC').
  destruct (cstatic_fields _ _ HC') as (E1 & E2 & E3 & _). simpl.
  rewrite E1, E2, E3.
  destruct (same_static_mn _ _ _ _ Hs HM) as (M' & -> & HM').
  destruct (mstatic_fields _ _ HM') as (E4 & E5 & _). simpl.
  by rewrite E4, E5.
Qed.

Lemma HIDDEN_static s s' c :
  same_static s s' -> HIDDEN s' c = HIDDEN s c.
Proof.
  revert s s'. apply (static_read (fun s : State => HIDDEN s c)).
  intros s s' b Hs H. unfold HIDDEN, getstate in *.
  destruct (cl s !! c) as [C|] eqn:HC; [|done]. simpl in H.
  destruct (same_static_cl _ _ _ _ Hs HC) as (C' & -> & HC').
  destruct (cstatic_fields _ _ HC') as (_ & _ & _ & E & _). simpl.
  by rewrite E, (ss_wmstate _ _ Hs).
Qed.

Lemma untiled_static s s' c :
  same_static s s' -> untiled s' c = untiled s c.
Proof.
  intros Hs. unfold untiled.
  rewrite (ISVISIBLE_static _ _ c Hs), (HIDDEN_static _ _ c Hs).
  destruct (cl s !! c) as [C|] eqn:HC.
  - destruct (same_static_cl _ _ _ _ Hs HC) as (C' & -> & HC').
    destruct (cstatic_fields _ _ HC') as (_ & _ & _ & _ & E & _). simpl.
    by rewrite E.
  - pose proof (ss_cl _ _ Hs c) as H. rewrite HC in H.
    apply fmap_None in H. by rewrite H.
Qed.

Lemma nexttiled_static s s' l :
  same_static s s' -> nexttiled s' l = nexttiled s l.
Proof.
  intros Hs. induction l as [|c l IH]; [done|]. simpl.
  rewrite (untiled_static _ _ c Hs). destruct (untiled s c) as [[]|]; simpl; congruence.
Qed.

Lemma count_tiled_static s s' l :
  same_static s s' -> count_tiled s' l = count_tiled s l.
Proof.
  intros Hs. induction l as [|c l IH]; [done|]. simpl.
  by rewrite (untiled_static _ _ c Hs), IH.
Qed.

Lemma count_visible_static s s' l :
  same_static s s' -> count_visible s' l = count_visible s l.
Proof.
  intros Hs. induction l as [|c l IH]; [done|]. simpl.
  by rewrite (ISVISIBLE_static _ _ c Hs), IH.
Qed.

Lemma cur_layout_static (M M' : Monitor.t) :
  mstatic M' = mstatic M -> cur_layout cfg M' = cur_layout cfg M.
Proof.
  intros H. destruct (mstatic_fields _ _ H) as (_ & _ & Hlt & Hs & _).
  unfold cur_layout. by rewrite Hlt, Hs.
Qed.

(** *** Writes *)

Lemma same_static_put_client s c C C' :
  cl s !! c = Some C -> cstatic C' = cstatic C ->
  same_static s (put_client s c C').
Proof.
  intros HC HS. split; try done. intros k. simpl.
  destruct (decide (c = k)) as [->|Hne].
  - by rewrite lookup_insert_eq, HC; simpl; f_equal.
  - by rewrite lookup_insert_ne.
Qed.

Lemma same_static_put_mon s m M M' :
  mn s !! m = Some M -> mstatic M' = mstatic M ->
  same_static s (put_mon s m M').
Proof.
  intros HM HS. split; try done. intros k. simpl.
  destruct (decide (m = k)) as [->|Hne].
  - by rewrite lookup_insert_eq, HM; simpl; f_equal.
  - by rewrite lookup_insert_ne.
Qed.

Lemma same_arr_put_client s c C C' :
  cl s !! c = Some C -> cstatic C' = cstatic C ->
  same_arr s (put_client s c C').
Proof.
  intros HC HS. split; try done. intros k. simpl.
  destruct (decide (c = k)) as [->|Hne].
  - by rewrite lookup_insert_eq, HC; simpl; f_equal.
  - by rewrite lookup_insert_ne.
Qed.

Lemma same_arr_put_mon s m M M' :
  mn s !! m = Some M -> unsym M' = unsym M ->
  same_arr s (put_mon s m M').
Proof.
  intros HM HS. split; try done. intros k. simpl.
  destruct (decide (m = k)) as [->|Hne].
  - by rewrite lookup_insert_eq, HM; simpl; f_equal.
  - by rewrite lookup_insert_ne.
Qed.

Lemma same_static_set_selmon s m : same_static s (set_selmon s m).
Proof. by split. Qed.

Lemma same_static_set_isdesktop s v : same_static s (set_isdesktop s v).
Proof. by split. Qed.

Lemma resizeclient_arr s c x y w h s' :
  resizeclient cfg s c x y w h = Some s' -> same_arr s s'.
Proof.
  unfold resizeclient. intros H.
  apply bind_Some in H as (C & HC & H).
  repeat (apply bind_Some in H as (? & ? & H)). injection H as <-.
  eapply same_arr_trans.
  - by eapply (same_arr_put_client s c C (Client.set_geom C x y w h)).
  - eapply same_arr_put_client.
    + simpl. apply lookup_insert_eq.
    + by match goal with |- context [if ?b then _ else _] => destruct b end.
Qed.

Lemma resize_arr s c x y w h i s' :
  resize cfg s c x y w h i = Some s' -> same_arr s s'.
Proof.
  unfold resize. intros H.
  destruct (applysizehints cfg s c x y w h i) as [[[[[x' y'] w'] h'] ch]|]; [|done].
  simpl in H. destruct ch.
  - by eapply resizeclient_arr.
  - simplify_eq. apply same_arr_refl.
Qed.

Lemma animate_frames_arr k s c time frames oldx oldy x y w h s' :
  animate_frames cfg ease k s c time frames oldx oldy x y w h = Some s' ->
  same_arr s s'.
Proof.
  revert s time. induction k as [|k IH]; intros s time H; simpl in H.
  - simplify_eq. apply same_arr_refl.
  - destruct (resize cfg s c _ _ w h true) as [s1|] eqn:E; [|done]. simpl in H.
    eapply same_arr_trans; [by eapply resize_arr|by eapply IH].
Qed.

Lemma animateclient_arr fuel s c x y w h frames r s' :
  animateclient cfg ease fuel s c x y w h frames r = Some s' -> same_arr s s'.
Proof.
  revert s x y w h r s'. induction fuel as [|fuel IH]; intros s x y w h r s' H; [done|].
  simpl in H. destruct (cl s !! c) as [C|] eqn:HC; [|done]. simpl in H.
  match type of H with (?e ≫= _) = _ => destruct e as [s1|] eqn:E1; [|done] end.
  simpl in H.
  assert (same_arr s s1) as Hs1.
  { destruct (truthy (animated s) && _); [|by simplify_eq; apply same_arr_refl].
    match type of E1 with (?e ≫= _) = _ => destruct e as [still|] eqn:E2; [|done] end.
    simpl in E1. destruct still.
    - by eapply IH.
    - by eapply animate_frames_arr. }
  eapply same_arr_trans; [done|].
  destruct r; by eapply resize_arr.
Qed.

Lemma tile_loop_arr fuel M n mw fc l s i my ty s' :
  tile_loop cfg ease fuel s M n mw fc l i my ty = Some s' -> same_arr s s'.
Proof.
  revert s i my ty. induction l as [|c l IH]; intros s i my ty H; simpl in H.
  - simplify_eq. apply same_arr_refl.
  - apply bind_Some in H as (u & Hu & H). destruct u; [by eapply IH|].
    apply bind_Some in H as (C & HC & H).
    destruct (i <? _);
      apply bind_Some in H as (s1 & H1 & H);
      apply bind_Some in H as (C1 & HC1 & H);
      (eapply same_arr_trans; [by eapply animateclient_arr|by eapply IH]).
Qed.

Lemma tile_arr fuel s m s' :
  tile cfg ease clientcount fuel s m = Some s' -> same_arr s s'.
Proof.
  unfold tile. intros H.
  apply bind_Some in H as (M & HM & H). apply bind_Some in H as (n & Hn & H).
  destruct (n =? 0); [simplify_eq; apply same_arr_refl|].
  by eapply tile_loop_arr.
Qed.

Lemma monocle_loop_arr fuel M l s s' :
  monocle_loop cfg ease fuel s M l = Some s' -> same_arr s s'.
Proof.
  revert s. induction l as [|c l IH]; intros s H; simpl in H.
  - simplify_eq. apply same_arr_refl.
  - apply bind_Some in H as (u & Hu & H). destruct u; [by eapply IH|].
    apply bind_Some in H as (C & HC & H).
    apply bind_Some in H as (s1 & H1 & H).
    eapply same_arr_trans; [by eapply animateclient_arr|by eapply IH].
Qed.

Lemma monocle_arr fuel s m s' :
  monocle cfg ease fuel s m = Some s' -> same_arr s s'.
Proof.
  unfold monocle. intros H.
  apply bind_Some in H as (M & HM & H). apply bind_Some in H as (n & Hn & H).
  eapply same_arr_trans; [|by eapply monocle_loop_arr].
  destruct (0 <? n); [|apply same_arr_refl].
  by eapply same_arr_put_mon.
Qed.

Lemma bstack_loop_arr fuel M n mh tw ty l s i mx tx s' :
  bstack_loop cfg ease fuel s M n mh tw ty l i mx tx = Some s' -> same_arr s s'.
Proof.
  revert s i mx tx. induction l as [|c l IH]; intros s i mx tx H; simpl in H.
  - simplify_eq. apply same_arr_refl.
  - apply bind_Some in H as (u & Hu & H). destruct u; [by eapply IH|].
    apply bind_Some in H as (C & HC & H).
    destruct (i <? _);
      apply bind_Some in H as (s1 & H1 & H);
      apply bind_Some in H as (C1 & HC1 & H);
      (eapply same_arr_trans; [by eapply animateclient_arr|by eapply IH]).
Qed.

Lemma bstack_arr fuel s m s' :
  bstack cfg ease fuel s m = Some s' -> same_arr s s'.
Proof.
  unfold bstack. intros H.
  apply bind_Some in H as (M & HM & H). apply bind_Some in H as (n & Hn & H).
  destruct (n =? 0); [simplify_eq; apply same_arr_refl|].
  destruct (u32 (Monitor.nmaster M) <? n); by eapply bstack_loop_arr.
Qed.

Lemma bstackhoriz_loop_arr fuel M n mh th tx l s i mx ty s' :
  bstackhoriz_loop cfg ease fuel s M n mh th tx l i mx ty = Some s' -> same_arr s s'.
Proof.
  revert s i mx ty. induction l as [|c l IH]; intros s i mx ty H; simpl in H.
  - simplify_eq. apply same_arr_refl.
  - apply bind_Some in H as (u & Hu & H). destruct u; [by eapply IH|].
    apply bind_Some in H as (C & HC & H).
    destruct (i <? _);
      apply bind_Some in H as (s1 & H1 & H);
      apply bind_Some in H as (C1 & HC1 & H);
      (eapply same_arr_trans; [by eapply animateclient_arr|by eapply IH]).
Qed.

Lemma bstackhoriz_arr fuel s m s' :
  bstackhoriz cfg ease fuel s m = Some s' -> same_arr s s'.
Proof.
  unfold bstackhoriz. intros H.
  apply bind_Some in H as (M & HM & H). apply bind_Some in H as (n & Hn & H).
  destruct (n =? 0); [simplify_eq; apply same_arr_refl|].
  destruct (u32 (Monitor.nmaster M) <? n); by eapply bstackhoriz_loop_arr.
Qed.

Lemma arrangemon_arr fuel s m s' :
  arrangemon cfg ease clientcount fuel s m = Some s' -> same_arr s s'.
Proof.
  unfold arrangemon. intros H.
  apply bind_Some in H as (M & HM & H). apply bind_Some in H as (L & HL & H).
  eapply same_arr_trans
    with (s2 := put_mon s m (Monitor.set_ltsymbol M (strncpy16 (symbol L))));
    [by eapply same_arr_put_mon|].
  destruct (arrange_of L) as [[]|]; unfold run_layout in H.
  - by eapply tile_arr.
  - by eapply monocle_arr.
  - by eapply bstack_arr.
  - by eapply bstackhoriz_arr.
  - simplify_eq. apply same_arr_refl.
Qed.

Lemma showhide_arr l s s' :
  showhide cfg s l = Some s' -> same_arr s s'.
Proof.
  revert s. induction l as [|c l IH]; intros s H; simpl in H.
  - simplify_eq. apply same_arr_refl.
  - apply bind_Some in H as (v & Hv & H). destruct v; [|by eapply IH].
    apply bind_Some in H as (C & HC & H). apply bind_Some in H as (M & HM & H).
    apply bind_Some in H as (L & HL & H). apply bind_Some in H as (s1 & H1 & H).
    eapply same_arr_trans; [|by eapply IH].
    destruct (_ || _); [by eapply resize_arr|simplify_eq; apply same_arr_refl].
Qed.

Lemma showhide_all_arr l s s' :
  showhide_all cfg s l = Some s' -> same_arr s s'.
Proof.
  revert s. induction l as [|m l IH]; intros s H; simpl in H.
  - simplify_eq. apply same_arr_refl.
  - apply bind_Some in H as (M & HM & H). apply bind_Some in H as (s1 & H1 & H).
    eapply same_arr_trans; [by eapply showhide_arr|by eapply IH].
Qed.

Lemma arrangemon_all_arr fuel l s s' :
  arrangemon_all cfg ease clientcount fuel s l = Some s' -> same_arr s s'.
Proof.
  revert s. induction l as [|m l IH]; intros s H; simpl in H.
  - simplify_eq. apply same_arr_refl.
  - apply bind_Some in H as (s1 & H1 & H).
    eapply same_arr_trans; [by eapply arrangemon_arr|by eapply IH].
Qed.

Lemma arrange_arr fuel s m s' :
  arrange cfg ease clientcount fuel s m = Some s' -> same_arr s s'.
Proof.
  unfold arrange. intros H. destruct m as [m|].
  - apply bind_Some in H as (M & HM & H). apply bind_Some in H as (s1 & H1 & H).
    eapply same_arr_trans; [by eapply showhide_arr|by eapply arrangemon_arr].
  - apply bind_Some in H as (s1 & H1 & H).
    eapply same_arr_trans; [by eapply showhide_all_arr|by eapply arrangemon_all_arr].
Qed.

Lemma arrange_static fuel s m s' :
  arrange cfg ease clientcount fuel s m = Some s' -> same_static s s'.
Proof. intros H. by eapply same_arr_static, arrange_arr. Qed.

Lemma seturgent_static s c v s' :
  seturgent s c v = Some s' -> same_static s s'.
Proof.
  unfold seturgent. intros H. apply bind_Some in H as (C & HC & H).
  simplify_eq. by eapply same_static_put_client.
Qed.

Lemma attachstack_static s c s' :
  attachstack s c = Some s' -> same_static s s'.
Proof.
  unfold attachstack. intros H. apply bind_Some in H as (C & HC & H).
  apply bind_Some in H as (M & HM & H). simplify_eq.
  by eapply same_static_put_mon.
Qed.

Lemma detachstack_static s c s' :
  detachstack s c = Some s' -> same_static s s'.
Proof.
  unfold detachstack. intros H. apply bind_Some in H as (C & HC & H).
  apply bind_Some in H as (M & HM & H). apply bind_Some in H as (l & Hl & H).
  assert (same_static s (put_mon s (Client.mon C) (Monitor.set_stack M l))) as H1
    by by eapply same_static_put_mon.
  destruct (decide _); [|by simplify_eq].
  apply bind_Some in H as (t & Ht & H). simplify_eq.
  eapply same_static_trans; [done|].
  eapply same_static_put_mon; [apply lookup_insert_eq|done].
Qed.

Lemma focus_static s c s' :
  focus s c = Some s' -> same_static s s'.
Proof.
  unfold focus. intros H.
  apply bind_Some in H as (u & Hu & H). apply bind_Some in H as (c' & Hc' & H).
  apply bind_Some in H as (s1 & H1 & H). apply bind_Some in H as (SM & HSM & H).
  injection H as <-.
  assert (same_static s s1) as Hs1.
  { destruct c' as [k|]; [|by simplify_eq; apply same_static_refl].
    apply bind_Some in H1 as (C & HC & H1). apply bind_Some in H1 as (s2 & H2 & H1).
    apply bind_Some in H1 as (s3 & H3 & H1).
    eapply same_static_trans; [|by eapply attachstack_static].
    eapply same_static_trans; [|by eapply detachstack_static].
    eapply same_static_trans with (s2 := if decide (Client.mon C = selmon s) then s
                                         else set_selmon s (Client.mon C)).
    - destruct (decide _); [apply same_static_refl|apply same_static_set_selmon].
    - destruct (truthy _); [by eapply seturgent_static|simplify_eq; apply same_static_refl]. }
  eapply same_static_trans; [done|].
  match goal with
  | |- same_static _ (match _ with
                      | Some _ => if _ then set_isdesktop ?a _ else _
                      | None => _ end) =>
      eapply same_static_trans with (s2 := a)
  end.
  - eapply same_static_put_mon; [done|]. by destruct (_ && _).
  - destruct c'; destruct (truthy (isdesktop _));
      apply same_static_refl || apply same_static_set_isdesktop.
Qed.

End Frames.

(** ** Tag/view state *)

Section ViewFacts.
Context (cfg : Config).
Variable ease : Z -> Z -> Z -> Z -> Z.
Variable clientcount : State -> Z.
Implicit Types s : State.
Implicit Types C : Client.t.
Implicit Types M : Monitor.t.

Lemma land_bit (a i : Z) :
  0 <= i -> (Z.land a (Z.shiftl 1 i) =? 0) = negb (Z.testbit a i).
Proof.
  intros Hi. rewrite Z.shiftl_1_l.
  destruct (Z.testbit a i) eqn:E; simpl.
  - apply Z.eqb_neq. intros H.
    apply (f_equal (fun z => Z.testbit z i)) in H.
    rewrite Z.land_spec, E, Z.pow2_bits_eqb, Z.eqb_refl, Z.bits_0 in H by lia.
    done.
  - apply Z.eqb_eq. apply Z.bits_inj'. intros n Hn.
    rewrite Z.land_spec, Z.bits_0, Z.pow2_bits_eqb by lia.
    destruct (i =? n) eqn:En; zbool; [subst; by rewrite E|apply andb_false_r].
Qed.

(** The loop of [view] finds the lowest set bit. *)
Lemma lowest_bit_spec k i0 ui i :
  0 <= i0 -> lowest_bit k i0 ui = Some i ->
  i0 <= i < i0 + Z.of_nat k /\ Z.testbit ui i = true
  /\ forall j, i0 <= j < i -> Z.testbit ui j = false.
Proof.
  revert i0. induction k as [|k IH]; intros i0 Hi0 H; [done|].
  simpl in H. rewrite land_bit in H by done.
  destruct (Z.testbit ui i0) eqn:E; simpl in H.
  - simplify_eq. split; [lia|]. split; [done|]. intros j Hj. lia.
  - apply IH in H as (H1 & H2 & H3); [|lia].
    split; [lia|]. split; [done|]. intros j Hj.
    destruct (decide (j = i0)) as [->|]; [done|]. apply H3. lia.
Qed.

Lemma lowest_bit_total k i0 ui j :
  0 <= i0 -> i0 <= j < i0 + Z.of_nat k -> Z.testbit ui j = true ->
  is_Some (lowest_bit k i0 ui).
Proof.
  revert i0. induction k as [|k IH]; intros i0 Hi0 Hj Hb; [lia|].
  simpl. rewrite land_bit by done.
  destruct (Z.testbit ui i0) eqn:E; simpl; [eauto|].
  apply IH; [lia| |done].
  destruct (decide (j = i0)) as [->|]; [congruence|lia].
Qed.

Lemma aget_aset {A} (l l' : list A) i j v :
  aset l i v = Some l' ->
  aget l' j = if decide (i = j) then Some v else aget l j.
Proof.
  unfold aset, aget. intros H.
  destruct ((0 <=? i) && (i <? Z.of_nat (length l))) eqn:E; [|done].
  apply andb_prop in E as [E1 E2]. zbool. simplify_eq.
  destruct (decide (i = j)) as [->|Hne].
  - destruct (j <? 0) eqn:E; zbool; [lia|].
    apply list_lookup_insert_eq. lia.
  - destruct (j <? 0) eqn:E; zbool; [done|].
    apply list_lookup_insert_ne. lia.
Qed.

Lemma upd2_idx2_other {A} (p p' : A * A) i v :
  upd2 p i v = Some p' -> idx2 p' (Z.lxor i 1) = idx2 p (Z.lxor i 1).
Proof.
  unfold upd2, idx2. intros H.
  destruct (i =? 0) eqn:E0; zbool; [subst; by simplify_eq|].
  destruct (i =? 1) eqn:E1; zbool; [subst; by simplify_eq|done].
Qed.

Lemma upd2_both {A} (p p1 p2 q : A * A) i a b :
  idx2 q i = Some a -> upd2 p i a = Some p1 ->
  idx2 q (Z.lxor i 1) = Some b -> upd2 p1 (Z.lxor i 1) b = Some p2 ->
  p2 = q /\ (i = 0 \/ i = 1).
Proof.
  unfold upd2, idx2. intros H1 H2 H3 H4. destruct q as [q1 q2].
  destruct (i =? 0) eqn:E0; zbool; [subst; simpl in *; simplify_eq; auto|].
  destruct (i =? 1) eqn:E1; zbool; [subst; simpl in *; simplify_eq; auto|done].
Qed.

Lemma togglebar_spec fuel s s' SM :
  togglebar cfg ease clientcount fuel s = Some s' ->
  mn s !! selmon s = Some SM ->
  exists sb M',
    aset (Pertag.showbars (Monitor.pertag SM)) (Pertag.curtag (Monitor.pertag SM))
         (lnot (Monitor.showbar SM)) = Some sb
    /\ mn s' !! selmon s = Some M'
    /\ unsym M' = unsym (updatebarpos s
                           (Monitor.set_showbar SM (lnot (Monitor.showbar SM))
                              (Pertag.set_showbars (Monitor.pertag SM) sb)))
    /\ same_arr (put_mon s (selmon s)
                   (updatebarpos s
                      (Monitor.set_showbar SM (lnot (Monitor.showbar SM))
                         (Pertag.set_showbars (Monitor.pertag SM) sb)))) s'.
Proof.
  unfold togglebar. intros H HSM. rewrite HSM in H. simpl in H.
  apply bind_Some in H as (sb & Hsb & H).
  apply arrange_arr in H.
  destruct (same_arr_mn _ _ (selmon s) _ H (lookup_insert_eq _ _ _)) as (M' & HM' & HU).
  eauto 10.
Qed.

Lemma view_post_mstatic ui SM M M' :
  mstatic M' = mstatic M -> view_post cfg ui SM M -> view_post cfg ui SM M'.
Proof.
  intros H. destruct (mstatic_fields _ _ H) as (E1&E2&E3&E4&_&E5&E6&E7&E8&_).
  unfold view_post. by rewrite E1, E2, E3, E4, E5, E6, E7, E8.
Qed.

End ViewFacts.

(** ** Client registry and focus *)

Section FocusFacts.
Implicit Types s : State.
Implicit Types C : Client.t.
Implicit Types M : Monitor.t.

Lemma put_mon_put_mon s m M1 M2 :
  put_mon (put_mon s m M1) m M2 = put_mon s m M2.
Proof. unfold put_mon, set_mn. simpl. by rewrite insert_insert_eq. Qed.

Lemma set_sel_same M : Monitor.set_sel M (Monitor.sel M) = M.
Proof. by destruct M. Qed.

Lemma unlink_elem c (l l' : list cid) :
  unlink c l = Some l' -> c ∈ l /\ forall k, k ∈ l' -> k ∈ l.
Proof.
  revert l'. induction l as [|a l IH]; intros l' H; simpl in H; [done|].
  destruct (decide (a = c)) as [->|Hne].
  - simplify_eq. split; [left|]. intros k Hk. by right.
  - apply bind_Some in H as (r & Hr & H). simplify_eq.
    destruct (IH _ Hr) as [H1 H2]. split; [by right|].
    intros k Hk. apply elem_of_cons in Hk as [->|Hk]; [left|right; auto].
Qed.

Lemma unlink_total c (l : list cid) : c ∈ l -> is_Some (unlink c l).
Proof.
  induction l as [|a l IH]; intros H; [by apply elem_of_nil in H|].
  simpl. destruct (decide (a = c)); [eauto|].
  apply elem_of_cons in H as [->|H]; [done|].
  destruct (IH H) as [r ->]. simpl. eauto.
Qed.

Lemma seturgent_inv s c v s' :
  seturgent s c v = Some s' ->
  exists C, cl s !! c = Some C /\ s' = put_client s c (Client.set_isurgent C v).
Proof.
  unfold seturgent. intros H. apply bind_Some in H as (C & HC & H).
  simplify_eq. eauto.
Qed.

Lemma attachstack_inv s c s' :
  attachstack s c = Some s' ->
  exists C M, cl s !! c = Some C /\ mn s !! Client.mon C = Some M
    /\ s' = put_mon s (Client.mon C) (Monitor.set_stack M (c :: Monitor.stack M)).
Proof.
  unfold attachstack. intros H. apply bind_Some in H as (C & HC & H).
  apply bind_Some in H as (M & HM & H). simplify_eq. eauto.
Qed.

(** [detachstack] unlinks the client and, when it was the focused client
    of its monitor, moves the focus to the first client of the remaining
    stack that [ISVISIBLE] accepts. *)
Lemma detachstack_inv s c s' :
  detachstack s c = Some s' ->
  exists C M l nsel,
    cl s !! c = Some C /\ mn s !! Client.mon C = Some M
    /\ unlink c (Monitor.stack M) = Some l
    /\ (if decide (Monitor.sel M = Some c)
        then first_visible (put_mon s (Client.mon C) (Monitor.set_stack M l)) l
             = Some nsel
        else nsel = Monitor.sel M)
    /\ s' = put_mon s (Client.mon C) (Monitor.set_sel (Monitor.set_stack M l) nsel).
Proof.
  unfold detachstack. intros H. apply bind_Some in H as (C & HC & H).
  apply bind_Some in H as (M & HM & H). apply bind_Some in H as (l & Hl & H).
  exists C, M, l. cbn [Monitor.sel Monitor.set_stack Monitor.stack] in H.
  destruct (decide (Monitor.sel M = Some c)) as [Hsel|Hsel].
  - apply bind_Some in H as (t & Ht & H). simplify_eq.
    exists t. rewrite put_mon_put_mon. done.
  - simplify_eq. by exists (Monitor.sel M).
Qed.

Lemma first_focusable_spec s l k :
  first_focusable s l = Some (Some k) ->
  k ∈ l /\ ISVISIBLE s k = Some true /\ HIDDEN s k = Some false.
Proof.
  induction l as [|c l IH]; intros H; simpl in H; [done|].
  apply bind_Some in H as (v & Hv & H). destruct v.
  - apply bind_Some in H as (hd & Hhd & H). destruct hd.
    + destruct (IH H) as (?&?&?). split; [by right|done].
    + simplify_eq. split; [left|done].
  - destruct (IH H) as (?&?&?). split; [by right|done].
Qed.

Lemma unfocusable_false s c :
  unfocusable s c = Some false ->
  exists k, c = Some k /\ ISVISIBLE s k = Some true /\ HIDDEN s k = Some false.
Proof.
  unfold unfocusable. destruct c as [k|]; [|done]. intros H.
  apply bind_Some in H as (v & Hv & H). destruct v; [|done]. eauto.
Qed.

Lemma focus_candidate_spec s c k :
  focus_candidate s c = Some (Some k) ->
  ISVISIBLE s k = Some true /\ HIDDEN s k = Some false
  /\ (c = Some k
      \/ exists SM, mn s !! selmon s = Some SM /\ k ∈ Monitor.stack SM).
Proof.
  unfold focus_candidate. intros H. apply bind_Some in H as (u & Hu & H).
  destruct u.
  - apply bind_Some in H as (SM & HSM & H).
    apply first_focusable_spec in H as (?&?&?). eauto 10.
  - simplify_eq. apply unfocusable_false in Hu as (k' & ? & ? & ?).
    simplify_eq. auto.
Qed.

(** What [focus] does: the selected monitor becomes the monitor of the
    candidate, the candidate moves to the head of its stack list and
    becomes the focused client. *)
Lemma focus_spec s c s' :
  focus s c = Some s' ->
  exists c' SM',
    focus_candidate s c = Some c'
    /\ mn s' !! selmon s' = Some SM'
    /\ Monitor.sel SM' = c'
    /\ match c' with
       | None => selmon s' = selmon s
       | Some k => exists C l, cl s !! k = Some C /\ selmon s' = Client.mon C
                               /\ Monitor.stack SM' = k :: l
       end.
Proof.
  unfold focus. intros H.
  apply bind_Some in H as (u & Hu & H). apply bind_Some in H as (c' & Hc' & H).
  apply bind_Some in H as (s1 & H1 & H). apply bind_Some in H as (SM & HSM & H).
  injection H as <-.
  exists c'.
  assert (Hcand : focus_candidate s c = Some c').
  { unfold focus_candidate. rewrite Hu. done. }
  set (SM2 := if _ && _ then _ else _).
  assert (HSM2 : Monitor.sel SM2 = c' /\ Monitor.stack SM2 = Monitor.stack SM).
  { unfold SM2. by destruct (_ && _). }
  exists SM2. split; [done|].
  assert (Hlk : forall t, selmon t = selmon s1 ->
                          mn t = <[selmon s1 := SM2]> (mn s1) ->
                          mn t !! selmon t = Some SM2).
  { intros t -> ->. apply lookup_insert_eq. }
  destruct c' as [k|].
  - apply bind_Some in H1 as (C & HC & H1). apply bind_Some in H1 as (s2 & H2 & H1).
    apply bind_Some in H1 as (s3 & H3 & H1).
    set (s0 := if decide (Client.mon C = selmon s) then s
               else set_selmon s (Client.mon C)) in *.
    assert (Hs0 : cl s0 = cl s /\ mn s0 = mn s /\ selmon s0 = Client.mon C).
    { unfold s0. by destruct (decide _). }
    clearbody s0. destruct Hs0 as (Hcl0 & Hmn0 & Hsel0).
    assert (Hs2 : exists C2, cl s2 !! k = Some C2 /\ Client.mon C2 = Client.mon C
                  /\ mn s2 = mn s /\ selmon s2 = Client.mon C).
    { destruct (truthy (Client.isurgent C)).
      - apply seturgent_inv in H2 as (C2 & HC2 & ->).
        rewrite Hcl0, HC in HC2. simplify_eq.
        exists (Client.set_isurgent C2 0). simpl. by rewrite lookup_insert_eq.
      - simplify_eq. exists C. by rewrite Hcl0. }
    destruct Hs2 as (C2 & HC2 & Hmon2 & Hmn2 & Hsel2).
    apply detachstack_inv in H3 as (Cd & Md & ld & nsel & HCd & HMd & _ & _ & ->).
    rewrite HC2 in HCd. simplify_eq.
    apply attachstack_inv in H1 as (C3 & M3 & HC3 & HM3 & ->).
    simpl in HC3. rewrite HC2 in HC3. simplify_eq.
    simpl in HSM. rewrite Hsel2, Hmon2, lookup_insert_eq in HSM. simplify_eq.
    split; [apply Hlk; destruct (truthy (isdesktop _)); reflexivity|].
    split; [apply HSM2|].
    exists C, (Monitor.stack M3). split; [done|]. split.
    + destruct (truthy (isdesktop _)); simpl; by rewrite Hsel2.
    + apply HSM2.
  - simplify_eq. split; [apply Hlk; destruct (truthy (isdesktop _)); reflexivity|].
    split; [apply HSM2|]. by destruct (truthy (isdesktop _)).
Qed.

(** *** Well-formed states *)

Lemma idx2_total {A} (p : A * A) i : i = 0 \/ i = 1 -> is_Some (idx2 p i).
Proof. intros [->| ->]; by eexists. Qed.

Lemma wf_ISVISIBLE s m M t :
  wf s -> mn s !! m = Some M -> t ∈ Monitor.stack M -> is_Some (ISVISIBLE s t).
Proof.
  intros Hwf HM Ht. destruct (wf_stack _ Hwf _ _ _ HM Ht) as (T & HT & Hmon).
  unfold ISVISIBLE. rewrite HT. simpl. rewrite Hmon, HM. simpl.
  destruct (idx2_total (Monitor.tagset M) _ (wf_seltags _ Hwf _ _ HM)) as [ts ->].
  simpl. eauto.
Qed.

Lemma ISVISIBLE_HIDDEN s t : is_Some (ISVISIBLE s t) -> is_Some (HIDDEN s t).
Proof.
  unfold ISVISIBLE, HIDDEN. intros [b H]. apply bind_Some in H as (T & -> & _).
  simpl. eauto.
Qed.

Lemma first_visible_total s (l : list cid) :
  (forall t, t ∈ l -> is_Some (ISVISIBLE s t)) -> is_Some (first_visible s l).
Proof.
  induction l as [|t l IH]; intros H; simpl; [eauto|].
  destruct (H t) as [v ->]; [left|]. simpl.
  destruct v; [eauto|]. apply IH. intros t' Ht'. apply H. by right.
Qed.

Lemma first_focusable_total s (l : list cid) :
  (forall t, t ∈ l -> is_Some (ISVISIBLE s t)) -> is_Some (first_focusable s l).
Proof.
  induction l as [|t l IH]; intros H; simpl; [eauto|].
  assert (IH' : is_Some (first_focusable s l)).
  { apply IH. intros t' Ht'. apply H. by right. }
  destruct (H t) as [v Hv]; [left|]. rewrite Hv. simpl.
  destruct (ISVISIBLE_HIDDEN s t) as [hd ->]; [eauto|]. simpl.
  destruct v, hd; eauto.
Qed.

Lemma detachstack_total s c C M :
  cl s !! c = Some C -> mn s !! Client.mon C = Some M ->
  c ∈ Monitor.stack M ->
  (forall t, t ∈ Monitor.stack M -> is_Some (ISVISIBLE s t)) ->
  is_Some (detachstack s c).
Proof.
  intros HC HM Hc Hvis. unfold detachstack. rewrite HC. simpl. rewrite HM. simpl.
  destruct (unlink_total _ _ Hc) as [l Hl]. rewrite Hl. simpl.
  destruct (decide _); [|eauto].
  destruct (first_visible_total
              (put_mon s (Client.mon C) (Monitor.set_stack M l)) l) as [t Ht].
  { intros t Ht.
    rewrite (ISVISIBLE_static s _ t); [|by eapply same_static_put_mon].
    apply Hvis. by apply (unlink_elem _ _ _ Hl). }
  cbn [Monitor.stack Monitor.set_stack]. rewrite Ht. simpl. eauto.
Qed.

Lemma focus_total s c :
  wf s -> (forall k, c = Some k -> managed s k) -> is_Some (focus s c).
Proof.
  intros Hwf Hc. destruct (wf_selmon _ Hwf) as [SM HSM].
  assert (Hu : is_Some (unfocusable s c)).
  { destruct c as [k|]; [|by eexists]. destruct (Hc k eq_refl) as (C & M & HC & HM & Hk).
    unfold unfocusable.
    destruct (wf_ISVISIBLE _ _ _ _ Hwf HM Hk) as [v Hv]. rewrite Hv. simpl.
    destruct v; [|eauto]. apply ISVISIBLE_HIDDEN. eauto. }
  destruct Hu as [u Hu].
  assert (Hcand : exists c', focus_candidate s c = Some c'
                             /\ forall k, c' = Some k -> managed s k).
  { unfold focus_candidate. rewrite Hu. simpl. destruct u.
    - rewrite HSM. simpl.
      destruct (first_focusable_total s (Monitor.stack SM)) as [c' Hc'].
      { intros t Ht. by eapply wf_ISVISIBLE. }
      exists c'. split; [done|]. intros k ->.
      apply first_focusable_spec in Hc' as (Hk & _ & _).
      destruct (wf_stack _ Hwf _ _ _ HSM Hk) as (T & HT & Hmon).
      exists T, SM. by rewrite Hmon.
    - eauto. }
  destruct Hcand as (c' & Hc' & Hman).
  unfold focus_candidate in Hc'. rewrite Hu in Hc'. simpl in Hc'.
  unfold focus. rewrite Hu. simpl. rewrite Hc'. simpl.
  destruct c' as [k|]; [|by simpl; rewrite HSM; simpl; eauto].
  destruct (Hman k eq_refl) as (C & M & HC & HM & Hk). rewrite HC. simpl.
  set (s0 := if decide (Client.mon C = selmon s) then s
             else set_selmon s (Client.mon C)).
  assert (Hs0 : same_static s s0 /\ selmon s0 = Client.mon C
                /\ cl s0 = cl s /\ mn s0 = mn s).
  { unfold s0. destruct (decide _); [|by split; [apply same_static_set_selmon|]].
    by split; [apply same_static_refl|]. }
  clearbody s0. destruct Hs0 as (Hss0 & Hsel0 & Hcl0 & Hmn0).
  assert (H2 : exists s2 C2, (if truthy (Client.isurgent C) then seturgent s0 k 0
                              else Some s0) = Some s2
                 /\ same_static s s2 /\ selmon s2 = Client.mon C
                 /\ cl s2 !! k = Some C2 /\ Client.mon C2 = Client.mon C
                 /\ mn s2 = mn s).
  { destruct (truthy _).
    - unfold seturgent. rewrite Hcl0, HC. simpl.
      exists (put_client s0 k (Client.set_isurgent C 0)), (Client.set_isurgent C 0).
      split; [done|]. split.
      { eapply same_static_trans; [done|].
        eapply same_static_put_client; [by rewrite Hcl0|done]. }
      simpl. by rewrite lookup_insert_eq.
    - exists s0, C. by rewrite Hcl0. }
  destruct H2 as (s2 & C2 & -> & Hss2 & Hsel2 & HC2 & Hmon2 & Hmn2). simpl.
  destruct (detachstack_total s2 k C2 M) as [s3 H3]; try done.
  { by rewrite Hmon2, Hmn2. }
  { intros t Ht. rewrite (ISVISIBLE_static s s2 t) by done.
    by eapply wf_ISVISIBLE. }
  rewrite H3. simpl.
  pose proof H3 as H3'.
  apply detachstack_inv in H3' as (Cd & Md & ld & nsel & HCd & HMd & _ & _ & ->).
  rewrite HC2 in HCd. simplify_eq.
  unfold attachstack. simpl. rewrite HC2. simpl. rewrite lookup_insert_eq. simpl.
  rewrite Hsel2, Hmon2, lookup_insert_eq. simpl. eauto.
Qed.

(** C8. After a call to [focus] returns, the focused-client pointer of the
    selected monitor is null or points to a client on the stack list of
    that monitor that is visible and not hidden; and on a well-formed
    state the call does return. *)
Theorem focus_invariant s c :
  (forall s', focus s c = Some s' ->
     exists SM', mn s' !! selmon s' = Some SM'
       /\ match Monitor.sel SM' with
          | None => True
          | Some k => k ∈ Monitor.stack SM'
                      /\ ISVISIBLE s' k = Some true /\ HIDDEN s' k = Some false
          end)
  /\ (wf s -> (forall k, c = Some k -> managed s k) -> is_Some (focus s c)).
Proof.
  split; [|apply focus_total].
  intros s' H. pose proof (focus_static _ _ _ H) as Hss.
  apply focus_spec in H as (c' & SM' & Hcand & HSM' & Hsel & Hc').
  exists SM'. split; [done|]. rewrite Hsel. destruct c' as [k|]; [|done].
  destruct Hc' as (C & l & _ & _ & Hst).
  apply focus_candidate_spec in Hcand as (Hv & Hh & _).
  rewrite Hst, (ISVISIBLE_static s s' k Hss), (HIDDEN_static s s' k Hss).
  split; [left|done].
Qed.

(** C10. Focusing a client that is visible and not hidden and is owned by
    another monitor than the selected one makes that monitor the selected
    monitor, and the client its focused client. *)
Theorem focus_switches_selmon s c C M :
  cl s !! c = Some C ->
  mn s !! Client.mon C = Some M ->
  c ∈ Monitor.stack M ->
  (forall t, t ∈ Monitor.stack M -> is_Some (ISVISIBLE s t)) ->
  ISVISIBLE s c = Some true ->
  HIDDEN s c = Some false ->
  Client.mon C <> selmon s ->
  exists s' SM',
    focus s (Some c) = Some s'
    /\ selmon s' = Client.mon C
    /\ mn s' !! Client.mon C = Some SM'
    /\ Monitor.sel SM' = Some c.
Proof.
  intros HC HM Hc Hvis Hv Hh Hne.
  assert (Hret : is_Some (focus s (Some c))).
  { unfold focus, unfocusable. rewrite Hv. simpl. rewrite Hh. simpl.
    rewrite HC. simpl. destruct (decide _) as [|_]; [done|].
    set (s0 := set_selmon s (Client.mon C)).
    assert (H2 : exists s2 C2, (if truthy (Client.isurgent C) then seturgent s0 c 0
                                else Some s0) = Some s2
                   /\ same_static s s2 /\ selmon s2 = Client.mon C
                   /\ cl s2 !! c = Some C2 /\ Client.mon C2 = Client.mon C
                   /\ mn s2 = mn s).
    { destruct (truthy _).
      - unfold seturgent. simpl. rewrite HC. simpl.
        exists (put_client s0 c (Client.set_isurgent C 0)), (Client.set_isurgent C 0).
        split; [done|]. split.
        { eapply same_static_trans; [apply (same_static_set_selmon s (Client.mon C))|].
          by eapply same_static_put_client. }
        simpl. by rewrite lookup_insert_eq.
      - exists s0, C. split; [done|]. split; [apply same_static_set_selmon|done]. }
    destruct H2 as (s2 & C2 & -> & Hss2 & Hsel2 & HC2 & Hmon2 & Hmn2). simpl.
    destruct (detachstack_total s2 c C2 M) as [s3 H3]; try done.
    { by rewrite Hmon2, Hmn2. }
    { intros t Ht. rewrite (ISVISIBLE_static s s2 t) by done. auto. }
    rewrite H3. simpl.
    pose proof H3 as H3'.
    apply detachstack_inv in H3' as (Cd & Md & ld & nsel & HCd & HMd & _ & _ & ->).
    rewrite HC2 in HCd. simplify_eq.
    unfold attachstack. simpl. rewrite HC2. simpl. rewrite lookup_insert_eq. simpl.
    rewrite Hsel2, Hmon2, lookup_insert_eq. simpl. eauto. }
  destruct Hret as [s' Hs']. exists s'.
  pose proof Hs' as H.
  apply focus_spec in H as (c' & SM' & Hcand & HSM' & Hsel & Hc').
  assert (c' = Some c) as ->.
  { unfold focus_candidate, unfocusable in Hcand. rewrite Hv in Hcand. simpl in Hcand.
    rewrite Hh in Hcand. simpl in Hcand. by simplify_eq. }
  destruct Hc' as (C' & l & HC' & Hsm & _). simplify_eq.
  exists SM'. by rewrite <- Hsm.
Qed.

End FocusFacts.

Section ViewTheorems.
Context (cfg : Config).
Variable ease : Z -> Z -> Z -> Z -> Z.
Variable clientcount : State -> Z.
Implicit Types s : State.
Implicit Types C : Client.t.
Implicit Types M : Monitor.t.

(** [view] writes a monitor value [X] into the selected monitor, then
    arranges it when the bar changes, focuses and arranges. *)
Lemma view_inv fuel s ui s' :
  view cfg ease clientcount fuel s ui = Some s' ->
  exists SM X s2 s3,
    mn s !! selmon s = Some SM
    /\ view_post cfg ui SM X
    /\ Monitor.stack X = Monitor.stack SM
    /\ Monitor.clients X = Monitor.clients SM
    /\ same_arr (put_mon s (selmon s) X) s2
    /\ focus s2 None = Some s3
    /\ arrange cfg ease clientcount fuel s3 (Some (selmon s3)) = Some s'.
Proof.
  unfold view. intros H.
  apply bind_Some in H as (SM & HSM & H).
  apply bind_Some in H as ([ts P1] & Hbr & H).
  apply bind_Some in H as (nm & Hnm & H). apply bind_Some in H as (mf & Hmf & H).
  apply bind_Some in H as (sl & Hsl & H). apply bind_Some in H as (lts & Hlts & H).
  apply bind_Some in H as (a & Ha & H). apply bind_Some in H as (lt1 & Hlt1 & H).
  apply bind_Some in H as (b & Hb & H). apply bind_Some in H as (lt2 & Hlt2 & H).
  apply bind_Some in H as (sb & Hsb & H). apply bind_Some in H as (s2 & Hs2 & H).
  apply bind_Some in H as (s3 & Hs3 & H).
  destruct (upd2_both _ _ _ _ _ _ _ Ha Hlt1 Hb Hlt2) as [-> Hsl01].
  set (SM1 := Monitor.set_live
                (Monitor.set_view SM (Z.lxor (Monitor.seltags SM) 1) ts P1)
                nm mf sl lts) in *.
  (* the branch on the mask *)
  assert (HP1 : Pertag.prevtag P1 = Pertag.curtag (Monitor.pertag SM)
                /\ Pertag.nmasters P1 = Pertag.nmasters (Monitor.pertag SM)
                /\ Pertag.mfacts P1 = Pertag.mfacts (Monitor.pertag SM)
                /\ Pertag.sellts P1 = Pertag.sellts (Monitor.pertag SM)
                /\ Pertag.ltidxs P1 = Pertag.ltidxs (Monitor.pertag SM)
                /\ Pertag.showbars P1 = Pertag.showbars (Monitor.pertag SM)
                /\ (if Z.land ui (TAGMASK cfg) =? 0
                    then ts = Monitor.tagset SM
                         /\ Pertag.curtag P1 = Pertag.prevtag (Monitor.pertag SM)
                    else upd2 (Monitor.tagset SM) (Z.lxor (Monitor.seltags SM) 1)
                              (Z.land ui (TAGMASK cfg)) = Some ts
                         /\ (if ui =? 2 ^ 32 - 1 then Pertag.curtag P1 = 0
                             else exists i, lowest_bit 32 0 ui = Some i
                                            /\ Pertag.curtag P1 = i + 1))).
  { destruct (Z.land ui (TAGMASK cfg) =? 0); simpl in Hbr.
    - by simplify_eq.
    - apply bind_Some in Hbr as (ts' & Hts & Hbr).
      apply bind_Some in Hbr as (cur & Hcur & Hbr). simplify_eq. simpl.
      repeat split; try done.
      destruct (ui =? 2 ^ 32 - 1); [by simplify_eq|].
      apply bind_Some in Hcur as (i & Hi & Hcur). simplify_eq. eauto. }
  destruct HP1 as (HP1a & HP1b & HP1c & HP1d & HP1e & HP1f & HP1g).
  assert (Hpost1 : forall X,
    Monitor.seltags X = Monitor.seltags SM1 -> Monitor.tagset X = Monitor.tagset SM1 ->
    Monitor.nmaster X = nm -> Monitor.mfact X = mf -> Monitor.sellt X = sl ->
    Monitor.lt X = lts ->
    Pertag.curtag (Monitor.pertag X) = Pertag.curtag P1 ->
    Pertag.prevtag (Monitor.pertag X) = Pertag.prevtag P1 ->
    Pertag.nmasters (Monitor.pertag X) = Pertag.nmasters P1 ->
    Pertag.mfacts (Monitor.pertag X) = Pertag.mfacts P1 ->
    Pertag.sellts (Monitor.pertag X) = Pertag.sellts P1 ->
    Pertag.ltidxs (Monitor.pertag X) = Pertag.ltidxs P1 ->
    (if Monitor.showbar SM =? sb
     then Monitor.showbar X = Monitor.showbar SM
          /\ Pertag.showbars (Monitor.pertag X) = Pertag.showbars P1
     else Monitor.showbar X = lnot (Monitor.showbar SM)
          /\ aset (Pertag.showbars P1) (Pertag.curtag P1) (lnot (Monitor.showbar SM))
             = Some (Pertag.showbars (Monitor.pertag X))) ->
    view_post cfg ui SM X).
  { intros X E1 E2 E3 E4 E5 E6 E7 E8 E9 E10 E11 E12 E13. unfold view_post.
    rewrite E1, E2, E3, E4, E5, E6, E7, E8, E9, E10, E11, E12.
    rewrite <- HP1b, <- HP1c, <- HP1d, <- HP1e, <- HP1f.
    split; [done|]. split; [done|]. repeat (split; [done|]).
    exists sb. split; [done|]. done. }
  exists SM.
  destruct (negb (Monitor.showbar SM1 =? sb)) eqn:Etog.
  - (* the bar is toggled *)
    destruct (togglebar_spec _ _ _ _ _ _ SM1 Hs2 (lookup_insert_eq _ _ _))
      as (sbs & M2 & Hsbs & HM2 & HU & Harr).
    rewrite put_mon_put_mon in Harr.
    eexists _, s2, s3. split; [done|].
    split; [|split; [|split; [|split; [exact Harr|done]]]].
    + apply Hpost1; try (unfold updatebarpos; by destruct (truthy _)).
      apply negb_true_iff in Etog.
      change (Monitor.showbar SM1) with (Monitor.showbar SM) in *.
      rewrite Etog. split.
      * unfold updatebarpos. by destruct (truthy _).
      * replace (Pertag.showbars (Monitor.pertag (updatebarpos _ _))) with sbs
          by (unfold updatebarpos; by destruct (truthy _)).
        exact Hsbs.
    + unfold updatebarpos. by destruct (truthy _).
    + unfold updatebarpos. by destruct (truthy _).
  - simplify_eq. apply negb_false_iff in Etog.
    exists SM1, (put_mon s (selmon s) SM1), s3.
    split; [done|].
    split; [|split; [done|split; [done|split; [apply same_arr_refl|done]]]].
    apply Hpost1; try reflexivity.
    change (Monitor.showbar SM1) with (Monitor.showbar SM) in *.
    by rewrite Etog.
Qed.

Lemma view_spec fuel s ui s' :
  view cfg ease clientcount fuel s ui = Some s' ->
  exists SM M',
    mn s !! selmon s = Some SM /\ mn s' !! selmon s = Some M'
    /\ view_post cfg ui SM M'.
Proof.
  intros H. apply view_inv in H as (SM & X & s2 & s3 & HSM & HX & _ & _ & Harr & Hf & Ha).
  assert (Hss : same_static (put_mon s (selmon s) X) s').
  { eapply same_static_trans; [by apply same_arr_static|].
    eapply same_static_trans; [by eapply focus_static|by eapply arrange_static]. }
  destruct (same_static_mn _ _ (selmon s) X Hss) as (M' & HM' & HS');
    [apply lookup_insert_eq|].
  exists SM, M'. split; [done|]. split; [done|].
  by eapply view_post_mstatic.
Qed.

(** When the clients on the stack list of the selected monitor are owned
    by it, [view] leaves the selected monitor selected. *)
Lemma view_selmon fuel s ui s' SM :
  view cfg ease clientcount fuel s ui = Some s' ->
  mn s !! selmon s = Some SM ->
  (forall t T, t ∈ Monitor.stack SM -> cl s !! t = Some T -> Client.mon T = selmon s) ->
  selmon s' = selmon s.
Proof.
  intros H HSM Hown.
  apply view_inv in H as (SM0 & X & s2 & s3 & HSM0 & _ & Hst & _ & Harr & Hf & Ha).
  simplify_eq.
  apply arrange_arr in Ha. rewrite (sa_selmon _ _ Ha).
  pose proof (sa_selmon _ _ Harr) as Hsel2. simpl in Hsel2.
  apply focus_spec in Hf as (c' & SM' & Hcand & _ & _ & Hc').
  destruct c' as [k|]; [|congruence].
  destruct Hc' as (C & l & HC & -> & _).
  apply focus_candidate_spec in Hcand as (_ & _ & [?|(SM2 & HSM2 & Hk)]); [done|].
  rewrite Hsel2 in HSM2.
  destruct (same_arr_mn _ _ (selmon s) X Harr) as (M2 & HM2 & HU);
    [apply lookup_insert_eq|].
  apply unsym_fields in HU as [HU _].
  rewrite HSM2 in HM2. injection HM2 as <-. rewrite HU, Hst in Hk.
  pose proof (sa_cl _ _ Harr k) as Hk2. rewrite HC in Hk2. simpl in Hk2.
  symmetry in Hk2. apply fmap_Some in Hk2 as (C0 & HC0 & HS0).
  destruct (cstatic_fields _ _ HS0) as (_ & _ & Hmon & _).
  rewrite Hmon. by eapply Hown.
Qed.

(** A call of [view] with a mask that selects some tag and is not the
    all-ones mask sets the current tag index of the selected monitor to
    the position of the lowest set bit of the mask plus one; the previous
    index is kept as the index to go back to. *)
Lemma view_curtag_after fuel s ui s' :
  Z.land ui (TAGMASK cfg) <> 0 ->
  ui <> 2 ^ 32 - 1 ->
  view cfg ease clientcount fuel s ui = Some s' ->
  exists SM M' i,
    mn s !! selmon s = Some SM /\ mn s' !! selmon s = Some M'
    /\ Z.testbit ui i = true /\ (forall j, 0 <= j < i -> Z.testbit ui j = false)
    /\ Pertag.curtag (Monitor.pertag M') = i + 1
    /\ Pertag.prevtag (Monitor.pertag M') = Pertag.curtag (Monitor.pertag SM).
Proof.
  intros Hmask Hall H.
  apply view_spec in H as (SM & M' & HSM & HM' & Hpost).
  destruct Hpost as (_ & Hbr & Hprev & _).
  apply Z.eqb_neq in Hmask, Hall. rewrite Hmask, Hall in Hbr.
  destruct Hbr as (_ & i & Hi & Hcur).
  apply lowest_bit_spec in Hi as (Hi & Hb & Hlow); [|lia].
  exists SM, M', i. repeat split; try done.
Qed.

Lemma view_post_tagset ui SM M' :
  view_post cfg ui SM M' ->
  idx2 (Monitor.tagset M') (Z.lxor (Monitor.seltags M') 1)
  = idx2 (Monitor.tagset SM) (Monitor.seltags SM).
Proof.
  intros (Hsel & Hbr & _). rewrite Hsel in *.
  rewrite Z.lxor_assoc, Z.lxor_nilpotent, Z.lxor_0_r.
  destruct (Z.land ui (TAGMASK cfg) =? 0).
  - destruct Hbr as [-> _]. done.
  - destruct Hbr as [Hu _]. apply upd2_idx2_other in Hu.
    by rewrite Z.lxor_assoc, Z.lxor_nilpotent, Z.lxor_0_r in Hu.
Qed.

(** On a monitor whose live configuration agrees with its per-tag block
    at the current tag index, a call of [view] with a mask followed by a
    call with the empty mask restores the active tag set, the current tag
    index and the live configuration. *)
Lemma view_round_trip fuel s ui s1 s2 SM :
  mn s !! selmon s = Some SM ->
  pertag_synced SM ->
  (forall t T, t ∈ Monitor.stack SM -> cl s !! t = Some T -> Client.mon T = selmon s) ->
  view cfg ease clientcount fuel s ui = Some s1 ->
  view cfg ease clientcount fuel s1 0 = Some s2 ->
  exists M2,
    mn s2 !! selmon s = Some M2
    /\ Monitor.seltags M2 = Monitor.seltags SM
    /\ idx2 (Monitor.tagset M2) (Monitor.seltags M2)
       = idx2 (Monitor.tagset SM) (Monitor.seltags SM)
    /\ Pertag.curtag (Monitor.pertag M2) = Pertag.curtag (Monitor.pertag SM)
    /\ Monitor.nmaster M2 = Monitor.nmaster SM
    /\ Monitor.mfact M2 = Monitor.mfact SM
    /\ Monitor.sellt M2 = Monitor.sellt SM
    /\ Monitor.lt M2 = Monitor.lt SM
    /\ Monitor.showbar M2 = Monitor.showbar SM.
Proof.
  intros HSM Hsync Hown H1 H2.
  pose proof (view_selmon _ _ _ _ _ H1 HSM Hown) as Hsel1.
  apply view_spec in H1 as (SM0 & M1 & HSM0 & HM1 & Hp1). simplify_eq.
  apply view_spec in H2 as (M1' & M2 & HM1' & HM2 & Hp2).
  rewrite Hsel1 in HM1', HM2. simplify_eq.
  exists M2. split; [done|].
  pose proof (view_post_tagset _ _ _ Hp1) as Ht1.
  destruct Hsync as (Sn & Sf & Ss & Sl & Sb & Sbool).
  destruct Hp1 as (Hsel_1 & Hbr1 & Hprev1 & En1 & Ef1 & Es1 & El1 & _ & _ & _ & _ & _
                   & sb1 & Hsb1 & Hbar1).
  destruct Hp2 as (Hsel_2 & Hbr2 & _ & _ & _ & _ & _ & Gn & Gf & Gs & Gl & _
                   & sb2 & Hsb2 & Hbar2).
  change (Z.land 0 (TAGMASK cfg) =? 0) with true in Hbr2. destruct Hbr2 as [Hts2 Hcur2].
  rewrite Hprev1 in Hcur2.
  rewrite Hcur2, En1 in Gn. rewrite Hcur2, Ef1 in Gf. rewrite Hcur2, Es1 in Gs.
  rewrite Hcur2, El1 in Gl. rewrite Hcur2 in Hsb2.
  split. { rewrite Hsel_2, Hsel_1. by rewrite Z.lxor_assoc, Z.lxor_nilpotent, Z.lxor_0_r. }
  split. { rewrite Hts2, Hsel_2. exact Ht1. }
  split; [done|]. split; [congruence|]. split; [congruence|].
  split; [congruence|]. split; [congruence|].
  (* the bar flag *)
  set (c0 := Pertag.curtag (Monitor.pertag SM)) in *.
  set (c1 := Pertag.curtag (Monitor.pertag M1)) in *.
  assert (Hsb2' : sb2 = Monitor.showbar SM /\
                  (Monitor.showbar M1 = Monitor.showbar SM
                   \/ Monitor.showbar M1 = lnot (Monitor.showbar SM))).
  { destruct (Monitor.showbar SM =? sb1) eqn:E1.
    - destruct Hbar1 as [Hb1 Hbs1]. rewrite Hbs1, Sb in Hsb2. simplify_eq. auto.
    - destruct Hbar1 as [Hb1 Hbs1].
      rewrite (aget_aset _ _ _ c0 _ Hbs1) in Hsb2.
      destruct (decide (c1 = c0)) as [e|ne].
      + rewrite e, Sb in Hsb1. simplify_eq. by rewrite Z.eqb_refl in E1.
      + rewrite Sb in Hsb2. simplify_eq. auto. }
  destruct Hsb2' as [-> Hm1].
  destruct (Monitor.showbar M1 =? Monitor.showbar SM) eqn:E2; zbool.
  - destruct Hbar2 as [-> _]. done.
  - destruct Hbar2 as [-> _]. destruct Hm1 as [?|Hm1]; [done|]. rewrite Hm1.
    destruct Sbool as [-> | ->]; reflexivity.
Qed.

End ViewTheorems.

(** ** Layout results *)

Section LayoutFacts.
Context (cfg : Config).
Variable ease : Z -> Z -> Z -> Z -> Z.
Variable clientcount : State -> Z.
Implicit Types s : State.
Implicit Types C : Client.t.
Implicit Types M : Monitor.t.

Lemma bumps_static s s' c : same_static s s' -> bumps cfg s' c = bumps cfg s c.
Proof.
  intros Hs. unfold bumps.
  destruct (cl s !! c) as [C|] eqn:HC.
  - destruct (same_static_cl _ _ _ _ Hs HC) as (C' & -> & HC').
    destruct (cstatic_fields _ _ HC') as (_ & _ & Em & _ & Ef & Efs & _). simpl.
    rewrite Em, Ef, Efs.
    destruct (mn s !! Client.mon C) as [M|] eqn:HM.
    + destruct (same_static_mn _ _ _ _ Hs HM) as (M' & -> & HM').
      destruct (mstatic_fields _ _ HM') as (_ & _ & _ & _ & Ec & _). simpl.
      rewrite Ec, (cur_layout_static cfg _ _ HM'), (nexttiled_static _ _ _ Hs).
      destruct (nexttiled s (Monitor.clients M)) as [[|c' rest]|]; simpl; try done.
      destruct (decide (c' = c)); [|done].
      by rewrite (nexttiled_static _ _ _ Hs).
    + pose proof (ss_mn _ _ Hs (Client.mon C)) as H. rewrite HM in H.
      apply fmap_None in H. by rewrite H.
  - pose proof (ss_cl _ _ Hs c) as H. rewrite HC in H.
    apply fmap_None in H. by rewrite H.
Qed.

Lemma put_client_put_client s c C1 C2 :
  put_client (put_client s c C1) c C2 = put_client s c C2.
Proof. unfold put_client, set_cl. simpl. by rewrite insert_insert_eq. Qed.

Lemma resizeclient_spec s c x y w h s' :
  resizeclient cfg s c x y w h = Some s' ->
  exists C b,
    cl s !! c = Some C /\ bumps cfg s c = Some b
    /\ s' = put_client s c
              (if b : bool
               then Client.set_wh (Client.set_geom C x y w h)
                                  (w + Client.bw C * 2) (h + Client.bw C * 2)
               else Client.set_geom C x y w h).
Proof.
  unfold resizeclient. intros H. apply bind_Some in H as (C & HC & H).
  set (s1 := put_client s c (Client.set_geom C x y w h)) in *.
  assert (Hs1 : same_static s s1) by by eapply same_static_put_client.
  exists C. rewrite <- (bumps_static _ _ c Hs1).
  unfold bumps. replace (cl s1 !! c) with (Some (Client.set_geom C x y w h))
    by (symmetry; apply lookup_insert_eq).
  cbn [mbind option_bind].
  change (Client.mon (Client.set_geom C x y w h)) with (Client.mon C) in *.
  apply bind_Some in H as (M & HM & H). rewrite HM. cbn [mbind option_bind].
  apply bind_Some in H as (nt & Hnt & H). rewrite Hnt. cbn [mbind option_bind].
  apply bind_Some in H as (only & Honly & H). rewrite Honly. cbn [mbind option_bind].
  apply bind_Some in H as (L & HL & H). rewrite HL. cbn [mbind option_bind].
  injection H as <-. eexists. split; [done|]. split; [reflexivity|].
  unfold s1. rewrite put_client_put_client. done.
Qed.

(** The rectangle a call of [resize] leaves in the client: the resolved
    position, and the resolved size, widened by the border when
    [resizeclient] ran and [bumps] holds. *)
Lemma resize_spec s c x y w h i s' C :
  resize cfg s c x y w h i = Some s' ->
  cl s !! c = Some C ->
  exists x' y' w' h' ch C',
    applysizehints cfg s c x y w h i = Some (x', y', w', h', ch)
    /\ cl s' !! c = Some C' /\ cstatic C' = cstatic C
    /\ (forall k, k <> c -> cl s' !! k = cl s !! k)
    /\ Client.x C' = x' /\ Client.y C' = y'
    /\ (if ch : bool
        then exists b, bumps cfg s c = Some b
             /\ Client.w C' = (if b : bool then w' + Client.bw C * 2 else w')
             /\ Client.h C' = (if b : bool then h' + Client.bw C * 2 else h')
        else C' = C /\ Client.w C' = w' /\ Client.h C' = h').
Proof.
  unfold resize. intros H HC.
  apply bind_Some in H as ([[[[x' y'] w'] h'] ch] & Ha & H).
  exists x', y', w', h', ch. destruct ch.
  - apply resizeclient_spec in H as (C0 & b & HC0 & Hb & ->). simplify_eq.
    eexists. split; [done|]. split; [apply lookup_insert_eq|].
    split; [by destruct b|].
    split; [intros k Hk; by apply lookup_insert_ne|].
    destruct b; simpl; eauto 10.
  - simplify_eq. exists C. split; [done|]. split; [done|]. split; [done|].
    split; [done|].
    destruct (applysizehints_size _ _ _ _ _ _ _ _ _ _ _ _ _ _ HC Ha) as [_ Hch].
    symmetry in Hch. repeat (apply orb_false_elim in Hch as [Hch ?]).
    repeat match goal with H : negb _ = false |- _ => apply negb_false_iff in H end.
    zbool. done.
Qed.

Lemma resize_other s c x y w h i s' k :
  resize cfg s c x y w h i = Some s' -> k <> c -> cl s' !! k = cl s !! k.
Proof.
  unfold resize. intros H Hk.
  apply bind_Some in H as ([[[[x' y'] w'] h'] ch] & Ha & H). destruct ch.
  - apply resizeclient_spec in H as (C0 & b & HC0 & Hb & ->).
    by apply lookup_insert_ne.
  - by simplify_eq.
Qed.

Lemma animate_frames_other n s c time frames oldx oldy x y w h s' k :
  animate_frames cfg ease n s c time frames oldx oldy x y w h = Some s' ->
  k <> c -> cl s' !! k = cl s !! k.
Proof.
  revert s time. induction n as [|n IH]; intros s time H Hk; simpl in H.
  - by simplify_eq.
  - apply bind_Some in H as (s1 & H1 & H).
    rewrite (IH _ _ H Hk). by eapply resize_other.
Qed.

Lemma animateclient_other fuel s c x y w h frames r s' k :
  animateclient cfg ease fuel s c x y w h frames r = Some s' ->
  k <> c -> cl s' !! k = cl s !! k.
Proof.
  revert s x y w h r s'. induction fuel as [|fuel IH]; intros s x y w h r s' H Hk; [done|].
  simpl in H. apply bind_Some in H as (C & HC & H).
  apply bind_Some in H as (s1 & H1 & H).
  assert (cl s1 !! k = cl s !! k) as <-.
  { destruct (truthy (animated s) && _); [|by simplify_eq].
    apply bind_Some in H1 as (still & Hst & H1). destruct still.
    - by eapply IH.
    - by eapply animate_frames_other. }
  destruct r; by eapply resize_other.
Qed.




(** *** Termination *)

Lemma can_resize_static s s' c :
  same_static s s' -> can_resize cfg s c -> can_resize cfg s' c.
Proof.
  intros Hs (C & M & L & HC & HM & HL & Hall).
  destruct (same_static_cl _ _ _ _ Hs HC) as (C' & HC' & HSC).
  destruct (cstatic_fields _ _ HSC) as (_ & _ & Em & _).
  destruct (same_static_mn _ _ _ _ Hs HM) as (M' & HM' & HSM).
  destruct (mstatic_fields _ _ HSM) as (_ & _ & _ & _ & Ec & _).
  exists C', M', L. rewrite Em, Ec, (cur_layout_static cfg _ _ HSM).
  repeat split; try done. intros t Ht. rewrite (untiled_static _ _ _ Hs). auto.
Qed.

Lemma nexttiled_total s (l : list cid) :
  (forall t, t ∈ l -> is_Some (untiled s t)) -> is_Some (nexttiled s l).
Proof.
  induction l as [|t l IH]; intros H; simpl; [eauto|].
  destruct (H t) as [u ->]; [left|]. simpl. destruct u; [|eauto].
  apply IH. intros t' Ht'. apply H. by right.
Qed.

Lemma nexttiled_suffix s (l r : list cid) :
  nexttiled s l = Some r -> forall t, t ∈ r -> t ∈ l.
Proof.
  revert r. induction l as [|a l IH]; intros r H t Ht; simpl in H.
  - by simplify_eq.
  - apply bind_Some in H as (u & Hu & H). destruct u.
    + right. by eapply IH.
    + by simplify_eq.
Qed.

Lemma hints_apply_total s C M L :
  mn s !! Client.mon C = Some M -> cur_layout cfg M = Some L ->
  is_Some (hints_apply cfg s C).
Proof.
  intros HM HL. unfold hints_apply. destruct (_ || _); [eauto|].
  rewrite HM. simpl. rewrite HL. simpl. eauto.
Qed.

Lemma resizeclient_total s c x y w h :
  can_resize cfg s c -> is_Some (resizeclient cfg s c x y w h).
Proof.
  intros (C & M & L & HC & HM & HL & Hall). unfold resizeclient.
  rewrite HC. cbn [mbind option_bind].
  set (s1 := put_client s c (Client.set_geom C x y w h)).
  assert (Hs1 : same_static s s1) by by eapply same_static_put_client.
  change (mn s1) with (mn s).
  change (Client.mon (Client.set_geom C x y w h)) with (Client.mon C).
  rewrite HM. cbn [mbind option_bind].
  rewrite (nexttiled_static _ _ _ Hs1).
  destruct (nexttiled_total s (Monitor.clients M) Hall) as [nt Hnt]. rewrite Hnt.
  cbn [mbind option_bind].
  assert (Honly : is_Some (match nt with
         | c' :: rest =>
             if decide (c' = c) then r ← nexttiled s1 rest; Some (bool_decide (r = []))
             else Some false
         | [] => Some false
         end)).
  { destruct nt as [|c' rest]; [eauto|]. destruct (decide _); [|eauto].
    rewrite (nexttiled_static _ _ _ Hs1).
    destruct (nexttiled_total s rest) as [r ->]; [|simpl; eauto].
    intros t Ht. apply Hall. eapply nexttiled_suffix; [done|]. by right. }
  destruct Honly as [only ->]. cbn [mbind option_bind].
  rewrite HL. cbn [mbind option_bind]. eauto.
Qed.

Lemma resize_total s c x y w h i :
  can_resize cfg s c -> is_Some (resize cfg s c x y w h i).
Proof.
  intros Hc. pose proof Hc as (C & M & L & HC & HM & HL & Hall). unfold resize.
  destruct (applysizehints_total cfg s c C x y w h i HC) as [r Hr]; [eauto| |].
  { by eapply hints_apply_total. }
  rewrite Hr. destruct r as [[[[x' y'] w'] h'] ch]. cbn [mbind option_bind].
  destruct ch; [by apply resizeclient_total|eauto].
Qed.

Lemma animate_frames_total n s c time frames oldx oldy x y w h :
  can_resize cfg s c ->
  is_Some (animate_frames cfg ease n s c time frames oldx oldy x y w h).
Proof.
  revert s time. induction n as [|n IH]; intros s time Hc; simpl; [eauto|].
  destruct (resize_total s c (ease time frames oldx x) (ease time frames oldy y)
                         w h true Hc) as [s1 H1].
  rewrite H1. cbn [mbind option_bind]. apply IH.
  eapply can_resize_static; [|done]. by eapply same_arr_static, resize_arr.
Qed.

(** With a proposed width and height that are not zero, the recursion of
    [animateclient] is at most two calls deep. *)
Lemma animateclient_total fuel s c x y w h frames r :
  (2 <= fuel)%nat -> can_resize cfg s c -> is_Some (mn s !! selmon s) ->
  w <> 0 -> h <> 0 ->
  is_Some (animateclient cfg ease fuel s c x y w h frames r).
Proof.
  intros Hfuel Hc [SM HSM] Hw Hh.
  destruct fuel as [|[|fuel]]; [lia|lia|].
  pose proof Hc as (C & M & L & HC & HM & HL & Hall).
  assert (Hfin : forall s1 x y w h i, same_arr s s1 ->
                                       is_Some (resize cfg s1 c x y w h i)).
  { intros s1 ? ? ? ? ? Hs1. apply resize_total.
    eapply can_resize_static; [by apply same_arr_static|done]. }
  cbn [animateclient]. rewrite HC. cbn [mbind option_bind].
  assert (Htw : truthy w = true) by (unfold truthy; by destruct (Z.eqb_spec w 0)).
  assert (Hth : truthy h = true) by (unfold truthy; by destruct (Z.eqb_spec h 0)).
  rewrite Htw, Hth.
  match goal with
  | |- is_Some (?e ≫= _) => assert (H1 : exists s1, e = Some s1 /\ same_arr s s1)
  end.
  { destruct (truthy (animated s) && _) eqn:EA; [|exists s; split; [done|apply same_arr_refl]].
    destruct ((x =? Client.x C) && (y =? Client.y C)) eqn:Exy.
    - rewrite HSM. cbn [mbind option_bind].
      destruct (Client.w C <? Monitor.mw SM - 50) eqn:Estill.
      + (* the nested call *)
        cbn [mbind option_bind].
        change (truthy 0) with false. cbv iota.
        apply andb_prop in Exy as [Ex Ey]. zbool.
        apply andb_prop in EA as [_ EA].
        assert (Hnot : (Client.x C + (w - Client.w C) =? Client.x C)
                       && (Client.y C + (h - Client.h C) =? Client.y C) = false).
        { apply andb_false_iff.
          destruct (Z.eqb_spec (Client.x C + (w - Client.w C)) (Client.x C)) as [e1|];
            [|auto].
          destruct (Z.eqb_spec (Client.y C + (h - Client.h C)) (Client.y C)) as [e2|];
            [|auto].
          exfalso. subst x y.
          replace (Client.x C - Client.x C) with 0 in EA by lia.
          replace (Client.y C - Client.y C) with 0 in EA by lia.
          replace (w - Client.w C) with 0 in EA by lia.
          replace (h - Client.h C) with 0 in EA by lia.
          done. }
        rewrite Hnot. cbn [mbind option_bind].
        match goal with
        | |- exists _, (?e ≫= _) = _ /\ _ =>
            assert (H2 : exists s2, e = Some s2 /\ same_arr s s2)
        end.
        { destruct (truthy (animated s) && _); [|exists s; split; [done|apply same_arr_refl]].
          destruct (animate_frames_total (Z.to_nat (frames - 1)) s c 1 frames
                      (Client.x C) (Client.y C)
                      (Client.x C + (w - Client.w C)) (Client.y C + (h - Client.h C))
                      (Client.w C) (Client.h C) Hc) as [s2 H2].
          exists s2. split; [done|]. by eapply animate_frames_arr. }
        destruct H2 as (s2 & -> & Hs2). cbn [mbind option_bind].
        destruct (Hfin s2 (Client.x C + (w - Client.w C)) (Client.y C + (h - Client.h C))
                       (Client.w C) (Client.h C) true Hs2) as [s3 H3].
        exists s3. split; [done|].
        eapply same_arr_trans; [done|by eapply resize_arr].
      + destruct (animate_frames_total (Z.to_nat (frames - 1)) s c 1 frames
                    (Client.x C) (Client.y C) x y w h Hc) as [s2 H2].
        exists s2. split; [done|]. by eapply animate_frames_arr.
    - cbn [mbind option_bind].
      destruct (animate_frames_total (Z.to_nat (frames - 1)) s c 1 frames
                  (Client.x C) (Client.y C) x y w h Hc) as [s2 H2].
      exists s2. split; [done|]. by eapply animate_frames_arr. }
  destruct H1 as (s1 & -> & Hs1). cbn [mbind option_bind].
  destruct r; by apply Hfin.
Qed.

(** A call of [animateclient] that keeps the position ends with a call
    of [resize] at the target rectangle, from a state that differs from
    the initial one in the geometry of the client at most. *)
Lemma animateclient_final fuel s c x y w h frames s' C :
  animateclient cfg ease fuel s c x y w h frames false = Some s' ->
  cl s !! c = Some C ->
  exists s1,
    same_arr s s1 /\ (forall k, k <> c -> cl s1 !! k = cl s !! k)
    /\ resize cfg s1 c x y (if truthy w then w else Client.w C)
                          (if truthy h then h else Client.h C) true = Some s'.
Proof.
  intros H HC. destruct fuel as [|fuel]; [done|].
  cbn [animateclient] in H. rewrite HC in H. cbn [mbind option_bind] in H.
  apply bind_Some in H as (s1 & H1 & H). exists s1.
  split; [|split; [|done]].
  - destruct (truthy (animated s) && _); [|simplify_eq; apply same_arr_refl].
    apply bind_Some in H1 as (still & Hst & H1). destruct still.
    + by eapply animateclient_arr.
    + by eapply animate_frames_arr.
  - intros k Hk. destruct (truthy (animated s) && _); [|by simplify_eq].
    apply bind_Some in H1 as (still & Hst & H1). destruct still.
    + by eapply animateclient_other.
    + by eapply animate_frames_other.
Qed.

End LayoutFacts.

Section Placement.
Context (cfg : Config).
Variable ease : Z -> Z -> Z -> Z -> Z.
Variable clientcount : State -> Z.
Implicit Types s : State.
Implicit Types C : Client.t.
Implicit Types M : Monitor.t.

Lemma hints_apply_static s s' C C' :
  same_static s s' -> cstatic C' = cstatic C ->
  hints_apply cfg s' C' = hints_apply cfg s C.
Proof.
  intros Hs HC. destruct (cstatic_fields _ _ HC) as (_ & _ & Em & _ & Ef & _).
  unfold hints_apply. rewrite Ef, Em. destruct (_ || _); [done|].
  destruct (mn s !! Client.mon C) as [M|] eqn:HM.
  - destruct (same_static_mn _ _ _ _ Hs HM) as (M' & -> & HM'). simpl.
    by rewrite (cur_layout_static cfg _ _ HM').
  - pose proof (ss_mn _ _ Hs (Client.mon C)) as H. rewrite HM in H.
    apply fmap_None in H. by rewrite H.
Qed.

Lemma solve_size_static s s' C C' w h :
  same_static s s' -> cstatic C' = cstatic C ->
  solve_size cfg s' C' w h = solve_size cfg s C w h.
Proof.
  intros Hs HC. unfold solve_size.
  rewrite (hints_apply_static _ _ _ _ Hs HC), (ss_bh _ _ Hs).
  destruct (hints_apply cfg s C) as [[]|]; simpl; try done.
  by rewrite (cstatic_sizehints _ _ _ _ HC).
Qed.

(** In interactive mode a rectangle that starts on the screen and does
    not end left of or above it keeps its position. *)
Lemma applysizehints_position s c C x y w h x' y' w' h' ch :
  cl s !! c = Some C ->
  applysizehints cfg s c x y w h true = Some (x', y', w', h', ch) ->
  x <= sw s -> y <= sh s ->
  0 <= x + Z.max 1 w + 2 * Client.bw C -> 0 <= y + Z.max 1 h + 2 * Client.bw C ->
  x' = x /\ y' = y.
Proof.
  intros HC H Hx Hy Hxw Hyh. unfold applysizehints in H. rewrite HC in H.
  cbn [mbind option_bind] in H.
  apply bind_Some in H as (hint & _ & H).
  match type of H with (let '(_, _) := ?e in _) = _ => destruct e end.
  injection H as <- <- _ _ _.
  destruct (sw s <? x) eqn:E1; zbool; [lia|].
  destruct (sh s <? y) eqn:E2; zbool; [lia|].
  destruct (x + _ + _ <? 0) eqn:E3; zbool; [lia|].
  destruct (y + _ + _ <? 0) eqn:E4; zbool; [lia|]. done.
Qed.

(** Placing a client with [animateclient] at a rectangle whose size the
    geometry solver accepts; the position is kept too when the rectangle
    starts on the screen and does not end left of or above it. *)
Lemma animateclient_place fuel s c C x y w h frames :
  (2 <= fuel)%nat ->
  can_resize cfg s c -> is_Some (mn s !! selmon s) ->
  cl s !! c = Some C ->
  1 <= w -> 1 <= h ->
  solve_size cfg s C w h = Some (w, h) ->
  exists s' C' b,
    animateclient cfg ease fuel s c x y w h frames false = Some s'
    /\ same_arr s s'
    /\ (forall k, k <> c -> cl s' !! k = cl s !! k)
    /\ cl s' !! c = Some C' /\ cstatic C' = cstatic C
    /\ bumps cfg s c = Some b
    /\ ((Client.w C' = (if b : bool then w + Client.bw C * 2 else w)
         /\ Client.h C' = (if b : bool then h + Client.bw C * 2 else h))
        \/ (Client.w C' = w /\ Client.h C' = h))
    /\ (x <= sw s -> y <= sh s ->
        0 <= x + w + 2 * Client.bw C -> 0 <= y + h + 2 * Client.bw C ->
        Client.x C' = x /\ Client.y C' = y).
Proof.
  intros Hfuel Hcr Hsel HC Hw Hh Hsolve.
  destruct (animateclient_total cfg ease fuel s c x y w h frames false)
    as [s' Hs']; try done; try lia.
  exists s'.
  pose proof (animateclient_arr _ _ _ _ _ _ _ _ _ _ _ _ Hs') as Harr.
  pose proof Hs' as Hfin.
  apply (animateclient_final cfg ease _ _ _ _ _ _ _ _ _ C) in Hfin
    as (s1 & Hs1 & Hoth1 & Hres); [|done].
  assert (Htw : truthy w = true) by (unfold truthy; destruct (Z.eqb_spec w 0); [lia|done]).
  assert (Hth : truthy h = true) by (unfold truthy; destruct (Z.eqb_spec h 0); [lia|done]).
  rewrite Htw, Hth in Hres.
  destruct (same_static_cl _ _ _ _ (same_arr_static _ _ Hs1) HC) as (C1 & HC1 & HS1).
  destruct (cstatic_fields _ _ HS1) as (_ & _ & _ & _ & _ & _ & _ & Ebw).
  destruct (resize_spec cfg _ _ _ _ _ _ _ _ _ Hres HC1)
    as (x' & y' & w' & h' & ch & C' & Ha & HC' & HS' & Hoth & Ex & Ey & Hsz).
  destruct (applysizehints_size _ _ _ _ _ _ _ _ _ _ _ _ _ _ HC1 Ha) as [Hss _].
  rewrite (solve_size_static s s1 C C1) in Hss
    by (by apply same_arr_static || done).
  rewrite Hsolve in Hss. injection Hss as <- <-.
  assert (Hb : is_Some (bumps cfg s c)).
  { destruct Hcr as (C0 & M & L & HC0 & HM & HL & Hall). simplify_eq.
    unfold bumps. rewrite HC0. cbn [mbind option_bind]. rewrite HM.
    cbn [mbind option_bind].
    destruct (nexttiled_total s (Monitor.clients M) Hall) as [nt Hnt]. rewrite Hnt.
    cbn [mbind option_bind].
    assert (Honly : is_Some (match nt with
         | c' :: rest =>
             if decide (c' = c) then r ← nexttiled s rest; Some (bool_decide (r = []))
             else Some false
         | [] => Some false
         end)).
    { destruct nt as [|c' rest]; [eauto|]. destruct (decide _); [|eauto].
      destruct (nexttiled_total s rest) as [r ->]; [|simpl; eauto].
      intros t Ht. apply Hall. eapply nexttiled_suffix; [done|]. by right. }
    destruct Honly as [only ->]. cbn [mbind option_bind].
    rewrite HL. cbn [mbind option_bind]. eauto. }
  destruct Hb as [b Hb]. exists C', b.
  split; [done|]. split; [done|].
  split. { intros k Hk. rewrite (Hoth k Hk). by apply Hoth1. }
  split; [done|]. split; [congruence|]. split; [done|].
  split.
  - destruct ch.
    + destruct Hsz as (b' & Hb' & Ew & Eh).
      rewrite (bumps_static cfg s s1 c) in Hb' by by apply same_arr_static.
      simplify_eq. left. by rewrite <- Ebw.
    + destruct Hsz as (_ & Ew & Eh). by right.
  - intros Hx Hy Hxw Hyh.
    rewrite Ex, Ey.
    apply (applysizehints_position _ _ _ _ _ _ _ _ _ _ _ _ HC1 Ha);
      rewrite ?(sa_sw _ _ Hs1), ?(sa_sh _ _ Hs1), ?Ebw; lia.
Qed.

Lemma ISVISIBLE_untiled s t : is_Some (ISVISIBLE s t) -> is_Some (untiled s t).
Proof.
  intros [v Hv]. pose proof (ISVISIBLE_HIDDEN s t (ex_intro _ v Hv)) as [hd Hhd].
  unfold untiled. rewrite Hv, Hhd.
  unfold ISVISIBLE in Hv. apply bind_Some in Hv as (T & -> & _).
  cbn [mbind option_bind]. destruct (truthy (Client.isfloating T)); [eauto|].
  destruct v; eauto.
Qed.


Lemma count_visible_total s (l : list cid) :
  (forall t, t ∈ l -> is_Some (ISVISIBLE s t)) -> is_Some (count_visible s l).
Proof.
  induction l as [|t l IH]; intros H; simpl; [eauto|].
  destruct (H t) as [v ->]; [left|]. simpl.
  destruct IH as [n ->]; [intros; apply H; by right|]. simpl. eauto.
Qed.

(** *** Monocle *)





End Placement.

Section TileFacts.
Context (cfg : Config).
Variable ease : Z -> Z -> Z -> Z -> Z.
Variable clientcount : State -> Z.
Implicit Types s : State.
Implicit Types C : Client.t.
Implicit Types M : Monitor.t.

(** *** Tiled-master *)

Lemma tiled_static s s' l : same_static s s' -> tiled s' l = tiled s l.
Proof.
  intros Hs. induction l as [|c l IH]; [done|]. simpl.
  by rewrite (untiled_static _ _ c Hs), IH.
Qed.

Lemma count_tiled_tiled s l t :
  tiled s l = Some t -> count_tiled s l = Some (Z.of_nat (length t)).
Proof.
  revert t. induction l as [|c l IH]; intros t H; simpl in *.
  - by simplify_eq.
  - apply bind_Some in H as (u & Hu & H). apply bind_Some in H as (t' & Ht' & H).
    rewrite Hu, (IH _ Ht'). simpl. simplify_eq. destruct u; simpl; f_equal; lia.
Qed.

Lemma tiled_all s l t :
  tiled s l = Some t -> forall k, k ∈ l -> is_Some (untiled s k).
Proof.
  revert t. induction l as [|c l IH]; intros t H k Hk; simpl in *.
  - by apply elem_of_nil in Hk.
  - apply bind_Some in H as (u & Hu & H). apply bind_Some in H as (t' & Ht' & H).
    apply elem_of_cons in Hk as [->|Hk]; [eauto|]. by eapply IH.
Qed.

(** The first tiled client splits the list. *)
Lemma tiled_cons_inv s l c t :
  tiled s l = Some (c :: t) ->
  exists pre r,
    l = pre ++ c :: r /\ (forall k, k ∈ pre -> untiled s k = Some true)
    /\ untiled s c = Some false /\ tiled s r = Some t.
Proof.
  induction l as [|a l IH]; intros H; simpl in H; [done|].
  apply bind_Some in H as (u & Hu & H). apply bind_Some in H as (t' & Ht' & H).
  destruct u.
  - simplify_eq. destruct (IH Ht') as (pre & r & -> & Hpre & Hc & Hr).
    exists (a :: pre), r. split; [done|]. split; [|done].
    intros k Hk. apply elem_of_cons in Hk as [->|Hk]; auto.
  - simplify_eq. exists [], l. split; [done|]. split; [|done].
    intros k Hk. by apply elem_of_nil in Hk.
Qed.

Lemma tiled_nil_inv s l :
  tiled s l = Some [] -> forall k, k ∈ l -> untiled s k = Some true.
Proof.
  induction l as [|a l IH]; intros H k Hk; simpl in H.
  - by apply elem_of_nil in Hk.
  - apply bind_Some in H as (u & Hu & H). apply bind_Some in H as (t' & Ht' & H).
    destruct u; [|done]. simplify_eq.
    apply elem_of_cons in Hk as [->|Hk]; auto.
Qed.

Lemma nexttiled_skip s pre l :
  (forall k, k ∈ pre -> untiled s k = Some true) ->
  nexttiled s (pre ++ l) = nexttiled s l.
Proof.
  induction pre as [|a pre IH]; intros H; [done|]. simpl.
  rewrite (H a) by left. simpl. apply IH. intros k Hk. apply H. by right.
Qed.

Lemma nexttiled_none s l :
  (forall k, k ∈ l -> untiled s k = Some true) -> nexttiled s l = Some [].
Proof.
  intros H. rewrite <- (app_nil_r l). by rewrite nexttiled_skip.
Qed.

Lemma tile_loop_skip fuel s M n mw fc pre l i my ty :
  (forall k, k ∈ pre -> untiled s k = Some true) ->
  tile_loop cfg ease fuel s M n mw fc (pre ++ l) i my ty
  = tile_loop cfg ease fuel s M n mw fc l i my ty.
Proof.
  induction pre as [|a pre IH]; intros H; [done|]. simpl.
  rewrite (H a) by left. simpl. apply IH. intros k Hk. apply H. by right.
Qed.

Lemma u32_small z : 0 <= z < 2 ^ 32 -> u32 z = z.
Proof. intros H. unfold u32. by apply Z.mod_small. Qed.

Lemma s32_small z : 0 <= z < 2 ^ 31 -> s32 z = z.
Proof.
  intros H. unfold s32. rewrite Z.mod_small by lia.
  destruct (z <? 2 ^ 31) eqn:E; zbool; [done|lia].
Qed.

(** Under the tile layout [resizeclient] keeps the border of a client
    that is not the only tiled one. *)
Lemma bumps_tile_first s m M L a b pre r pre2 r2 Ca :
  mn s !! m = Some M -> cur_layout cfg M = Some L -> arrange_of L = Some fn_tile ->
  cl s !! a = Some Ca -> Client.mon Ca = m ->
  Monitor.clients M = pre ++ a :: r ->
  (forall k, k ∈ pre -> untiled s k = Some true) -> untiled s a = Some false ->
  r = pre2 ++ b :: r2 ->
  (forall k, k ∈ pre2 -> untiled s k = Some true) -> untiled s b = Some false ->
  bumps cfg s a = Some false.
Proof.
  intros HM HL Harr HC Hmon Hl Hpre Ha Hr Hpre2 Hb.
  unfold bumps. rewrite HC. cbn [mbind option_bind]. rewrite Hmon, HM.
  cbn [mbind option_bind]. rewrite Hl, nexttiled_skip by done.
  cbn [nexttiled]. rewrite Ha. cbn [mbind option_bind].
  rewrite decide_True by done. rewrite Hr, nexttiled_skip by done.
  cbn [nexttiled]. rewrite Hb. cbn [mbind option_bind].
  rewrite HL. cbn [mbind option_bind]. rewrite Harr.
  rewrite (bool_decide_eq_false_2 (_ = [])) by done.
  rewrite (bool_decide_eq_false_2 (_ = Some fn_monocle)) by done. done.
Qed.

Lemma bumps_tile_later s m M L a b pre r Cb :
  mn s !! m = Some M -> cur_layout cfg M = Some L -> arrange_of L = Some fn_tile ->
  cl s !! b = Some Cb -> Client.mon Cb = m ->
  Monitor.clients M = pre ++ a :: r ->
  (forall k, k ∈ pre -> untiled s k = Some true) -> untiled s a = Some false ->
  a <> b ->
  bumps cfg s b = Some false.
Proof.
  intros HM HL Harr HC Hmon Hl Hpre Ha Hne.
  unfold bumps. rewrite HC. cbn [mbind option_bind]. rewrite Hmon, HM.
  cbn [mbind option_bind]. rewrite Hl, nexttiled_skip by done.
  cbn [nexttiled]. rewrite Ha. cbn [mbind option_bind].
  rewrite decide_False by done. cbn [mbind option_bind].
  rewrite HL. cbn [mbind option_bind]. rewrite Harr.
  rewrite (bool_decide_eq_false_2 (_ = Some fn_monocle)) by done. done.
Qed.

(** C6, as amended.  Under the tile layout with one master
    ([nmaster = 1]) and exactly two tiled clients, the master [a] and
    the stack client [b], the width of the master with its border is the
    binary32 product of the width [W] of the window area and the split
    factor, rounded to the nearest binary32 number and then cut to an
    integer; the width of the stack client with its border is [W] less
    that; the two add up to [W].  The geometry solver is taken to accept
    the proposed sizes, and the sizes to fit an [int]. *)
Theorem tile_master_stack_widths fuel s m M L a b Ca Cb :
  let W := Monitor.ww M in
  let mw := fmul_trunc W (Monitor.mfact M) in
  let wa := mw - 2 * Client.bw Ca in
  let ha := Monitor.wh M - 2 * Client.bw Ca in
  let wb := W - mw - 2 * Client.bw Cb in
  let hb := Monitor.wh M - 2 * Client.bw Cb in
  (2 <= fuel)%nat ->
  mn s !! m = Some M ->
  is_Some (mn s !! selmon s) ->
  cur_layout cfg M = Some L -> arrange_of L = Some fn_tile ->
  Monitor.nmaster M = 1 ->
  tiled s (Monitor.clients M) = Some [a; b] -> a <> b ->
  cl s !! a = Some Ca -> Client.mon Ca = m ->
  cl s !! b = Some Cb -> Client.mon Cb = m ->
  0 <= mw < 2 ^ 31 -> 0 <= Monitor.wh M < 2 ^ 31 ->
  1 <= wa < 2 ^ 31 -> 1 <= ha < 2 ^ 31 ->
  1 <= wb < 2 ^ 31 -> 1 <= hb < 2 ^ 31 ->
  solve_size cfg s Ca wa ha = Some (wa, ha) ->
  solve_size cfg s Cb wb hb = Some (wb, hb) ->
  exists s' Ca' Cb',
    tile cfg ease clientcount fuel s m = Some s'
    /\ cl s' !! a = Some Ca' /\ cl s' !! b = Some Cb'
    /\ Client.WIDTH Ca' = mw
    /\ Client.WIDTH Cb' = W - mw
    /\ Client.WIDTH Ca' + Client.WIDTH Cb' = W.
Proof.
  intros W mw wa ha wb hb Hfuel HM Hsel HL Harr Hnm Ht Hne HCa Hma HCb Hmb
         Rmw Rwh Rwa Rha Rwb Rhb Sa Sb.
  pose proof (tiled_all _ _ _ Ht) as Hall.
  destruct (tiled_cons_inv _ _ _ _ Ht) as (pre & r & Hl & Hpre & Hua & Htr).
  destruct (tiled_cons_inv _ _ _ _ Htr) as (pre2 & r2 & Hr & Hpre2 & Hub & Htr2).
  pose proof (tiled_nil_inv _ _ Htr2) as Hr2.
  (* the master *)
  assert (Hcra : can_resize cfg s a) by (exists Ca, M, L; by rewrite Hma).
  destruct (animateclient_place cfg ease fuel s a Ca (Monitor.wx M)
              (s32 (Monitor.wy M + 0)) wa ha
              (if truthy (animated s) && (5 <? clientcount s) then 4 else 7))
    as (s1 & Ca' & ba & Hrun1 & Harr1 & Hoth1 & HCa' & HSa' & Hba & Hsza & _);
    try done; try lia.
  rewrite (bumps_tile_first s m M L a b pre r pre2 r2 Ca) in Hba by done.
  injection Hba as <-.
  pose proof (same_arr_static _ _ Harr1) as Hs1.
  (* the stack client *)
  assert (HCb1 : cl s1 !! b = Some Cb) by (rewrite Hoth1; done).
  assert (Hcrb : can_resize cfg s1 b).
  { eapply can_resize_static; [done|]. exists Cb, M, L. by rewrite Hmb. }
  assert (Hsel1 : is_Some (mn s1 !! selmon s1)).
  { rewrite (sa_selmon _ _ Harr1). destruct Hsel as [SM HSM].
    destruct (same_arr_mn _ _ _ _ Harr1 HSM) as (SM' & -> & _). eauto. }
  set (my1 := if u32 (0 + Client.HEIGHT Ca') <? u32 (Monitor.wh M)
              then u32 (0 + Client.HEIGHT Ca') else 0).
  destruct (animateclient_place cfg ease fuel s1 b Cb (s32 (Monitor.wx M + mw))
              (s32 (Monitor.wy M + 0)) wb hb
              (if truthy (animated s) && (5 <? clientcount s) then 4 else 7))
    as (s2 & Cb' & bb & Hrun2 & Harr2 & Hoth2 & HCb' & HSb' & Hbb & Hszb & _);
    try done; try lia.
  { by rewrite (solve_size_static cfg s s1 Cb Cb). }
  rewrite (bumps_static cfg s s1 b Hs1) in Hbb.
  rewrite (bumps_tile_later s m M L a b pre r Cb) in Hbb by done.
  injection Hbb as <-.
  pose proof (same_arr_static _ _ Harr2) as Hs2.
  exists s2, Ca', Cb'.
  destruct (cstatic_fields _ _ HSa') as (_ & _ & _ & _ & _ & _ & _ & Ebwa).
  destruct (cstatic_fields _ _ HSb') as (_ & _ & _ & _ & _ & _ & _ & Ebwb).
  assert (Ewa : Client.WIDTH Ca' = mw).
  { unfold Client.WIDTH. rewrite Ebwa. destruct Hsza as [[-> _]|[-> _]]; unfold wa; lia. }
  assert (Ewb : Client.WIDTH Cb' = W - mw).
  { unfold Client.WIDTH. rewrite Ebwb. destruct Hszb as [[-> _]|[-> _]]; unfold wb; lia. }
  split; [|split; [by rewrite Hoth2|split; [done|split; [done|split; [done|lia]]]]].
  (* the run of [tile] *)
  unfold tile. rewrite HM. cbn [mbind option_bind].
  rewrite (count_tiled_tiled _ _ _ Ht). cbn [mbind option_bind length].
  change (Z.of_nat 2 =? 0) with false. cbv iota.
  rewrite Hnm. change (u32 1 <? Z.of_nat 2) with true. change (truthy 1) with true.
  cbv iota. fold W. fold mw. rewrite (u32_small mw) by lia.
  rewrite Hl, tile_loop_skip by done.
  cbn [tile_loop]. rewrite Hua. cbn [mbind option_bind]. rewrite HCa.
  cbn [mbind option_bind]. rewrite Hnm.
  change (0 <? u32 1) with true. cbv iota.
  change (umin (Z.of_nat 2) 1) with 1. change (u32 (1 - 0)) with 1.
  rewrite Z.sub_0_r, (u32_small (Monitor.wh M)), Z.div_1_r by lia.
  fold wa. fold ha. rewrite (s32_small wa), (s32_small ha) by lia.
  rewrite Hrun1. cbn [mbind option_bind]. rewrite HCa'. cbn [mbind option_bind].
  fold my1.
  rewrite Hr, tile_loop_skip
    by (intros k Hk; rewrite (untiled_static _ _ _ Hs1); auto).
  cbn [tile_loop]. rewrite (untiled_static _ _ _ Hs1), Hub. cbn [mbind option_bind].
  rewrite HCb1. cbn [mbind option_bind]. rewrite Hnm.
  change (0 + 1 <? u32 1) with false. cbv iota.
  change (u32 (Z.of_nat 2 - (0 + 1))) with 1.
  rewrite Z.sub_0_r, (u32_small (Monitor.wh M)), Z.div_1_r by lia.
  change (Monitor.ww M - mw - 2 * Client.bw Cb) with wb.
  change (Monitor.wh M - 2 * Client.bw Cb) with hb.
  rewrite (s32_small wb), (s32_small hb) by lia.
  rewrite Hrun2. cbn [mbind option_bind]. rewrite HCb'. cbn [mbind option_bind].
  rewrite <- (app_nil_r r2), tile_loop_skip; [done|].
  intros k Hk. rewrite (untiled_static _ _ _ Hs2), (untiled_static _ _ _ Hs1). auto.
Qed.

End TileFacts.

(** ** Output manager *)

Section GeomFacts.
Context (cfg : Config).
Implicit Types s : State.
Implicit Types C : Client.t.
Implicit Types M : Monitor.t.

Lemma unlink_other c (l l' : list cid) k :
  unlink c l = Some l' -> k ∈ l -> k <> c -> k ∈ l'.
Proof.
  revert l'. induction l as [|a l IH]; intros l' H Hk Hne; simpl in H; [done|].
  destruct (decide (a = c)) as [->|Hac].
  - simplify_eq. apply elem_of_cons in Hk as [?|?]; done.
  - apply bind_Some in H as (r & Hr & H). simplify_eq.
    apply elem_of_cons in Hk as [->|Hk]; [left|right; eauto].
Qed.

Lemma unlink_NoDup c (l l' : list cid) :
  unlink c l = Some l' -> NoDup l -> NoDup l' /\ c ∉ l'.
Proof.
  revert l'. induction l as [|a l IH]; intros l' H Hnd; simpl in H; [done|].
  apply NoDup_cons in Hnd as [Ha Hnd].
  destruct (decide (a = c)) as [->|Hac].
  - by simplify_eq.
  - apply bind_Some in H as (r & Hr & H). simplify_eq.
    destruct (IH _ Hr Hnd) as [H1 H2]. split.
    + apply NoDup_cons. split; [|done]. intros Hin.
      apply Ha. by apply (unlink_elem _ _ _ Hr).
    + intros Hin. apply elem_of_cons in Hin as [?|?]; done.
Qed.

Lemma ISVISIBLE_total s t T M :
  cl s !! t = Some T -> mn s !! Client.mon T = Some M ->
  Monitor.seltags M = 0 \/ Monitor.seltags M = 1 ->
  is_Some (ISVISIBLE s t).
Proof.
  intros HT HM Hsel. unfold ISVISIBLE. rewrite HT. cbn [mbind option_bind].
  rewrite HM. cbn [mbind option_bind].
  destruct (idx2_total (Monitor.tagset M) _ Hsel) as [ts ->].
  cbn [mbind option_bind]. eauto.
Qed.

Lemma attach_inv s c s' :
  attach s c = Some s' ->
  exists C M, cl s !! c = Some C /\ mn s !! Client.mon C = Some M
    /\ s' = put_mon s (Client.mon C) (Monitor.set_clients M (c :: Monitor.clients M)).
Proof.
  unfold attach. intros H. apply bind_Some in H as (C & HC & H).
  apply bind_Some in H as (M & HM & H). simplify_eq. eauto.
Qed.

(** One turn of the loop of [migrate]: the head [c] of the client list of
    [m] leaves both lists of [m] and is put at the head of both lists of
    the first monitor [f]. *)
Lemma migrate_step s m f M Mf c rest C :
  m <> f -> head (mons s) = Some f ->
  mn s !! m = Some M -> mn s !! f = Some Mf ->
  Monitor.clients M = c :: rest ->
  cl s !! c = Some C -> Client.mon C = m ->
  c ∈ Monitor.stack M ->
  (forall t, t ∈ Monitor.stack M -> exists T, cl s !! t = Some T /\ Client.mon T = m) ->
  Monitor.seltags M = 0 \/ Monitor.seltags M = 1 ->
  exists l' nsel,
    unlink c (Monitor.stack M) = Some l'
    /\ (let s1 := put_mon s m (Monitor.set_clients M rest) in
        s2 ← detachstack s1 c;
        C ← cl s2 !! c;
        first ← head (mons s2);
        let s3 := put_client s2 c (Client.set_mon C first) in
        s4 ← attach s3 c;
        attachstack s4 c)
       = Some (set_mn (put_client s c (Client.set_mon C f))
                 (<[f := Monitor.set_stack
                           (Monitor.set_clients Mf (c :: Monitor.clients Mf))
                           (c :: Monitor.stack Mf)]>
                    (<[m := Monitor.set_sel
                              (Monitor.set_stack (Monitor.set_clients M rest) l') nsel]>
                       (mn s)))).
Proof.
  intros Hne Hhd HM HMf Hcl HC Hmon Hin Hst Hsel.
  destruct (unlink_total _ _ Hin) as [l' Hl'].
  set (s1 := put_mon s m (Monitor.set_clients M rest)).
  assert (HM1 : mn s1 !! m = Some (Monitor.set_clients M rest)) by apply lookup_insert_eq.
  destruct (detachstack_total s1 c C (Monitor.set_clients M rest)) as [s2 H2];
    try done; try (by rewrite Hmon).
  { intros t Ht. destruct (Hst t Ht) as (T & HT & HmT).
    eapply (ISVISIBLE_total s1 t T (Monitor.set_clients M rest));
      [exact HT| |exact Hsel]. rewrite HmT. exact HM1. }
  pose proof H2 as H2'.
  apply detachstack_inv in H2' as (C2 & M2 & l2 & nsel & HC2 & HM2 & Hl2 & _ & ->).
  change (cl s1) with (cl s) in HC2. rewrite HC in HC2. injection HC2 as <-.
  rewrite Hmon, HM1 in HM2. injection HM2 as <-.
  cbn [Monitor.stack Monitor.set_clients] in Hl2. rewrite Hl' in Hl2.
  injection Hl2 as <-.
  exists l', nsel. split; [done|]. cbv zeta. fold s1. rewrite H2.
  cbn [mbind option_bind]. rewrite Hmon.
  unfold attach, attachstack, s1, put_client, put_mon, set_cl, set_mn.
  cbn [cl mn mons mbind option_bind]. rewrite HC, Hhd.
  cbn [cl mn mons mbind option_bind]. rewrite lookup_insert_eq.
  cbn [cl mn mons mbind option_bind Client.mon Client.set_mon].
  rewrite !lookup_insert_ne by done. rewrite HMf.
  cbn [cl mn mons mbind option_bind]. rewrite !lookup_insert_eq.
  cbn [cl mn mons mbind option_bind Client.mon Client.set_mon].
  rewrite !lookup_insert_eq. cbn [mbind option_bind]. f_equal.
  cbn. f_equal. by rewrite !insert_insert_eq.
Qed.

Lemma migrate_unfold fuel s m dirty :
  migrate (S fuel) s m dirty
  = (M ← mn s !! m;
     match Monitor.clients M with
     | [] => Some (s, dirty)
     | c :: rest =>
         let s1 := put_mon s m (Monitor.set_clients M rest) in
         s2 ← detachstack s1 c;
         C ← cl s2 !! c;
         first ← head (mons s2);
         let s3 := put_client s2 c (Client.set_mon C first) in
         s4 ← attach s3 c;
         s5 ← attachstack s4 c;
         migrate fuel s5 m 1
     end).
Proof. reflexivity. Qed.

(** The loop of [migrate] empties the client list [l] of [m]: the clients
    arrive on both lists of the first monitor [f] in reverse order, and
    nothing else changes but the owner of the moved clients. *)
Lemma migrate_spec (l : list cid) :
  forall fuel s m f M Mf dirty,
    m <> f -> head (mons s) = Some f ->
    mn s !! m = Some M -> mn s !! f = Some Mf ->
    Monitor.clients M = l -> NoDup l -> NoDup (Monitor.stack M) ->
    (forall c, c ∈ l -> c ∈ Monitor.stack M) ->
    (forall t, t ∈ Monitor.stack M ->
       exists T, cl s !! t = Some T /\ Client.mon T = m) ->
    Monitor.seltags M = 0 \/ Monitor.seltags M = 1 ->
    (length l < fuel)%nat ->
    exists s' d,
      migrate fuel s m dirty = Some (s', d)
      /\ mons s' = mons s
      /\ selmon s' = selmon s
      /\ rootptr s' = rootptr s
      /\ is_Some (mn s' !! m)
      /\ mn s' !! f
         = Some (Monitor.set_stack
                   (Monitor.set_clients Mf (reverse l ++ Monitor.clients Mf))
                   (reverse l ++ Monitor.stack Mf))
      /\ (forall k, k <> m -> k <> f -> mn s' !! k = mn s !! k)
      /\ (forall k, cl s' !! k
                    = if decide (k ∈ l)
                      then (fun C => Client.set_mon C f) <$> cl s !! k
                      else cl s !! k).
Proof.
  induction l as [|c rest IH];
    intros fuel s m f M Mf dirty Hne Hhd HM HMf Hcl Hnd Hnds Hin Hown Hsel Hfuel.
  - destruct fuel as [|fuel]; [simpl in Hfuel; lia|].
    exists s, dirty. rewrite migrate_unfold, HM. cbn [mbind option_bind].
    rewrite Hcl. repeat split; try done.
    rewrite HMf. by destruct Mf.
  - destruct fuel as [|fuel]; [simpl in Hfuel; lia|].
    apply NoDup_cons in Hnd as [Hc Hnd].
    assert (HcS : c ∈ Monitor.stack M) by (apply Hin; left).
    destruct (Hown c HcS) as (C & HC & HmC).
    destruct (migrate_step s m f M Mf c rest C) as (l' & nsel & Hl' & Hstep);
      try done.
    destruct (unlink_NoDup _ _ _ Hl' Hnds) as [Hnd' Hc'].
    destruct (unlink_elem _ _ _ Hl') as [_ Hsub].
    set (M1 := Monitor.set_sel (Monitor.set_stack (Monitor.set_clients M rest) l') nsel).
    set (Mf1 := Monitor.set_stack
                  (Monitor.set_clients Mf (c :: Monitor.clients Mf))
                  (c :: Monitor.stack Mf)).
    set (s5 := set_mn (put_client s c (Client.set_mon C f))
                 (<[f := Mf1]> (<[m := M1]> (mn s)))).
    destruct (IH fuel s5 m f M1 Mf1 1) as
        (s' & d & Hrun & Hmons & Hselm & Hroot & Hm & Hf & Hoth & Hcls);
      try done.
    + unfold s5. cbn [mn set_mn]. rewrite lookup_insert_ne by done.
      apply lookup_insert_eq.
    + unfold s5. cbn [mn set_mn]. apply lookup_insert_eq.
    + intros k Hk. cbn [M1 Monitor.stack Monitor.set_sel Monitor.set_stack].
      eapply unlink_other; [exact Hl'|apply Hin; by right|].
      intros ->. done.
    + intros t Ht. cbn [M1 Monitor.stack Monitor.set_sel Monitor.set_stack] in Ht.
      destruct (Hown t (Hsub t Ht)) as (T & HT & HmT). exists T. split; [|done].
      unfold s5. cbn [cl set_mn put_client set_cl].
      rewrite lookup_insert_ne; [done|]. intros ->. done.
    + simpl in Hfuel. lia.
    + exists s', d. rewrite migrate_unfold, HM. cbn [mbind option_bind].
      rewrite Hcl. cbv zeta in Hstep.
      apply bind_Some in Hstep as (s2 & H2 & Hstep). rewrite H2.
      cbn [mbind option_bind].
      apply bind_Some in Hstep as (C2 & HC2 & Hstep). rewrite HC2.
      cbn [mbind option_bind].
      apply bind_Some in Hstep as (f2 & Hf2 & Hstep). rewrite Hf2.
      cbn [mbind option_bind].
      apply bind_Some in Hstep as (s4 & H4 & Hstep). cbv zeta. rewrite H4.
      cbn [mbind option_bind]. rewrite Hstep. cbn [mbind option_bind].
      fold M1 Mf1 s5. split; [exact Hrun|].
      repeat split; try done.
      * rewrite Hf, !reverse_cons, <- !app_assoc. unfold Mf1. by destruct Mf.
      * intros k Hkm Hkf. rewrite (Hoth k Hkm Hkf). unfold s5. cbn [mn set_mn].
        by rewrite !lookup_insert_ne.
      * intros k. rewrite Hcls. unfold s5. cbn [cl set_mn put_client set_cl].
        destruct (decide (k = c)) as [->|Hkc].
        -- rewrite lookup_insert_eq, HC.
           rewrite (decide_True (P := c ∈ c :: rest)) by left.
           by rewrite (decide_False (P := c ∈ rest)).
        -- rewrite lookup_insert_ne by done.
           destruct (decide (k ∈ rest)) as [Hk|Hk].
           ++ by rewrite (decide_True (P := k ∈ c :: rest)) by (by right).
           ++ rewrite (decide_False (P := k ∈ c :: rest)); [done|].
              intros [?|?]%elem_of_cons; done.
Qed.

Lemma remove_mons_unfold fuel k s dirty :
  remove_mons fuel (S k) s dirty
  = (m ← last (mons s);
     '(s1, dirty1) ← migrate fuel s m dirty;
     s2 ← (if decide (m = selmon s1)
           then first ← head (mons s1); Some (set_selmon s1 first)
           else Some s1);
     s3 ← cleanupmon s2 m;
     remove_mons fuel k s3 dirty1).
Proof. reflexivity. Qed.

Lemma unlink_last (m : mid) (pre : list mid) :
  m ∉ pre -> unlink m (pre ++ [m]) = Some pre.
Proof.
  induction pre as [|a pre IH]; intros Hm; simpl.
  - by rewrite decide_True.
  - rewrite decide_False by (intros ->; apply Hm; left).
    rewrite IH; [done|]. intros H. apply Hm. by right.
Qed.

Lemma moved_snoc s rem m :
  moved s (rem ++ [m]) = moved s rem ++ reverse (clients_of s m).
Proof.
  unfold moved. rewrite map_app, concat_app. simpl. by rewrite app_nil_r.
Qed.

Lemma moved_ext s s' rem :
  (forall m, m ∈ rem -> mn s' !! m = mn s !! m) -> moved s' rem = moved s rem.
Proof.
  intros H. unfold moved. f_equal. apply map_ext_in. intros m Hm.
  unfold clients_of. rewrite H; [done|]. by apply list_elem_of_In.
Qed.

Lemma NoDup_reverse (l : list cid) : NoDup l -> NoDup (reverse l).
Proof. by rewrite reverse_Permutation. Qed.

Lemma set_mon_twice (o : option Client.t) (f : mid) :
  (fun C => Client.set_mon C f) <$> ((fun C => Client.set_mon C f) <$> o)
  = (fun C => Client.set_mon C f) <$> o.
Proof. by destruct o as [[]|]. Qed.

(** One turn of the loop of [remove_mons]: the last monitor [m] gives its
    clients to the first monitor [f] and its record is freed. *)
Lemma remove_last_spec fuel s f pre m Mf dirty :
  registry_ok s -> mons s = f :: pre ++ [m] ->
  (length (clients_of s m) < fuel)%nat ->
  mn s !! f = Some Mf ->
  exists s3 d1,
    (forall k, remove_mons fuel (S k) s dirty = remove_mons fuel k s3 d1)
    /\ registry_ok s3
    /\ mons s3 = f :: pre
    /\ rootptr s3 = rootptr s
    /\ mn s3 !! m = None
    /\ (forall k, k <> m -> k <> f -> mn s3 !! k = mn s !! k)
    /\ mn s3 !! f
       = Some (Monitor.set_stack
                 (Monitor.set_clients Mf (reverse (clients_of s m) ++ Monitor.clients Mf))
                 (reverse (clients_of s m) ++ Monitor.stack Mf))
    /\ (forall k, cl s3 !! k
                  = if decide (k ∈ clients_of s m)
                    then (fun C => Client.set_mon C f) <$> cl s !! k
                    else cl s !! k).
Proof.
  intros [Hnd Hreg] Hmons Hfuel HMf.
  assert (Hlast : last (mons s) = Some m).
  { rewrite Hmons, app_comm_cons. apply last_snoc. }
  assert (Hnd' := Hnd). rewrite Hmons, app_comm_cons in Hnd'.
  apply NoDup_app in Hnd' as (Hndp & Hdisj & _).
  assert (Hmp : m ∉ f :: pre).
  { intros H. apply (Hdisj m H). left. }
  assert (Hmf : m <> f).
  { intros ->. apply Hmp. left. }
  destruct (Hreg m) as (M & HM & [Hsel HndC HndS Hlist Hown]).
  { rewrite Hmons, app_comm_cons. apply elem_of_app. right. left. }
  destruct (Hreg f) as (Mf0 & HMf0 & [Hself HndCf HndSf Hlistf Hownf]).
  { rewrite Hmons. left. }
  rewrite HMf in HMf0. injection HMf0 as <-.
  assert (Hcm : clients_of s m = Monitor.clients M).
  { unfold clients_of. by rewrite HM. }
  rewrite Hcm in Hfuel |- *.
  destruct (migrate_spec (Monitor.clients M) fuel s m f M Mf dirty) as
      (s1 & d1 & Hrun & Hmons1 & Hselm1 & Hroot1 & _ & Hf1 & Hoth1 & Hcl1);
    try done.
  { by rewrite Hmons. }
  set (s2 := if decide (m = selmon s1) then set_selmon s1 f else s1).
  assert (Hs2 : (if decide (m = selmon s1)
                 then first ← head (mons s1); Some (set_selmon s1 first)
                 else Some s1) = Some s2).
  { unfold s2. destruct (decide _); [|done]. by rewrite Hmons1, Hmons. }
  assert (Hcl2 : cl s2 = cl s1) by (unfold s2; by destruct (decide _)).
  assert (Hmn2 : mn s2 = mn s1) by (unfold s2; by destruct (decide _)).
  assert (Hmons2 : mons s2 = mons s1) by (unfold s2; by destruct (decide _)).
  assert (Hroot2 : rootptr s2 = rootptr s1) by (unfold s2; by destruct (decide _)).
  set (s3 := set_mn (set_mons s2 (f :: pre)) (delete m (mn s2))).
  assert (Hclean : cleanupmon s2 m = Some s3).
  { unfold cleanupmon. rewrite Hmons2, Hmons1, Hmons, app_comm_cons.
    by rewrite (unlink_last m (f :: pre) Hmp). }
  assert (Hcl3 : forall k, cl s3 !! k
                 = if decide (k ∈ Monitor.clients M)
                   then (fun C => Client.set_mon C f) <$> cl s !! k
                   else cl s !! k).
  { intros k. unfold s3. cbn [cl set_mn set_mons]. by rewrite Hcl2. }
  assert (Hf3 : mn s3 !! f
          = Some (Monitor.set_stack
                    (Monitor.set_clients Mf (reverse (Monitor.clients M) ++ Monitor.clients Mf))
                    (reverse (Monitor.clients M) ++ Monitor.stack Mf))).
  { unfold s3. cbn [mn set_mn set_mons]. rewrite lookup_delete_ne by done.
    by rewrite Hmn2. }
  assert (Hoth3 : forall k, k <> m -> k <> f -> mn s3 !! k = mn s !! k).
  { intros k Hkm Hkf. unfold s3. cbn [mn set_mn set_mons].
    rewrite lookup_delete_ne by done. rewrite Hmn2. by apply Hoth1. }
  assert (Hkeep : forall t T m2, m2 <> m -> cl s !! t = Some T -> Client.mon T = m2 ->
                  cl s3 !! t = Some T).
  { intros t T m2 Hm2 HT HmT. rewrite Hcl3, decide_False; [done|].
    intros Ht. destruct (Hown t (Hlist t Ht)) as (T' & HT' & HmT').
    rewrite HT in HT'. injection HT' as <-. congruence. }
  exists s3, d1. split; [|split; [|repeat split]]; try done.
  - intros k. rewrite remove_mons_unfold, Hlast. cbn [mbind option_bind].
    rewrite Hrun. cbn [mbind option_bind]. rewrite Hs2. cbn [mbind option_bind].
    rewrite Hclean. done.
  - split; [done|]. intros m2 Hm2. change (mons s3) with (f :: pre) in Hm2.
    assert (Hm2m : m2 <> m) by (intros ->; done).
    destruct (decide (m2 = f)) as [->|Hm2f].
    + eexists. split; [exact Hf3|]. split; cbn.
      * done.
      * apply NoDup_app. split; [by apply NoDup_reverse|]. split; [|done].
        intros c Hc Hc'. rewrite elem_of_reverse in Hc.
        destruct (Hown c (Hlist c Hc)) as (T & HT & HmT).
        destruct (Hownf c (Hlistf c Hc')) as (T' & HT' & HmT').
        rewrite HT in HT'. injection HT' as <-. congruence.
      * apply NoDup_app. split; [by apply NoDup_reverse|]. split; [|done].
        intros c Hc Hc'. rewrite elem_of_reverse in Hc.
        destruct (Hown c (Hlist c Hc)) as (T & HT & HmT).
        destruct (Hownf c Hc') as (T' & HT' & HmT').
        rewrite HT in HT'. injection HT' as <-. congruence.
      * intros c [Hc|Hc]%elem_of_app; apply elem_of_app; [by left|right; auto].
      * intros t [Ht|Ht]%elem_of_app.
        -- rewrite elem_of_reverse in Ht.
           destruct (Hown t (Hlist t Ht)) as (T & HT & HmT).
           exists (Client.set_mon T f). split; [|done].
           by rewrite Hcl3, decide_True, HT.
        -- destruct (Hownf t Ht) as (T & HT & HmT). exists T. split; [|done].
           by eapply Hkeep.
    + destruct (Hreg m2) as (M2 & HM2 & [Hsel2 HndC2 HndS2 Hlist2 Hown2]).
      { rewrite Hmons, app_comm_cons. apply elem_of_app. by left. }
      exists M2. split; [by rewrite Hoth3|]. split; try done.
      intros t Ht. destruct (Hown2 t Ht) as (T & HT & HmT). exists T.
      split; [|done]. by eapply Hkeep.
  - unfold s3. cbn [rootptr set_mn set_mons]. by rewrite Hroot2.
  - unfold s3. cbn [mn set_mn set_mons]. apply lookup_delete_eq.
Qed.

(** The loop of [remove_mons] over the monitors [rem] at the end of the
    list. *)
Lemma remove_mons_spec (rem : list mid) :
  forall fuel s f keep Mf dirty,
    registry_ok s -> mons s = f :: keep ++ rem ->
    (forall m, m ∈ rem -> (length (clients_of s m) < fuel)%nat) ->
    mn s !! f = Some Mf ->
    exists s' d,
      remove_mons fuel (length rem) s dirty = Some (s', d)
      /\ registry_ok s'
      /\ mons s' = f :: keep
      /\ rootptr s' = rootptr s
      /\ (forall m, m ∈ rem -> mn s' !! m = None)
      /\ (forall k, k ∉ rem -> k <> f -> mn s' !! k = mn s !! k)
      /\ mn s' !! f
         = Some (Monitor.set_stack
                   (Monitor.set_clients Mf (moved s rem ++ Monitor.clients Mf))
                   (moved s rem ++ Monitor.stack Mf))
      /\ (forall k, cl s' !! k
                    = if decide (k ∈ moved s rem)
                      then (fun C => Client.set_mon C f) <$> cl s !! k
                      else cl s !! k).
Proof.
  induction rem as [|m rem IH] using rev_ind;
    intros fuel s f keep Mf dirty Hok Hmons Hfuel HMf.
  - exists s, dirty. rewrite app_nil_r in Hmons. simpl.
    split; [done|]. split; [done|]. split; [done|]. split; [done|].
    split; [|split; [done|split; [|done]]].
    + intros m Hm. by apply elem_of_nil in Hm.
    + rewrite HMf. by destruct Mf.
  - rewrite app_assoc in Hmons.
    destruct (remove_last_spec fuel s f (keep ++ rem) m Mf dirty) as
        (s3 & d1 & Hrun & Hok3 & Hmons3 & Hroot3 & Hm3 & Hoth3 & Hf3 & Hcl3);
      try done.
    { apply Hfuel. apply elem_of_app. right. left. }
    assert (Hnd := reg_nodup _ Hok). rewrite Hmons, app_comm_cons in Hnd.
    apply NoDup_app in Hnd as (Hndp & Hdisj & _).
    assert (Hrem : forall m2, m2 ∈ rem -> m2 <> m /\ m2 <> f).
    { intros m2 Hm2. split.
      - intros ->. apply (Hdisj m); [|left]. right. apply elem_of_app. by right.
      - intros ->. apply NoDup_cons in Hndp as [Hf _]. apply Hf.
        apply elem_of_app. by right. }
    assert (Hsame : forall m2, m2 ∈ rem -> mn s3 !! m2 = mn s !! m2).
    { intros m2 Hm2. destruct (Hrem m2 Hm2). by apply Hoth3. }
    assert (Hfuel3 : forall m2, m2 ∈ rem -> (length (clients_of s3 m2) < fuel)%nat).
    { intros m2 Hm2. unfold clients_of. rewrite Hsame by done.
      apply Hfuel. apply elem_of_app. by left. }
    destruct (IH fuel s3 f keep _ d1 Hok3 Hmons3 Hfuel3 Hf3) as
        (s' & d & Hrun' & Hok' & Hmons' & Hroot' & Hgone & Hoth & Hf & Hcl).
    rewrite (moved_ext s s3 rem Hsame) in Hf, Hcl.
    exists s', d. rewrite length_app, Nat.add_1_r, Hrun, moved_snoc.
    split; [done|]. split; [exact Hok'|]. split; [done|].
    split; [congruence|]. split; [|split; [|split]].
    + intros m2 [Hm2|Hm2]%elem_of_app.
      * by apply Hgone.
      * apply list_elem_of_singleton in Hm2 as ->.
        destruct (decide (m ∈ rem)) as [Hin|Hin]; [by apply Hgone|].
        rewrite Hoth; [done|done|]. intros ->. apply (Hdisj f); left.
    + intros k Hk Hkf. rewrite Hoth; [|by intros ?; apply Hk, elem_of_app; left|done].
      apply Hoth3; [|done]. intros ->. apply Hk, elem_of_app. right. left.
    + rewrite Hf. cbn. by rewrite <- !app_assoc.
    + intros k. rewrite Hcl, Hcl3.
      destruct (decide (k ∈ moved s rem)) as [H1|H1];
        destruct (decide (k ∈ clients_of s m)) as [H2|H2].
      * rewrite decide_True by (apply elem_of_app; by left). apply set_mon_twice.
      * by rewrite decide_True by (apply elem_of_app; by left).
      * by rewrite decide_True by (apply elem_of_app; right; by apply elem_of_reverse).
      * rewrite decide_False; [done|].
        intros [H|H]%elem_of_app; [done|]. by rewrite elem_of_reverse in H.
Qed.

Lemma recttomon_loop_total s (l : list mid) x y w h r a :
  (forall m, m ∈ l -> is_Some (mn s !! m)) ->
  is_Some (recttomon_loop s l x y w h r a).
Proof.
  revert r a. induction l as [|m l IH]; intros r a Hall; simpl; [eauto|].
  destruct (Hall m) as [M ->]; [left|]. cbn [mbind option_bind].
  destruct (_ <? _); apply IH; intros k Hk; apply Hall; by right.
Qed.

Lemma elem_of_moved s (rem : list mid) c :
  c ∈ moved s rem <-> exists m, m ∈ rem /\ c ∈ clients_of s m.
Proof.
  unfold moved. rewrite list_elem_of_In, in_concat. split.
  - intros (l & Hl & Hc). apply in_map_iff in Hl as (m & <- & Hm).
    exists m. split; [by apply list_elem_of_In|].
    apply elem_of_reverse. by apply list_elem_of_In.
  - intros (m & Hm & Hc). exists (reverse (clients_of s m)). split.
    + apply in_map_iff. exists m. split; [done|]. by apply list_elem_of_In.
    + apply list_elem_of_In. by apply elem_of_reverse.
Qed.

(** C2, as amended.  When Xinerama reports fewer screens than there are
    monitors, and at least one, [updategeom] returns; the monitors [rem]
    beyond the screens are freed; their clients are put in front of both
    lists of the first monitor [f], the client list of each monitor in
    reverse order; the owner of each moved client is [f], no other field
    of a client changes and no client is freed. *)
Theorem updategeom_fewer_outputs fuel s info f keep rem Mf :
  registry_ok s ->
  mons s = f :: keep ++ rem ->
  rem <> [] ->
  length (unique_screens [] info) = S (length keep) ->
  (forall m, m ∈ rem -> (length (clients_of s m) < fuel)%nat) ->
  mn s !! f = Some Mf ->
  exists s' d,
    updategeom cfg fuel s (Some info) = Some (s', d)
    /\ mons s' = f :: keep
    /\ (forall m, m ∈ rem -> mn s' !! m = None)
    /\ mn s' !! f
       = Some (Monitor.set_stack
                 (Monitor.set_clients Mf (moved s rem ++ Monitor.clients Mf))
                 (moved s rem ++ Monitor.stack Mf))
    /\ (forall m c, m ∈ rem -> c ∈ clients_of s m ->
          exists C, cl s !! c = Some C /\ cl s' !! c = Some (Client.set_mon C f))
    /\ (forall k, k ∉ moved s rem -> cl s' !! k = cl s !! k)
    /\ (forall k, is_Some (cl s' !! k) <-> is_Some (cl s !! k)).
Proof.
  intros Hok Hmons Hrem Hnn Hfuel HMf.
  destruct (remove_mons_spec rem fuel s f keep Mf 0 Hok Hmons Hfuel HMf) as
      (s1 & d & Hrun & Hok1 & Hmons1 & Hroot1 & Hgone & Hoth & Hf & Hcl).
  assert (Hlen : length (mons s) = (S (length keep) + length rem)%nat).
  { rewrite Hmons. simpl. by rewrite length_app. }
  assert (Hpos : (0 < length rem)%nat).
  { destruct rem; [done|simpl; lia]. }
  assert (Hfin : exists s', (if truthy d
                             then first ← head (mons s1);
                                  let s2 := set_selmon s1 first in
                                  m ← wintomon_root s2;
                                  Some (set_selmon s2 m, d)
                             else Some (s1, d)) = Some (s', d)
                            /\ cl s' = cl s1 /\ mn s' = mn s1 /\ mons s' = mons s1).
  { destruct (truthy d); [|by exists s1].
    rewrite Hmons1. cbn [head mbind option_bind]. cbv zeta.
    assert (Hw : is_Some (wintomon_root (set_selmon s1 f))).
    { unfold wintomon_root. destruct (rootptr _) as [[x y]|]; [|eauto].
      apply recttomon_loop_total. intros m Hm.
      destruct (reg_mon _ Hok1 m Hm) as (M & HM & _). eauto. }
    destruct Hw as [m ->]. cbn [mbind option_bind]. by eexists. }
  destruct Hfin as (s' & Hfin & Hcl' & Hmn' & Hmons').
  exists s', d. split.
  { unfold updategeom. rewrite Hnn, Hlen.
    replace (S (length keep) + length rem <=? S (length keep))%nat with false
      by (symmetry; apply Nat.leb_gt; lia).
    replace (S (length keep) + length rem - S (length keep))%nat
      with (length rem) by lia.
    rewrite Hrun. cbn [mbind option_bind]. exact Hfin. }
  rewrite Hcl', Hmn', Hmons'. split; [done|]. split; [done|]. split; [done|].
  split; [|split].
  - intros m c Hm Hc.
    destruct (reg_mon _ Hok m) as (M & HM & [_ _ _ Hlist Hown]).
    { rewrite Hmons. right. apply elem_of_app. by right. }
    unfold clients_of in Hc. rewrite HM in Hc.
    destruct (Hown c (Hlist c Hc)) as (C & HC & _). exists C. split; [done|].
    rewrite Hcl, decide_True, HC; [done|].
    apply elem_of_moved. exists m. split; [done|]. unfold clients_of. by rewrite HM.
  - intros k Hk. by rewrite Hcl, decide_False.
  - intros k. rewrite Hcl. destruct (decide _); [|done].
    by rewrite fmap_is_Some.
Qed.

End GeomFacts.

(** ** Termination without animation

    With [animated = 0] the function [animateclient] does not call
    itself, and arranging a monitor returns whenever the records it
    dereferences are allocated. *)

Section Termination.
Context (cfg : Config).
Variable ease : Z -> Z -> Z -> Z -> Z.
Variable clientcount : State -> Z.
Implicit Types s : State.
Implicit Types C : Client.t.
Implicit Types M : Monitor.t.

Lemma untiled_total s t T M :
  cl s !! t = Some T -> mn s !! Client.mon T = Some M ->
  Monitor.seltags M = 0 \/ Monitor.seltags M = 1 ->
  is_Some (untiled s t).
Proof. intros HT HM Hsel. by eapply ISVISIBLE_untiled, ISVISIBLE_total. Qed.

(** The clients on the lists of a monitor that is ready can be resized. *)
Lemma arr_ready_resize s m M t :
  arr_ready cfg s m -> mn s !! m = Some M ->
  t ∈ Monitor.clients M \/ t ∈ Monitor.stack M ->
  can_resize cfg s t /\ is_Some (untiled s t).
Proof.
  intros [_ (M0 & L & HM0 & HL & Hsel & Hown)] HM Ht.
  rewrite HM in HM0. injection HM0 as <-.
  destruct (Hown t Ht) as (T & HT & HmT).
  assert (Hall : forall t', t' ∈ Monitor.clients M -> is_Some (untiled s t')).
  { intros t' Ht'. destruct (Hown t' (or_introl Ht')) as (T' & HT' & HmT').
    eapply untiled_total; [exact HT'| |exact Hsel]. by rewrite HmT'. }
  split.
  - exists T, M, L. rewrite HmT. done.
  - eapply untiled_total; [exact HT| |exact Hsel]. by rewrite HmT.
Qed.

Lemma arr_ready_arr s s' m :
  same_arr s s' -> arr_ready cfg s m -> arr_ready cfg s' m.
Proof.
  intros Ha [Hst (M & L & HM & HL & Hsel & Hown)].
  destruct (same_arr_mn _ _ _ _ Ha HM) as (M' & HM' & HU).
  destruct (unsym_fields _ _ HU) as (Est & _).
  pose proof (unsym_mstatic _ _ HU) as HS.
  destruct (mstatic_fields _ _ HS) as (_ & Esel & _ & _ & Ecl & _).
  split; [by rewrite (sa_animated _ _ Ha)|].
  exists M', L. rewrite (cur_layout_static cfg _ _ HS), Esel, Ecl, Est.
  repeat split; try done.
  intros t Ht. destruct (Hown t Ht) as (T & HT & HmT).
  destruct (same_static_cl _ _ _ _ (same_arr_static _ _ Ha) HT) as (T' & HT' & HC).
  destruct (cstatic_fields _ _ HC) as (_ & _ & Em & _).
  exists T'. by rewrite Em.
Qed.

Lemma animateclient_still fuel s c x y w h frames r :
  (1 <= fuel)%nat -> animated s = 0 -> can_resize cfg s c ->
  is_Some (animateclient cfg ease fuel s c x y w h frames r).
Proof.
  intros Hfuel Hst Hc. destruct fuel as [|fuel]; [lia|].
  pose proof Hc as (C & M & L & HC & HM & HL & Hall).
  cbn [animateclient]. rewrite HC. cbn [mbind option_bind]. rewrite Hst.
  change (truthy 0) with false. cbn [andb mbind option_bind].
  destruct r; by apply resize_total.
Qed.

Lemma walkable_arr s s' l : same_arr s s' -> walkable cfg s l -> walkable cfg s' l.
Proof.
  intros Ha [Hst Hall]. split; [by rewrite (sa_animated _ _ Ha)|].
  intros t Ht. destruct (Hall t Ht) as [Hc Hu]. split.
  - eapply can_resize_static; [by apply same_arr_static|done].
  - by rewrite (untiled_static _ _ t (same_arr_static _ _ Ha)).
Qed.

Lemma walkable_tail s t l : walkable cfg s (t :: l) -> walkable cfg s l.
Proof. intros [Hst Hall]. split; [done|]. intros k Hk. apply Hall. by right. Qed.

(** One client of a layout loop: the test of [nexttiled] has a value;
    when the client is tiled its record is there, [animateclient]
    returns, and the rest of the list can be walked in the new state. *)
Lemma walkable_step fuel s t l :
  (1 <= fuel)%nat -> walkable cfg s (t :: l) ->
  exists u, untiled s t = Some u
    /\ (u = false ->
        exists C, cl s !! t = Some C
          /\ forall x y w h fr,
               exists s' C',
                 animateclient cfg ease fuel s t x y w h fr false = Some s'
                 /\ cl s' !! t = Some C' /\ walkable cfg s' l).
Proof.
  intros Hfuel Hw. pose proof Hw as [Hst Hall].
  destruct (Hall t) as [Hc [u Hu]]; [left|]. exists u. split; [done|]. intros _.
  pose proof Hc as (C & M & L & HC & _). exists C. split; [done|].
  intros x y w h fr.
  destruct (animateclient_still fuel s t x y w h fr false Hfuel Hst Hc) as [s' Hs'].
  pose proof (animateclient_arr _ _ _ _ _ _ _ _ _ _ _ _ Hs') as Ha.
  destruct (same_static_cl _ _ _ _ (same_arr_static _ _ Ha) HC) as (C' & HC' & _).
  exists s', C'. split; [done|]. split; [done|].
  eapply walkable_arr; [exact Ha|]. by eapply walkable_tail.
Qed.

(** The step of a loop, on the goal: the test is rewritten, the record
    and the call of [animateclient] are resolved. *)
Ltac walk_step Hfuel Hw IH :=
  let u := fresh "u" in let Hu := fresh "Hu" in let Hgo := fresh "Hgo" in
  let C := fresh "C" in let HC := fresh "HC" in let Hrun := fresh "Hrun" in
  destruct (walkable_step _ _ _ _ Hfuel Hw) as (u & Hu & Hgo);
  rewrite Hu; cbn [mbind option_bind];
  destruct u; [apply IH; [done|by eapply walkable_tail]|];
  destruct (Hgo eq_refl) as (C & HC & Hrun);
  rewrite HC; cbn [mbind option_bind];
  repeat match goal with
    | |- context [if ?b then _ else _] => destruct b
    end;
  match goal with
  | |- is_Some (animateclient _ _ _ _ _ ?x ?y ?w ?h ?fr false ≫= _) =>
      let s' := fresh "s'" in let C' := fresh "C'" in
      let H1 := fresh "H1" in let H2 := fresh "H2" in let H3 := fresh "H3" in
      destruct (Hrun x y w h fr) as (s' & C' & H1 & H2 & H3);
      rewrite H1; cbn [mbind option_bind]; rewrite ?H2; cbn [mbind option_bind];
      by apply IH
  end.

Lemma tile_loop_total fuel M n mw fc (l : list cid) :
  forall s i my ty,
    (1 <= fuel)%nat -> walkable cfg s l ->
    is_Some (tile_loop cfg ease fuel s M n mw fc l i my ty).
Proof.
  induction l as [|t l IH]; intros s i my ty Hfuel Hw; cbn [tile_loop]; [eauto|].
  walk_step Hfuel Hw IH.
Qed.

Lemma monocle_loop_total fuel M (l : list cid) :
  forall s, (1 <= fuel)%nat -> walkable cfg s l ->
            is_Some (monocle_loop cfg ease fuel s M l).
Proof.
  induction l as [|t l IH]; intros s Hfuel Hw; cbn [monocle_loop]; [eauto|].
  walk_step Hfuel Hw IH.
Qed.

Lemma bstack_loop_total fuel M n mh tw ty (l : list cid) :
  forall s i mx tx,
    (1 <= fuel)%nat -> walkable cfg s l ->
    is_Some (bstack_loop cfg ease fuel s M n mh tw ty l i mx tx).
Proof.
  induction l as [|t l IH]; intros s i mx tx Hfuel Hw; cbn [bstack_loop]; [eauto|].
  walk_step Hfuel Hw IH.
Qed.

Lemma bstackhoriz_loop_total fuel M n mh th tx (l : list cid) :
  forall s i mx ty,
    (1 <= fuel)%nat -> walkable cfg s l ->
    is_Some (bstackhoriz_loop cfg ease fuel s M n mh th tx l i mx ty).
Proof.
  induction l as [|t l IH]; intros s i mx ty Hfuel Hw; cbn [bstackhoriz_loop]; [eauto|].
  walk_step Hfuel Hw IH.
Qed.

Lemma count_tiled_total s (l : list cid) :
  (forall t, t ∈ l -> is_Some (untiled s t)) -> is_Some (count_tiled s l).
Proof.
  induction l as [|t l IH]; intros H; simpl; [eauto|].
  destruct (H t) as [u ->]; [left|]. cbn [mbind option_bind].
  destruct IH as [n ->]; [|cbn; eauto]. intros k Hk. apply H. by right.
Qed.

Lemma arr_ready_walkable s m M :
  arr_ready cfg s m -> mn s !! m = Some M -> walkable cfg s (Monitor.clients M).
Proof.
  intros Hr HM. split; [apply Hr|]. intros t Ht.
  eapply arr_ready_resize; [exact Hr|exact HM|by left].
Qed.

Lemma walkable_untiled s (l : list cid) :
  walkable cfg s l -> forall t, t ∈ l -> is_Some (untiled s t).
Proof. intros [_ H] t Ht. by destruct (H t Ht). Qed.

Lemma tile_total fuel s m :
  (1 <= fuel)%nat -> arr_ready cfg s m ->
  is_Some (tile cfg ease clientcount fuel s m).
Proof.
  intros Hfuel Hr. pose proof Hr as [_ (M & L & HM & _)].
  pose proof (arr_ready_walkable s m M Hr HM) as Hw.
  unfold tile. rewrite HM. cbn [mbind option_bind].
  destruct (count_tiled_total s _ (walkable_untiled _ _ Hw)) as [n ->].
  cbn [mbind option_bind]. destruct (n =? 0); [eauto|].
  by apply tile_loop_total.
Qed.

Lemma bstack_total fuel s m :
  (1 <= fuel)%nat -> arr_ready cfg s m ->
  is_Some (bstack cfg ease fuel s m).
Proof.
  intros Hfuel Hr. pose proof Hr as [_ (M & L & HM & _)].
  pose proof (arr_ready_walkable s m M Hr HM) as Hw.
  unfold bstack. rewrite HM. cbn [mbind option_bind].
  destruct (count_tiled_total s _ (walkable_untiled _ _ Hw)) as [n ->].
  cbn [mbind option_bind]. destruct (n =? 0); [eauto|].
  destruct (u32 (Monitor.nmaster M) <? n); by apply bstack_loop_total.
Qed.

Lemma bstackhoriz_total fuel s m :
  (1 <= fuel)%nat -> arr_ready cfg s m ->
  is_Some (bstackhoriz cfg ease fuel s m).
Proof.
  intros Hfuel Hr. pose proof Hr as [_ (M & L & HM & _)].
  pose proof (arr_ready_walkable s m M Hr HM) as Hw.
  unfold bstackhoriz. rewrite HM. cbn [mbind option_bind].
  destruct (count_tiled_total s _ (walkable_untiled _ _ Hw)) as [n ->].
  cbn [mbind option_bind]. destruct (n =? 0); [eauto|].
  destruct (u32 (Monitor.nmaster M) <? n); by apply bstackhoriz_loop_total.
Qed.

Lemma monocle_total fuel s m :
  (1 <= fuel)%nat -> arr_ready cfg s m ->
  is_Some (monocle cfg ease fuel s m).
Proof.
  intros Hfuel Hr. pose proof Hr as [_ (M & L & HM & HL & Hsel & Hown)].
  pose proof (arr_ready_walkable s m M Hr HM) as Hw.
  unfold monocle. rewrite HM. cbn [mbind option_bind].
  destruct (count_visible_total s (Monitor.clients M)) as [n ->].
  { intros t Ht. destruct (Hown t (or_introl Ht)) as (T & HT & HmT).
    eapply ISVISIBLE_total; [exact HT| |exact Hsel]. by rewrite HmT. }
  cbn [mbind option_bind]. destruct (0 <? n); [|by apply monocle_loop_total].
  apply monocle_loop_total; [done|].
  eapply walkable_arr; [|exact Hw]. by eapply same_arr_put_mon.
Qed.

Lemma arrangemon_total fuel s m :
  (1 <= fuel)%nat -> arr_ready cfg s m ->
  is_Some (arrangemon cfg ease clientcount fuel s m).
Proof.
  intros Hfuel Hr. pose proof Hr as [_ (M & L & HM & HL & _)].
  unfold arrangemon. rewrite HM. cbn [mbind option_bind]. rewrite HL.
  cbn [mbind option_bind].
  destruct (arrange_of L) as [f|]; [|eauto].
  assert (Hr1 : arr_ready cfg (put_mon s m (Monitor.set_ltsymbol M (strncpy16 (symbol L)))) m).
  { eapply arr_ready_arr; [|exact Hr]. by eapply same_arr_put_mon. }
  destruct f; unfold run_layout;
    [by apply tile_total|by apply monocle_total
    |by apply bstack_total|by apply bstackhoriz_total].
Qed.

Lemma showhide_total (l : list cid) :
  forall s m M,
    arr_ready cfg s m -> mn s !! m = Some M ->
    (forall t, t ∈ l -> t ∈ Monitor.stack M) ->
    is_Some (showhide cfg s l).
Proof.
  induction l as [|t l IH]; intros s m M Hr HM Hsub; cbn [showhide]; [eauto|].
  pose proof Hr as [_ (M0 & L & HM0 & HL & Hsel & Hown)].
  rewrite HM in HM0. injection HM0 as <-.
  assert (Ht : t ∈ Monitor.stack M) by (apply Hsub; left).
  destruct (Hown t (or_intror Ht)) as (T & HT & HmT).
  destruct (ISVISIBLE_total s t T M HT) as [v Hv]; [by rewrite HmT|done|].
  rewrite Hv. cbn [mbind option_bind].
  assert (Hrest : forall k, k ∈ l -> k ∈ Monitor.stack M)
    by (intros k Hk; apply Hsub; by right).
  destruct v; [|by eapply IH].
  rewrite HT. cbn [mbind option_bind]. rewrite HmT, HM. cbn [mbind option_bind].
  rewrite HL. cbn [mbind option_bind].
  match goal with |- context [if ?b then _ else _] => destruct b end;
    [|cbn [mbind option_bind]; by eapply IH].
  destruct (arr_ready_resize s m M t Hr HM (or_intror Ht)) as [Hc _].
  destruct (resize_total cfg s t (Client.x T) (Client.y T) (Client.w T) (Client.h T)
              false Hc) as [s1 H1].
  rewrite H1. cbn [mbind option_bind].
  pose proof (resize_arr _ _ _ _ _ _ _ _ _ H1) as Ha.
  destruct (same_arr_mn _ _ _ _ Ha HM) as (M1 & HM1 & HU).
  destruct (unsym_fields _ _ HU) as (Est & _).
  eapply (IH s1 m M1); [by eapply arr_ready_arr|done|by rewrite Est].
Qed.

(** [arrange(m)] returns. *)
Lemma arrange_total fuel s m :
  (1 <= fuel)%nat -> arr_ready cfg s m ->
  is_Some (arrange cfg ease clientcount fuel s (Some m)).
Proof.
  intros Hfuel Hr. pose proof Hr as [_ (M & L & HM & _)].
  unfold arrange. rewrite HM. cbn [mbind option_bind].
  destruct (showhide_total (Monitor.stack M) s m M Hr HM) as [s1 H1]; [done|].
  rewrite H1. cbn [mbind option_bind].
  apply arrangemon_total; [done|].
  eapply arr_ready_arr; [|exact Hr]. by eapply showhide_arr.
Qed.

End Termination.

(** ** Termination with animation

    With [animated] set, a call of [animateclient] with a width and a
    height that are not zero is at most two calls deep.  Monocle
    proposes the window area less the border to every client; the other
    layouts do so for a client that is the only tiled one. *)

Section AnimatedTermination.
Context (cfg : Config).
Variable ease : Z -> Z -> Z -> Z -> Z.
Variable clientcount : State -> Z.
Implicit Types s : State.
Implicit Types C : Client.t.
Implicit Types M : Monitor.t.

(** A call with an empty size that keeps the position of a client wider
    than ten pixels and narrower than the selected monitor less fifty
    pixels never returns, whatever the fuel: [animateclient] calls
    itself with the same arguments. *)
Lemma animateclient_empty_size_diverges fuel s c C SM frames :
  cl s !! c = Some C -> mn s !! selmon s = Some SM ->
  animated s <> 0 -> 10 < Client.w C -> Client.w C < Monitor.mw SM - 50 ->
  animateclient cfg ease fuel s c (Client.x C) (Client.y C) 0 0 frames false = None.
Proof.
  intros HC HSM Han Hw Hn. induction fuel as [|fuel IH]; [done|].
  cbn [animateclient]. rewrite HC. cbn [mbind option_bind].
  change (truthy 0) with false. cbv iota.
  assert (E1 : truthy (animated s) = true).
  { unfold truthy. by destruct (Z.eqb_spec (animated s) 0). }
  assert (E2 : (10 <? Z.abs (0 - Client.w C)) = true) by (apply Z.ltb_lt; lia).
  rewrite E1, E2, !Z.eqb_refl, HSM. cbn [andb orb mbind option_bind].
  rewrite !orb_true_r. cbn [mbind option_bind].
  assert (E3 : (Client.w C <? Monitor.mw SM - 50) = true) by (by apply Z.ltb_lt).
  rewrite E3. rewrite !Z.sub_diag, !Z.add_0_r, IH. done.
Qed.

Lemma nonfloating_static s s' (l : list cid) :
  same_static s s' -> nonfloating s' l = nonfloating s l.
Proof.
  intros Hs. unfold nonfloating. apply list_filter_iff. intros c.
  assert (E : Client.isfloating <$> cl s' !! c = Client.isfloating <$> cl s !! c).
  { pose proof (ss_cl _ _ Hs c) as H.
    destruct (cl s' !! c) as [C'|], (cl s !! c) as [C|];
      cbn [fmap option_fmap option_map] in *; try done.
    apply (inj Some) in H.
    by destruct (cstatic_fields _ _ H) as (_ & _ & _ & _ & -> & _). }
  by rewrite E.
Qed.

Lemma border_fits_static s s' M t :
  same_static s s' -> border_fits s M t -> border_fits s' M t.
Proof.
  intros Hs H T' HT'.
  destruct (same_static_cl _ _ _ _ (same_static_sym _ _ Hs) HT') as (T & HT & HC).
  destruct (cstatic_fields _ _ HC) as (_ & _ & _ & _ & _ & _ & _ & Ebw).
  rewrite <- Ebw. by apply H.
Qed.

Lemma border_fits_area s M M' t :
  Monitor.ww M' = Monitor.ww M -> Monitor.wh M' = Monitor.wh M ->
  border_fits s M t -> border_fits s M' t.
Proof. intros Ew Eh H T HT. rewrite Ew, Eh. by apply H. Qed.

Lemma anim_walkable_arr s s' M l :
  same_arr s s' -> anim_walkable cfg s M l -> anim_walkable cfg s' M l.
Proof.
  intros Ha ([SM HSM] & Hw & Hh & Hall). split; [|split; [done|split; [done|]]].
  - rewrite (sa_selmon _ _ Ha).
    destruct (same_arr_mn _ _ _ _ Ha HSM) as (M' & HM' & _). eauto.
  - intros t Ht. destruct (Hall t Ht) as (Hc & Hu & Hb).
    pose proof (same_arr_static _ _ Ha) as Hs. split; [|split].
    + by eapply can_resize_static.
    + by rewrite (untiled_static _ _ t Hs).
    + by eapply border_fits_static.
Qed.

Lemma anim_walkable_tail s M t l :
  anim_walkable cfg s M (t :: l) -> anim_walkable cfg s M l.
Proof.
  intros (HSM & Hw & Hh & Hall). repeat (split; [done|]).
  intros k Hk. apply Hall. by right.
Qed.

Lemma anim_walkable_app s M l1 l2 :
  anim_walkable cfg s M (l1 ++ l2) -> anim_walkable cfg s M l2.
Proof.
  intros (HSM & Hw & Hh & Hall). repeat (split; [done|]).
  intros k Hk. apply Hall. apply elem_of_app. by right.
Qed.

Lemma anim_walkable_area s M M' l :
  Monitor.ww M' = Monitor.ww M -> Monitor.wh M' = Monitor.wh M ->
  anim_walkable cfg s M l -> anim_walkable cfg s M' l.
Proof.
  intros Ew Eh (HSM & Hw & Hh & Hall). rewrite <- Ew in Hw. rewrite <- Eh in Hh.
  repeat (split; [done|]). intros k Hk. destruct (Hall k Hk) as (? & ? & ?).
  repeat (split; [done|]). by eapply border_fits_area.
Qed.

(** [animateclient] on the first client of a list that can be walked:
    the call returns for every proposal that is not empty, and the rest
    of the list can be walked in the new state. *)
Lemma anim_walkable_step fuel s M t l C x y w h fr :
  (2 <= fuel)%nat -> anim_walkable cfg s M (t :: l) -> cl s !! t = Some C ->
  w <> 0 -> h <> 0 ->
  exists s' C',
    animateclient cfg ease fuel s t x y w h fr false = Some s'
    /\ cl s' !! t = Some C' /\ same_arr s s' /\ anim_walkable cfg s' M l.
Proof.
  intros Hfuel Hw HC Hw0 Hh0. pose proof Hw as (HSM & _ & _ & Hall).
  destruct (Hall t) as (Hc & _ & _); [left|].
  destruct (animateclient_total cfg ease fuel s t x y w h fr false) as [s' Hs'];
    try done.
  pose proof (animateclient_arr _ _ _ _ _ _ _ _ _ _ _ _ Hs') as Ha.
  destruct (same_static_cl _ _ _ _ (same_arr_static _ _ Ha) HC) as (C' & HC' & _).
  exists s', C'. repeat (split; [done|]).
  eapply anim_walkable_arr; [exact Ha|]. by eapply anim_walkable_tail.
Qed.

(** The window area less the border of a client that fits is a size
    that is not empty and fits an [int]. *)
Lemma border_fits_size s M t l C :
  anim_walkable cfg s M (t :: l) -> cl s !! t = Some C ->
  0 <= Client.bw C
  /\ 0 < Monitor.ww M - 2 * Client.bw C < 2 ^ 31
  /\ 0 < Monitor.wh M - 2 * Client.bw C < 2 ^ 31.
Proof.
  intros (_ & Hw & Hh & Hall) HC. destruct (Hall t) as (_ & _ & Hb); [left|].
  destruct (Hb C HC) as (? & ? & ?). lia.
Qed.

Lemma monocle_loop_anim fuel M (l : list cid) :
  forall s, (2 <= fuel)%nat -> anim_walkable cfg s M l ->
            is_Some (monocle_loop cfg ease fuel s M l).
Proof.
  induction l as [|t l IH]; intros s Hfuel Hw; cbn [monocle_loop]; [eauto|].
  pose proof Hw as (_ & _ & _ & Hall).
  destruct (Hall t) as ((C & _ & _ & HC & _) & [u Hu] & _); [left|].
  rewrite Hu. cbn [mbind option_bind].
  destruct u; [apply IH; [done|by eapply anim_walkable_tail]|].
  rewrite HC. cbn [mbind option_bind].
  destruct (border_fits_size _ _ _ _ _ Hw HC) as (_ & Hsw & Hsh).
  destruct (anim_walkable_step fuel s M t l C (Monitor.wx M) (Monitor.wy M)
              (Monitor.ww M - 2 * Client.bw C) (Monitor.wh M - 2 * Client.bw C) 10)
    as (s' & C' & -> & _ & _ & Hw'); try done; try lia.
  cbn [mbind option_bind]. by apply IH.
Qed.

(** The tiled clients of a list are among those that do not float. *)
Lemma tiled_nonfloating s (l t : list cid) :
  tiled s l = Some t -> (length t <= length (nonfloating s l))%nat.
Proof.
  revert t. induction l as [|c l IH]; intros t H; simpl in H.
  - simplify_eq. simpl. lia.
  - apply bind_Some in H as (u & Hu & H). apply bind_Some in H as (t' & Ht' & H).
    specialize (IH _ Ht'). unfold nonfloating in *. rewrite filter_cons.
    destruct u.
    + simplify_eq. destruct (decide _); simpl; lia.
    + simplify_eq. unfold untiled in Hu.
      destruct (cl s !! c) as [C|] eqn:HC; [|done]. cbn [mbind option_bind] in Hu.
      destruct (truthy (Client.isfloating C)) eqn:Ef; [done|].
      unfold truthy in Ef. apply negb_false_iff in Ef. apply Z.eqb_eq in Ef.
      destruct (decide _) as [|Hn]; [simpl; lia|].
      exfalso. apply Hn. simpl. by rewrite Ef.
Qed.

Lemma tiled_total s (l : list cid) :
  (forall t, t ∈ l -> is_Some (untiled s t)) -> is_Some (tiled s l).
Proof.
  induction l as [|t l IH]; intros H; simpl; [eauto|].
  destruct (H t) as [u ->]; [left|]. cbn [mbind option_bind].
  destruct IH as [r ->]; [|cbn; eauto]. intros k Hk. apply H. by right.
Qed.

Lemma bstackhoriz_loop_skip fuel s M n mh th tx pre l i mx ty :
  (forall k, k ∈ pre -> untiled s k = Some true) ->
  bstackhoriz_loop cfg ease fuel s M n mh th tx (pre ++ l) i mx ty
  = bstackhoriz_loop cfg ease fuel s M n mh th tx l i mx ty.
Proof.
  induction pre as [|a pre IH]; intros Hpre; [done|].
  cbn [app bstackhoriz_loop]. rewrite (Hpre a) by left. cbn [mbind option_bind].
  apply IH. intros k Hk. apply Hpre. by right.
Qed.

Lemma bstack_loop_skip fuel s M n mh tw ty pre l i mx tx :
  (forall k, k ∈ pre -> untiled s k = Some true) ->
  bstack_loop cfg ease fuel s M n mh tw ty (pre ++ l) i mx tx
  = bstack_loop cfg ease fuel s M n mh tw ty l i mx tx.
Proof.
  induction pre as [|a pre IH]; intros Hpre; [done|].
  cbn [app bstack_loop]. rewrite (Hpre a) by left. cbn [mbind option_bind].
  apply IH. intros k Hk. apply Hpre. by right.
Qed.

(** The master count of a monitor that holds an [int], seen as an
    [unsigned int]: zero, or at least one. *)
Lemma u32_nmaster (v : Z) :
  - 2 ^ 31 <= v < 2 ^ 31 -> (v = 0 /\ u32 v = 0) \/ (v <> 0 /\ 1 <= u32 v < 2 ^ 32).
Proof.
  intros Hv. unfold u32. destruct (decide (v = 0)) as [->|Hne]; [by left|right].
  split; [done|]. pose proof (Z.mod_pos_bound v (2 ^ 32)) as Hb.
  destruct (decide (v mod 2 ^ 32 = 0)) as [E|E]; [|lia].
  apply Z.mod_divide in E; [|lia]. destruct E as [k Hk]. lia.
Qed.

Lemma umin_one (v : Z) : 1 <= u32 v -> umin 1 v = 1.
Proof. intros Hv. unfold umin. destruct (Z.ltb_spec 1 (u32 v)); lia. Qed.

(** The part of the list that follows the only tiled client. *)
Ltac skip_rest Ha Hr skip r :=
  cbn [mbind option_bind];
  rewrite <- (app_nil_r r), skip; [done|];
  let k := fresh "k" in let Hk := fresh "Hk" in
  intros k Hk; rewrite (untiled_static _ _ _ (same_arr_static _ _ Ha)); by apply Hr.

(** One call of [animateclient] with the window area less the border. *)
Ltac place_single Hfuel Hw HC :=
  lazymatch goal with
  | |- is_Some (animateclient _ _ ?f ?s ?c ?x ?y ?w ?h ?fr false ≫= _) =>
      let s' := fresh "s'" in let C' := fresh "C'" in
      let H1 := fresh "H1" in let H2 := fresh "H2" in let Ha := fresh "Ha" in
      let E1 := fresh "E" in let E2 := fresh "E" in
      edestruct (anim_walkable_step f s _ c _ _ x y w h fr Hfuel Hw HC)
        as (s' & C' & H1 & H2 & Ha & _);
      [..|rewrite H1; cbn [mbind option_bind]; rewrite H2]
  end.

Lemma tile_single_anim fuel s m M :
  (2 <= fuel)%nat -> mn s !! m = Some M ->
  - 2 ^ 31 <= Monitor.nmaster M < 2 ^ 31 ->
  anim_walkable cfg s M (Monitor.clients M) ->
  (length (nonfloating s (Monitor.clients M)) <= 1)%nat ->
  is_Some (tile cfg ease clientcount fuel s m).
Proof.
  intros Hfuel HM Hnm Hw Hlone. pose proof Hw as (_ & Rw & Rh & Hall).
  destruct (tiled_total s (Monitor.clients M)) as [t Ht];
    [intros k Hk; by destruct (Hall k Hk) as (_ & ? & _)|].
  pose proof (tiled_nonfloating _ _ _ Ht) as Hlen.
  unfold tile. rewrite HM. cbn [mbind option_bind].
  rewrite (count_tiled_tiled _ _ _ Ht). cbn [mbind option_bind].
  destruct t as [|a [|b t]]; [cbn; eauto| |simpl in Hlen; lia].
  cbn [length]. change (Z.of_nat 1 =? 0) with false. cbv iota.
  destruct (tiled_cons_inv _ _ _ _ Ht) as (pre & r & Hl & Hpre & Hua & Htr).
  pose proof (tiled_nil_inv _ _ Htr) as Hr.
  rewrite Hl in Hw. apply anim_walkable_app in Hw.
  pose proof Hw as (_ & _ & _ & Hall').
  destruct (Hall' a) as ((Ca & _ & _ & HCa & _) & _ & _); [left|].
  destruct (border_fits_size _ _ _ _ _ Hw HCa) as (Hbw & Hsw & Hsh).
  rewrite Hl, tile_loop_skip by done.
  cbn [tile_loop]. rewrite Hua. cbn [mbind option_bind]. rewrite HCa.
  cbn [mbind option_bind].
  rewrite ?Z.add_0_r, ?Z.sub_0_r.
  rewrite !(u32_small (Monitor.wh M)), ?(u32_small (Monitor.ww M)) by lia.
  destruct (u32_nmaster _ Hnm) as [[E0 Eu]|[Hne Hu]].
  - rewrite Eu, E0. change (0 <? Z.of_nat 1) with true. change (0 <? 0) with false.
    change (truthy 0) with false. cbv iota.
    change (u32 (Z.of_nat 1)) with 1. rewrite ?Z.sub_0_r, Z.div_1_r.
    place_single Hfuel Hw HCa.
    + rewrite s32_small by lia. lia.
    + rewrite s32_small by lia. lia.
    + skip_rest Ha Hr tile_loop_skip r.
  - assert (E1 : (u32 (Monitor.nmaster M) <? Z.of_nat 1) = false)
      by (apply Z.ltb_ge; lia).
    assert (E2 : (0 <? u32 (Monitor.nmaster M)) = true) by (apply Z.ltb_lt; lia).
    rewrite E1, E2. change (Z.of_nat 1) with 1. rewrite umin_one by lia.
    change (u32 1) with 1. rewrite Z.div_1_r.
    place_single Hfuel Hw HCa.
    + rewrite s32_small by lia. lia.
    + rewrite s32_small by lia. lia.
    + skip_rest Ha Hr tile_loop_skip r.
Qed.

Lemma bstack_single_anim fuel s m M :
  (2 <= fuel)%nat -> mn s !! m = Some M ->
  - 2 ^ 31 <= Monitor.nmaster M < 2 ^ 31 ->
  anim_walkable cfg s M (Monitor.clients M) ->
  (length (nonfloating s (Monitor.clients M)) <= 1)%nat ->
  is_Some (bstack cfg ease fuel s m).
Proof.
  intros Hfuel HM Hnm Hw Hlone. pose proof Hw as (_ & Rw & Rh & Hall).
  destruct (tiled_total s (Monitor.clients M)) as [t Ht];
    [intros k Hk; by destruct (Hall k Hk) as (_ & ? & _)|].
  pose proof (tiled_nonfloating _ _ _ Ht) as Hlen.
  unfold bstack. rewrite HM. cbn [mbind option_bind].
  rewrite (count_tiled_tiled _ _ _ Ht). cbn [mbind option_bind].
  destruct t as [|a [|b t]]; [cbn; eauto| |simpl in Hlen; lia].
  cbn [length]. change (Z.of_nat 1 =? 0) with false. cbv iota.
  destruct (tiled_cons_inv _ _ _ _ Ht) as (pre & r & Hl & Hpre & Hua & Htr).
  pose proof (tiled_nil_inv _ _ Htr) as Hr.
  rewrite Hl in Hw. apply anim_walkable_app in Hw.
  pose proof Hw as (_ & _ & _ & Hall').
  destruct (Hall' a) as ((Ca & _ & _ & HCa & _) & _ & _); [left|].
  destruct (border_fits_size _ _ _ _ _ Hw HCa) as (Hbw & Hsw & Hsh).
  change (Z.of_nat 1) with 1.
  destruct (u32_nmaster _ Hnm) as [[E0 Eu]|[Hne Hu]].
  - rewrite Eu, E0. change (0 <? 1) with true. change (truthy 0) with false.
    cbv iota. change (u32 (1 - 0)) with 1. rewrite Z.div_1_r.
    rewrite Hl, bstack_loop_skip by done.
    cbn [bstack_loop]. rewrite Hua. cbn [mbind option_bind]. rewrite HCa.
    cbn [mbind option_bind]. rewrite Eu. change (0 <? 0) with false. cbv iota.
    rewrite (u32_small (Monitor.ww M)), (s32_small (Monitor.ww M)) by lia.
    rewrite Z.sub_0_r.
    place_single Hfuel Hw HCa; [lia|lia|].
    skip_rest Ha Hr bstack_loop_skip r.
  - assert (E1 : (u32 (Monitor.nmaster M) <? 1) = false) by (apply Z.ltb_ge; lia).
    assert (E2 : (0 <? u32 (Monitor.nmaster M)) = true) by (apply Z.ltb_lt; lia).
    rewrite E1. rewrite Hl, bstack_loop_skip by done.
    cbn [bstack_loop]. rewrite Hua. cbn [mbind option_bind]. rewrite HCa.
    cbn [mbind option_bind]. rewrite E2, umin_one by lia.
    rewrite !Z.sub_0_r. change (u32 1) with 1. rewrite Z.div_1_r.
    rewrite (u32_small (Monitor.ww M)), (s32_small (Monitor.ww M)) by lia.
    place_single Hfuel Hw HCa; [lia|lia|].
    skip_rest Ha Hr bstack_loop_skip r.
Qed.

Lemma bstackhoriz_single_anim fuel s m M :
  (2 <= fuel)%nat -> mn s !! m = Some M ->
  - 2 ^ 31 <= Monitor.nmaster M < 2 ^ 31 ->
  anim_walkable cfg s M (Monitor.clients M) ->
  (length (nonfloating s (Monitor.clients M)) <= 1)%nat ->
  is_Some (bstackhoriz cfg ease fuel s m).
Proof.
  intros Hfuel HM Hnm Hw Hlone. pose proof Hw as (_ & Rw & Rh & Hall).
  destruct (tiled_total s (Monitor.clients M)) as [t Ht];
    [intros k Hk; by destruct (Hall k Hk) as (_ & ? & _)|].
  pose proof (tiled_nonfloating _ _ _ Ht) as Hlen.
  unfold bstackhoriz. rewrite HM. cbn [mbind option_bind].
  rewrite (count_tiled_tiled _ _ _ Ht). cbn [mbind option_bind].
  destruct t as [|a [|b t]]; [cbn; eauto| |simpl in Hlen; lia].
  cbn [length]. change (Z.of_nat 1 =? 0) with false. cbv iota.
  destruct (tiled_cons_inv _ _ _ _ Ht) as (pre & r & Hl & Hpre & Hua & Htr).
  pose proof (tiled_nil_inv _ _ Htr) as Hr.
  rewrite Hl in Hw. apply anim_walkable_app in Hw.
  pose proof Hw as (_ & _ & _ & Hall').
  destruct (Hall' a) as ((Ca & _ & _ & HCa & _) & _ & _); [left|].
  destruct (border_fits_size _ _ _ _ _ Hw HCa) as (Hbw & Hsw & Hsh).
  change (Z.of_nat 1) with 1.
  destruct (u32_nmaster _ Hnm) as [[E0 Eu]|[Hne Hu]].
  - rewrite Eu, E0. change (0 <? 1) with true. change (truthy 0) with false.
    cbv iota. change (u32 (1 - 0)) with 1. rewrite Z.sub_0_r, Z.div_1_r.
    rewrite Hl, bstackhoriz_loop_skip by done.
    cbn [bstackhoriz_loop]. rewrite Hua. cbn [mbind option_bind]. rewrite HCa.
    cbn [mbind option_bind]. rewrite Eu. change (0 <? 0) with false. cbv iota.
    rewrite (u32_small (Monitor.wh M)), (s32_small (Monitor.wh M)) by lia.
    place_single Hfuel Hw HCa; [lia|lia|].
    skip_rest Ha Hr bstackhoriz_loop_skip r.
  - assert (E1 : (u32 (Monitor.nmaster M) <? 1) = false) by (apply Z.ltb_ge; lia).
    assert (E2 : (0 <? u32 (Monitor.nmaster M)) = true) by (apply Z.ltb_lt; lia).
    rewrite E1. rewrite Hl, bstackhoriz_loop_skip by done.
    cbn [bstackhoriz_loop]. rewrite Hua. cbn [mbind option_bind]. rewrite HCa.
    cbn [mbind option_bind]. rewrite E2, umin_one by lia.
    rewrite !Z.sub_0_r. change (u32 1) with 1. rewrite Z.div_1_r.
    rewrite (u32_small (Monitor.ww M)), (s32_small (Monitor.ww M)) by lia.
    place_single Hfuel Hw HCa; [lia|lia|].
    skip_rest Ha Hr bstackhoriz_loop_skip r.
Qed.

(** The clients on the lists of a monitor that is ready can be resized. *)
Lemma anim_ready_resize s m M t :
  anim_ready cfg s m -> mn s !! m = Some M ->
  t ∈ Monitor.clients M \/ t ∈ Monitor.stack M ->
  can_resize cfg s t /\ is_Some (untiled s t).
Proof.
  intros [_ (M0 & L & HM0 & HL & Hsel & Hown & _)] HM Ht.
  rewrite HM in HM0. injection HM0 as <-.
  destruct (Hown t Ht) as (T & HT & HmT).
  assert (Hall : forall t', t' ∈ Monitor.clients M -> is_Some (untiled s t')).
  { intros t' Ht'. destruct (Hown t' (or_introl Ht')) as (T' & HT' & HmT').
    eapply untiled_total; [exact HT'| |exact Hsel]. by rewrite HmT'. }
  split.
  - exists T, M, L. rewrite HmT. done.
  - eapply untiled_total; [exact HT| |exact Hsel]. by rewrite HmT.
Qed.

Lemma anim_ready_arr s s' m :
  same_arr s s' -> anim_ready cfg s m -> anim_ready cfg s' m.
Proof.
  intros Ha [[SM HSM] (M & L & HM & HL & Hsel & Hown & Hnm & Rw & Rh & Hfit & Hshape)].
  pose proof (same_arr_static _ _ Ha) as Hs.
  destruct (same_arr_mn _ _ _ _ Ha HM) as (M' & HM' & HU).
  destruct (unsym_fields _ _ HU) as (Est & _).
  pose proof (unsym_mstatic _ _ HU) as HS.
  destruct (mstatic_fields _ _ HS)
    as (_ & Esel & _ & _ & Ecl & _ & Enm & _ & _ & _ & Earea).
  injection Earea as _ _ Eww Ewh.
  split.
  - rewrite (sa_selmon _ _ Ha).
    destruct (same_arr_mn _ _ _ _ Ha HSM) as (SM' & HSM' & _). eauto.
  - exists M', L. rewrite (cur_layout_static cfg _ _ HS), Esel, Ecl, Est, Enm, Eww, Ewh.
    split_and!; try done; try lia.
    + intros t Ht. destruct (Hown t Ht) as (T & HT & HmT).
      destruct (same_static_cl _ _ _ _ Hs HT) as (T' & HT' & HC).
      destruct (cstatic_fields _ _ HC) as (_ & _ & Em & _).
      exists T'. by rewrite Em.
    + intros t Ht. eapply border_fits_static; [exact Hs|].
      eapply border_fits_area; [| |by apply Hfit]; done.
    + by rewrite (nonfloating_static _ _ _ Hs).
Qed.

Lemma anim_ready_walkable s m M :
  anim_ready cfg s m -> mn s !! m = Some M ->
  anim_walkable cfg s M (Monitor.clients M).
Proof.
  intros Hr HM.
  pose proof Hr as [Hsel (M0 & L & HM0 & _ & _ & _ & _ & Rw & Rh & Hfit & _)].
  rewrite HM in HM0. injection HM0 as <-.
  repeat (split; [done|]). intros t Ht.
  destruct (anim_ready_resize s m M t Hr HM (or_introl Ht)) as [? ?].
  repeat (split; [done|]). by apply Hfit.
Qed.

Lemma monocle_anim fuel s m :
  (2 <= fuel)%nat -> anim_ready cfg s m ->
  is_Some (monocle cfg ease fuel s m).
Proof.
  intros Hfuel Hr. pose proof Hr as [_ (M & L & HM & HL & Hsel & Hown & _)].
  pose proof (anim_ready_walkable s m M Hr HM) as Hw.
  unfold monocle. rewrite HM. cbn [mbind option_bind].
  destruct (count_visible_total s (Monitor.clients M)) as [n ->].
  { intros t Ht. destruct (Hown t (or_introl Ht)) as (T & HT & HmT).
    eapply ISVISIBLE_total; [exact HT| |exact Hsel]. by rewrite HmT. }
  cbn [mbind option_bind]. destruct (0 <? n); [|by apply monocle_loop_anim].
  apply monocle_loop_anim; [done|].
  eapply anim_walkable_area; [| |eapply anim_walkable_arr; [|exact Hw]]; try done.
  by eapply same_arr_put_mon.
Qed.

Lemma arrangemon_anim fuel s m :
  (2 <= fuel)%nat -> anim_ready cfg s m ->
  is_Some (arrangemon cfg ease clientcount fuel s m).
Proof.
  intros Hfuel Hr. pose proof Hr as [_ (M & L & HM & HL & _)].
  unfold arrangemon. rewrite HM. cbn [mbind option_bind]. rewrite HL.
  cbn [mbind option_bind].
  destruct (arrange_of L) as [f|] eqn:Ef; [|eauto].
  set (M1 := Monitor.set_ltsymbol M (strncpy16 (symbol L))).
  assert (Hr1 : anim_ready cfg (put_mon s m M1) m).
  { eapply anim_ready_arr; [|exact Hr]. by eapply same_arr_put_mon. }
  assert (HM1 : mn (put_mon s m M1) !! m = Some M1) by apply lookup_insert_eq.
  pose proof (anim_ready_walkable _ _ _ Hr1 HM1) as Hw1.
  pose proof Hr1 as [_ (M0 & L0 & HM0 & HL0 & _ & _ & Hnm & _ & _ & _ & Hshape)].
  rewrite HM1 in HM0. injection HM0 as <-.
  assert (EL : L0 = L).
  { change (cur_layout cfg M1) with (cur_layout cfg M) in HL0. congruence. }
  subst L0. rewrite Ef in Hshape.
  destruct Hshape as [?|[Hmono|Hlone]]; [done| |].
  - injection Hmono as ->. by apply monocle_anim.
  - destruct f; unfold run_layout.
    + by eapply tile_single_anim.
    + by apply monocle_anim.
    + by eapply bstack_single_anim.
    + by eapply bstackhoriz_single_anim.
Qed.

Lemma showhide_anim (l : list cid) :
  forall s m M,
    anim_ready cfg s m -> mn s !! m = Some M ->
    (forall t, t ∈ l -> t ∈ Monitor.stack M) ->
    is_Some (showhide cfg s l).
Proof.
  induction l as [|t l IH]; intros s m M Hr HM Hsub; cbn [showhide]; [eauto|].
  pose proof Hr as [_ (M0 & L & HM0 & HL & Hsel & Hown & _)].
  rewrite HM in HM0. injection HM0 as <-.
  assert (Ht : t ∈ Monitor.stack M) by (apply Hsub; left).
  destruct (Hown t (or_intror Ht)) as (T & HT & HmT).
  destruct (ISVISIBLE_total s t T M HT) as [v Hv]; [by rewrite HmT|done|].
  rewrite Hv. cbn [mbind option_bind].
  assert (Hrest : forall k, k ∈ l -> k ∈ Monitor.stack M)
    by (intros k Hk; apply Hsub; by right).
  destruct v; [|by eapply IH].
  rewrite HT. cbn [mbind option_bind]. rewrite HmT, HM. cbn [mbind option_bind].
  rewrite HL. cbn [mbind option_bind].
  match goal with |- context [if ?b then _ else _] => destruct b end;
    [|cbn [mbind option_bind]; by eapply IH].
  destruct (anim_ready_resize s m M t Hr HM (or_intror Ht)) as [Hc _].
  destruct (resize_total cfg s t (Client.x T) (Client.y T) (Client.w T) (Client.h T)
              false Hc) as [s1 H1].
  rewrite H1. cbn [mbind option_bind].
  pose proof (resize_arr _ _ _ _ _ _ _ _ _ H1) as Ha.
  destruct (same_arr_mn _ _ _ _ Ha HM) as (M1 & HM1 & HU).
  destruct (unsym_fields _ _ HU) as (Est & _).
  eapply (IH s1 m M1); [by eapply anim_ready_arr|done|by rewrite Est].
Qed.

(** [arrange(m)] returns, with the animation on or off. *)
Lemma arrange_anim fuel s m :
  (2 <= fuel)%nat -> anim_ready cfg s m ->
  is_Some (arrange cfg ease clientcount fuel s (Some m)).
Proof.
  intros Hfuel Hr. pose proof Hr as [_ (M & L & HM & _)].
  unfold arrange. rewrite HM. cbn [mbind option_bind].
  destruct (showhide_anim (Monitor.stack M) s m M Hr HM) as [s1 H1]; [done|].
  rewrite H1. cbn [mbind option_bind].
  apply arrangemon_anim; [done|].
  eapply anim_ready_arr; [|exact Hr]. by eapply showhide_arr.
Qed.

End AnimatedTermination.

(** ** Termination of [view] *)

Section ViewTermination.
Context (cfg : Config).
Variable ease : Z -> Z -> Z -> Z -> Z.
Variable clientcount : State -> Z.
Implicit Types s : State.
Implicit Types C : Client.t.
Implicit Types M : Monitor.t.

Lemma aget_total {A} (l : list A) i :
  0 <= i < Z.of_nat (length l) -> is_Some (aget l i).
Proof.
  intros Hi. unfold aget. destruct (Z.ltb_spec i 0); [lia|].
  apply lookup_lt_is_Some. lia.
Qed.

Lemma aget_Forall {A} (P : A -> Prop) (l : list A) i v :
  Forall P l -> aget l i = Some v -> P v.
Proof.
  intros HP H. unfold aget in H. destruct (i <? 0); [done|].
  by eapply Forall_lookup_1.
Qed.

Lemma aset_total {A} (l : list A) i v :
  0 <= i < Z.of_nat (length l) -> is_Some (aset l i v).
Proof.
  intros Hi. unfold aset.
  destruct (Z.leb_spec 0 i); [|lia]. destruct (Z.ltb_spec i (Z.of_nat (length l))); [|lia].
  simpl. eauto.
Qed.

Lemma aset_length {A} (l l' : list A) i v :
  aset l i v = Some l' -> length l' = length l.
Proof.
  unfold aset. destruct (_ && _); [|done]. intros H. injection H as <-.
  apply length_insert.
Qed.

(** A bounded search for a set bit. *)
Lemma bits_search (n : nat) (ui : Z) :
  (exists j, 0 <= j < Z.of_nat n /\ Z.testbit ui j = true)
  \/ (forall j, 0 <= j < Z.of_nat n -> Z.testbit ui j = false).
Proof.
  induction n as [|n [(j & Hj & Hb)|Hall]].
  - right. intros j Hj. lia.
  - left. exists j. split; [lia|done].
  - destruct (Z.testbit ui (Z.of_nat n)) eqn:E.
    + left. exists (Z.of_nat n). split; [lia|done].
    + right. intros j Hj. destruct (decide (j = Z.of_nat n)) as [->|]; [done|].
      apply Hall. lia.
Qed.

(** A mask that selects a tag has a bit below [LENGTH(tags)]. *)
Lemma mask_bit (ui : Z) :
  Z.land ui (TAGMASK cfg) <> 0 ->
  exists j, 0 <= j < Z.of_nat (ntags cfg) /\ Z.testbit ui j = true.
Proof.
  intros Hm. destruct (bits_search (ntags cfg) ui) as [H|Hall]; [done|].
  exfalso. apply Hm. unfold TAGMASK. rewrite Z.shiftl_1_l, Z.sub_1_r, <- Z.ones_equiv.
  apply Z.bits_inj'. intros k Hk. rewrite Z.land_spec, Z.bits_0.
  destruct (Z.lt_ge_cases k (Z.of_nat (ntags cfg))).
  - rewrite Hall by lia. done.
  - rewrite Z.ones_spec_high by lia. apply andb_false_r.
Qed.

Lemma lowest_bit_tag (ui : Z) :
  (ntags cfg <= 31)%nat -> Z.land ui (TAGMASK cfg) <> 0 ->
  exists i, lowest_bit 32 0 ui = Some i /\ 0 <= i < Z.of_nat (ntags cfg).
Proof.
  intros Hn Hm. destruct (mask_bit ui Hm) as (j & Hj & Hb).
  destruct (lowest_bit_total 32 0 ui j) as [i Hi]; [lia|lia|done|].
  exists i. split; [done|].
  apply lowest_bit_spec in Hi as (Hi & _ & Hlow); [|lia].
  split; [lia|]. destruct (Z.lt_ge_cases i (Z.of_nat (ntags cfg))); [done|].
  rewrite Hlow in Hb by lia. done.
Qed.

Lemma stack_sub_mn s s' : mn s' = mn s -> stack_sub s s'.
Proof. intros E m M' HM'. rewrite E in HM'. eauto. Qed.

Lemma stack_sub_trans s1 s2 s3 :
  stack_sub s1 s2 -> stack_sub s2 s3 -> stack_sub s1 s3.
Proof.
  intros H12 H23 m M3 HM3. destruct (H23 m M3 HM3) as (M2 & HM2 & Hs2).
  destruct (H12 m M2 HM2) as (M1 & HM1 & Hs1). eauto.
Qed.

Lemma stack_sub_put_mon s m M M' :
  mn s !! m = Some M -> (forall t, t ∈ Monitor.stack M' -> t ∈ Monitor.stack M) ->
  stack_sub s (put_mon s m M').
Proof.
  intros HM Hsub k K HK. cbn [mn put_mon set_mn] in HK.
  destruct (decide (k = m)) as [->|Hne].
  - rewrite lookup_insert_eq in HK. injection HK as <-. eauto.
  - rewrite lookup_insert_ne in HK by done. eauto.
Qed.

(** Taking a client off the stack list and putting it back at the head
    adds no client to the list. *)
Lemma restack_sub s k s1 s2 :
  detachstack s k = Some s1 -> attachstack s1 k = Some s2 -> stack_sub s s2.
Proof.
  intros H1 H2.
  apply detachstack_inv in H1 as (C & M & l & nsel & HC & HM & Hl & _ & ->).
  apply attachstack_inv in H2 as (C' & M' & HC' & HM' & ->).
  cbn [cl put_mon set_mn] in HC'. rewrite HC in HC'. injection HC' as <-.
  cbn [mn put_mon set_mn] in HM'. rewrite lookup_insert_eq in HM'.
  injection HM' as <-. rewrite put_mon_put_mon.
  apply stack_sub_put_mon with (M := M); [done|].
  destruct (unlink_elem _ _ _ Hl) as [Hk Hsub].
  cbn [Monitor.stack Monitor.set_stack Monitor.set_sel].
  intros t [->|Ht]%elem_of_cons; auto.
Qed.

Lemma focus_stack_sub s c s' : focus s c = Some s' -> stack_sub s s'.
Proof.
  unfold focus. intros H.
  apply bind_Some in H as (u & Hu & H). apply bind_Some in H as (c' & Hc' & H).
  apply bind_Some in H as (s1 & H1 & H). apply bind_Some in H as (SM & HSM & H).
  injection H as <-.
  assert (stack_sub s s1) as Hs1.
  { destruct c' as [k|]; [|simplify_eq; by apply stack_sub_mn].
    apply bind_Some in H1 as (C & HC & H1). apply bind_Some in H1 as (s2 & H2 & H1).
    apply bind_Some in H1 as (s3 & H3 & H1).
    eapply stack_sub_trans; [|by eapply restack_sub].
    apply stack_sub_mn.
    destruct (truthy _).
    - apply seturgent_inv in H2 as (C2 & _ & ->). by destruct (decide _).
    - simplify_eq. by destruct (decide _). }
  eapply stack_sub_trans; [done|].
  match goal with
  | |- stack_sub _ (match _ with
                    | Some _ => if _ then set_isdesktop ?a _ else _
                    | None => _ end) =>
      eapply stack_sub_trans with (s2 := a)
  end.
  - eapply stack_sub_put_mon; [done|]. by destruct (_ && _).
  - apply stack_sub_mn. by destruct c'; destruct (truthy (isdesktop _)).
Qed.

Lemma same_arr_mn_back s s' m M' :
  same_arr s s' -> mn s' !! m = Some M' ->
  exists M, mn s !! m = Some M /\ unsym M' = unsym M.
Proof.
  intros Ha HM'. pose proof (sa_mn _ _ Ha m) as H. rewrite HM' in H.
  symmetry in H. apply fmap_Some in H as (M & HM & HU). eauto.
Qed.

Lemma same_static_mn_back s s' m M' :
  same_static s s' -> mn s' !! m = Some M' ->
  exists M, mn s !! m = Some M /\ mstatic M' = mstatic M.
Proof.
  intros Ha HM'. pose proof (ss_mn _ _ Ha m) as H. rewrite HM' in H.
  symmetry in H. apply fmap_Some in H as (M & HM & HU). eauto.
Qed.

Lemma owned_static s s' t T (m : mid) :
  same_static s s' -> cl s !! t = Some T -> Client.mon T = m ->
  exists T', cl s' !! t = Some T' /\ Client.mon T' = m.
Proof.
  intros Hs HT HmT. destruct (same_static_cl _ _ _ _ Hs HT) as (T' & HT' & HC).
  destruct (cstatic_fields _ _ HC) as (_ & _ & Em & _). exists T'. by rewrite Em.
Qed.

Lemma wf_arr s s' : same_arr s s' -> wf s -> wf s'.
Proof.
  intros Ha [[SM HSM] Hsel Hst]. split.
  - rewrite (sa_selmon _ _ Ha).
    destruct (same_arr_mn _ _ _ _ Ha HSM) as (M' & HM' & _). eauto.
  - intros m M' HM'. destruct (same_arr_mn_back _ _ _ _ Ha HM') as (M & HM & HU).
    destruct (mstatic_fields _ _ (unsym_mstatic _ _ HU)) as (_ & -> & _). eauto.
  - intros m M' t HM' Ht. destruct (same_arr_mn_back _ _ _ _ Ha HM') as (M & HM & HU).
    destruct (unsym_fields _ _ HU) as (Est & _). rewrite Est in Ht.
    destruct (Hst m M t HM Ht) as (T & HT & HmT).
    by eapply owned_static; [apply same_arr_static|..].
Qed.

Lemma wf_put_mon s m M M' :
  wf s -> mn s !! m = Some M ->
  Monitor.seltags M' = 0 \/ Monitor.seltags M' = 1 ->
  Monitor.stack M' = Monitor.stack M ->
  wf (put_mon s m M').
Proof.
  intros [[SM HSM] Hsel Hst] HM Hsel' Est. split.
  - cbn [mn selmon put_mon set_mn].
    destruct (decide (selmon s = m)) as [->|Hne];
      [rewrite lookup_insert_eq|rewrite lookup_insert_ne by done]; eauto.
  - intros k K HK. cbn [mn put_mon set_mn] in HK.
    destruct (decide (k = m)) as [->|Hne].
    + rewrite lookup_insert_eq in HK. by injection HK as <-.
    + rewrite lookup_insert_ne in HK by done. eauto.
  - intros k K t HK Ht. cbn [mn cl put_mon set_mn] in *.
    destruct (decide (k = m)) as [->|Hne].
    + rewrite lookup_insert_eq in HK. injection HK as <-. rewrite Est in Ht. eauto.
    + rewrite lookup_insert_ne in HK by done. eauto.
Qed.

Lemma wf_focus s c s' : wf s -> focus s c = Some s' -> wf s'.
Proof.
  intros Hwf H. pose proof (focus_static _ _ _ H) as Hs.
  pose proof (focus_stack_sub _ _ _ H) as Hsub.
  destruct (focus_spec _ _ _ H) as (c' & SM' & _ & HSM' & _).
  split; [eauto| |].
  - intros m M' HM'. destruct (same_static_mn_back _ _ _ _ Hs HM') as (M & HM & HS).
    destruct (mstatic_fields _ _ HS) as (_ & -> & _). by eapply wf_seltags.
  - intros m M' t HM' Ht. destruct (Hsub m M' HM') as (M & HM & Hin).
    destruct (wf_stack _ Hwf m M t HM (Hin t Ht)) as (T & HT & HmT).
    by eapply owned_static.
Qed.

Lemma arr_ready_of s m M :
  wf s -> animated s = 0 -> mn s !! m = Some M ->
  is_Some (cur_layout cfg M) ->
  (forall t, t ∈ Monitor.clients M -> exists T, cl s !! t = Some T /\ Client.mon T = m) ->
  arr_ready cfg s m.
Proof.
  intros Hwf Hst HM [L HL] Hcl. split; [done|]. exists M, L.
  split; [done|]. split; [done|]. split; [by eapply wf_seltags|].
  intros t [Ht|Ht]; [auto|by eapply wf_stack].
Qed.

Lemma focus_none_selmon s s' : wf s -> focus s None = Some s' -> selmon s' = selmon s.
Proof.
  intros Hwf H. destruct (focus_spec _ _ _ H) as (c' & SM' & Hc' & _ & _ & Hk).
  destruct c' as [k|]; [|done]. destruct Hk as (C & l & HC & -> & _).
  apply focus_candidate_spec in Hc' as (_ & _ & [?|(SM & HSM & Hin)]); [done|].
  destruct (wf_stack _ Hwf _ _ _ HSM Hin) as (T & HT & HmT).
  rewrite HC in HT. by injection HT as <-.
Qed.

Lemma cur_layout_total M (i : layout_ptr) :
  idx2 (Monitor.lt M) (Monitor.sellt M) = Some i ->
  (i < length (layouts cfg))%nat ->
  is_Some (cur_layout cfg M).
Proof.
  intros Hi Hlt. unfold cur_layout. rewrite Hi. cbn [mbind option_bind].
  by apply lookup_lt_is_Some.
Qed.

(** Both entries of the layout pair are reloaded, whichever is selected. *)
Lemma reload_pair (lt0 lts : layout_ptr * layout_ptr) sl :
  sl = 0 \/ sl = 1 ->
  exists a b lt1 lt2,
    idx2 lts sl = Some a /\ upd2 lt0 sl a = Some lt1
    /\ idx2 lts (Z.lxor sl 1) = Some b /\ upd2 lt1 (Z.lxor sl 1) b = Some lt2
    /\ idx2 lt2 sl = Some a /\ (a = lts.1 \/ a = lts.2).
Proof. intros [->| ->]; cbn; eauto 12. Qed.

(** Without animation, [view] returns on every ready state. *)
Lemma view_total fuel s ui :
  (1 <= fuel)%nat -> view_ready cfg s ->
  is_Some (view cfg ease clientcount fuel s ui).
Proof.
  intros Hfuel [Hwf Hst Hn (SM & HSM & [Ln Lm Ls Ll Lb Hcur Hprev Hsl Hlt] & Hcl)].
  pose proof (wf_seltags _ Hwf _ _ HSM) as Hsel.
  unfold view. rewrite HSM. cbn [mbind option_bind].
  match goal with
  | |- is_Some (?e ≫= _) =>
      assert (Hbr : exists ts cur,
                 e = Some (ts, Pertag.set_tags (Monitor.pertag SM) cur
                                 (Pertag.curtag (Monitor.pertag SM)))
                 /\ 0 <= cur <= Z.of_nat (ntags cfg))
  end.
  { destruct (Z.eqb_spec (Z.land ui (TAGMASK cfg)) 0) as [E|E]; cbn [negb].
    - eauto.
    - assert (Hup : is_Some (upd2 (Monitor.tagset SM) (Z.lxor (Monitor.seltags SM) 1)
                                  (Z.land ui (TAGMASK cfg)))).
      { destruct Hsel as [-> | ->]; cbn; eauto. }
      destruct Hup as [ts ->]. cbn [mbind option_bind].
      destruct (ui =? 2 ^ 32 - 1).
      + cbn [mbind option_bind]. exists ts, 0. split; [done|lia].
      + destruct (lowest_bit_tag ui Hn E) as (i & -> & Hi).
        cbn [mbind option_bind]. exists ts, (i + 1). split; [done|lia]. }
  destruct Hbr as (ts & cur & -> & Hc). cbn [mbind option_bind].
  cbn [Pertag.curtag Pertag.prevtag Pertag.nmasters Pertag.mfacts Pertag.sellts
       Pertag.ltidxs Pertag.showbars Pertag.set_tags].
  destruct (aget_total (Pertag.nmasters (Monitor.pertag SM)) cur) as [nm ->];
    [rewrite Ln; lia|]. cbn [mbind option_bind].
  destruct (aget_total (Pertag.mfacts (Monitor.pertag SM)) cur) as [mf ->];
    [rewrite Lm; lia|]. cbn [mbind option_bind].
  destruct (aget_total (Pertag.sellts (Monitor.pertag SM)) cur) as [sl Hsl'];
    [rewrite Ls; lia|]. rewrite Hsl'. cbn [mbind option_bind].
  destruct (aget_total (Pertag.ltidxs (Monitor.pertag SM)) cur) as [lts Hlts];
    [rewrite Ll; lia|]. rewrite Hlts. cbn [mbind option_bind].
  pose proof (aget_Forall _ _ _ _ Hsl Hsl') as Hsl01. cbn beta in Hsl01.
  pose proof (aget_Forall _ _ _ _ Hlt Hlts) as [Hlt1 Hlt2].
  destruct (reload_pair (Monitor.lt SM) lts sl Hsl01)
    as (a & b & lt1 & lt2 & -> & Hu1 & Hb & Hu2 & Hnew & Ha).
  cbn [mbind option_bind]. rewrite Hu1. cbn [mbind option_bind]. rewrite Hb.
  cbn [mbind option_bind]. rewrite Hu2. cbn [mbind option_bind].
  destruct (aget_total (Pertag.showbars (Monitor.pertag SM)) cur) as [sb ->];
    [rewrite Lb; lia|]. cbn [mbind option_bind].
  set (P1 := Pertag.set_tags (Monitor.pertag SM) cur (Pertag.curtag (Monitor.pertag SM))).
  set (SM1 := Monitor.set_live
                (Monitor.set_view SM (Z.lxor (Monitor.seltags SM) 1) ts P1) nm mf sl lt2).
  set (s1 := put_mon s (selmon s) SM1).
  assert (Hsel1 : Monitor.seltags SM1 = 0 \/ Monitor.seltags SM1 = 1).
  { unfold SM1. cbn. destruct Hsel as [-> | ->]; [by right|by left]. }
  assert (Hwf1 : wf s1) by (by eapply wf_put_mon).
  assert (HL1 : is_Some (cur_layout cfg SM1)).
  { apply (cur_layout_total SM1 a); [exact Hnew|]. destruct Ha as [-> | ->]; done. }
  assert (Hr1 : arr_ready cfg s1 (selmon s)).
  { eapply arr_ready_of; [done|done|apply lookup_insert_eq|done|]. exact Hcl. }
  (* the bar *)
  match goal with
  | |- is_Some (?e ≫= _) =>
      assert (H2 : exists s2, e = Some s2 /\ wf s2 /\ arr_ready cfg s2 (selmon s)
                              /\ selmon s2 = selmon s)
  end.
  { destruct (negb (Monitor.showbar SM1 =? sb)); [|by exists s1].
    unfold togglebar. change (mn s1 !! selmon s1) with (<[selmon s := SM1]> (mn s) !! selmon s).
    rewrite lookup_insert_eq. cbn [mbind option_bind].
    destruct (aset_total (Pertag.showbars (Monitor.pertag SM1))
                (Pertag.curtag (Monitor.pertag SM1)) (lnot (Monitor.showbar SM1)))
      as [sbs ->]; [cbn; rewrite Lb; lia|].
    cbn [mbind option_bind].
    set (SM2 := updatebarpos s1 (Monitor.set_showbar SM1 (lnot (Monitor.showbar SM1))
                                   (Pertag.set_showbars (Monitor.pertag SM1) sbs))).
    assert (E2 : Monitor.seltags SM2 = Monitor.seltags SM1
                 /\ Monitor.stack SM2 = Monitor.stack SM1
                 /\ Monitor.clients SM2 = Monitor.clients SM1
                 /\ cur_layout cfg SM2 = cur_layout cfg SM1).
    { unfold SM2, updatebarpos. by destruct (truthy _). }
    destruct E2 as (E2a & E2b & E2c & E2d).
    set (s1' := put_mon s1 (selmon s1) SM2).
    assert (Hwf1' : wf s1').
    { eapply wf_put_mon; [done|apply lookup_insert_eq|by rewrite E2a|done]. }
    assert (Hr1' : arr_ready cfg s1' (selmon s)).
    { eapply (arr_ready_of s1' (selmon s) SM2); [done|done|apply lookup_insert_eq| |].
      - by rewrite E2d.
      - rewrite E2c. exact Hcl. }
    destruct (arrange_total cfg ease clientcount fuel s1' (selmon s) Hfuel Hr1') as [s2 H2].
    exists s2. split; [exact H2|].
    pose proof (arrange_arr _ _ _ _ _ _ _ H2) as Ha2.
    split; [by eapply wf_arr|]. split; [by eapply arr_ready_arr|].
    by rewrite (sa_selmon _ _ Ha2). }
  destruct H2 as (s2 & -> & Hwf2 & Hr2 & Hsm2). cbn [mbind option_bind].
  destruct (focus_total s2 None Hwf2) as [s3 H3]; [done|].
  rewrite H3. cbn [mbind option_bind].
  pose proof (focus_static _ _ _ H3) as Hs3.
  rewrite (focus_none_selmon _ _ Hwf2 H3), Hsm2.
  apply arrange_total; [done|].
  destruct Hr2 as [Hst2 (M2 & L2 & HM2 & HL2 & _ & Hown2)].
  destruct (same_static_mn _ _ _ _ Hs3 HM2) as (M3 & HM3 & HS3).
  destruct (mstatic_fields _ _ HS3) as (_ & _ & _ & _ & Ecl & _).
  eapply (arr_ready_of s3 (selmon s) M3); [by eapply wf_focus| |done| |].
  - by rewrite (ss_animated _ _ Hs3).
  - rewrite (cur_layout_static cfg _ _ HS3), HL2. eauto.
  - rewrite Ecl. intros t Ht. destruct (Hown2 t (or_introl Ht)) as (T & HT & HmT).
    by eapply owned_static.
Qed.

Lemma anim_ready_of s m M L :
  wf s -> mn s !! m = Some M -> cur_layout cfg M = Some L ->
  (forall t, t ∈ Monitor.clients M -> exists T, cl s !! t = Some T /\ Client.mon T = m) ->
  - 2 ^ 31 <= Monitor.nmaster M < 2 ^ 31 ->
  Monitor.ww M < 2 ^ 31 -> Monitor.wh M < 2 ^ 31 ->
  (forall t, t ∈ Monitor.clients M -> border_fits s M t) ->
  (arrange_of L = None \/ arrange_of L = Some fn_monocle
   \/ (length (nonfloating s (Monitor.clients M)) <= 1)%nat) ->
  anim_ready cfg s m.
Proof.
  intros Hwf HM HL Hcl Hnm Rw Rh Hfit Hshape. split; [by apply wf_selmon|].
  exists M, L. split; [done|]. split; [done|]. split; [by eapply wf_seltags|].
  split; [|done]. intros t [Ht|Ht]; [auto|by eapply wf_stack].
Qed.

(** A monitor that is ready stays ready when the stack order, the focus
    and the geometry of the clients change. *)
Lemma anim_ready_static s s' m :
  wf s' -> same_static s s' -> anim_ready cfg s m -> anim_ready cfg s' m.
Proof.
  intros Hwf Hs [_ (M & L & HM & HL & Hsel & Hown & Hnm & Rw & Rh & Hfit & Hshape)].
  destruct (same_static_mn _ _ _ _ Hs HM) as (M' & HM' & HS).
  destruct (mstatic_fields _ _ HS)
    as (_ & Esel & _ & _ & Ecl & _ & Enm & _ & _ & _ & Earea).
  injection Earea as _ _ Eww Ewh.
  eapply (anim_ready_of s' m M' L); try done.
  - by rewrite (cur_layout_static cfg _ _ HS).
  - rewrite Ecl. intros t Ht. destruct (Hown t (or_introl Ht)) as (T & HT & HmT).
    by eapply owned_static.
  - by rewrite Enm.
  - by rewrite Eww.
  - by rewrite Ewh.
  - rewrite Ecl. intros t Ht. eapply border_fits_static; [exact Hs|].
    eapply border_fits_area; [| |by apply Hfit]; done.
  - by rewrite Ecl, (nonfloating_static _ _ _ Hs).
Qed.

(** With the animation on or off, [view] returns on every state that is
    ready for it, and leaves it ready. *)
Lemma view_anim fuel s ui :
  (2 <= fuel)%nat -> view_anim_ready cfg s ->
  exists s', view cfg ease clientcount fuel s ui = Some s' /\ view_anim_ready cfg s'.
Proof.
  intros Hfuel [Hwf Hn Hbh (SM & HSM & Hpo & Hnms & Rw & Rh & Rmh & Hcl & Hshape)].
  pose proof Hpo as [Ln Lm Ls Ll Lb Hcur Hprev Hsl Hlt].
  pose proof (wf_seltags _ Hwf _ _ HSM) as Hsel.
  unfold view. rewrite HSM. cbn [mbind option_bind].
  match goal with
  | |- exists _, (?e ≫= _) = _ /\ _ =>
      assert (Hbr : exists ts cur,
                 e = Some (ts, Pertag.set_tags (Monitor.pertag SM) cur
                                 (Pertag.curtag (Monitor.pertag SM)))
                 /\ 0 <= cur <= Z.of_nat (ntags cfg))
  end.
  { destruct (Z.eqb_spec (Z.land ui (TAGMASK cfg)) 0) as [E|E]; cbn [negb].
    - eauto.
    - assert (Hup : is_Some (upd2 (Monitor.tagset SM) (Z.lxor (Monitor.seltags SM) 1)
                                  (Z.land ui (TAGMASK cfg)))).
      { destruct Hsel as [-> | ->]; cbn; eauto. }
      destruct Hup as [ts ->]. cbn [mbind option_bind].
      destruct (ui =? 2 ^ 32 - 1).
      + cbn [mbind option_bind]. exists ts, 0. split; [done|lia].
      + destruct (lowest_bit_tag ui Hn E) as (i & -> & Hi).
        cbn [mbind option_bind]. exists ts, (i + 1). split; [done|lia]. }
  destruct Hbr as (ts & cur & -> & Hc). cbn [mbind option_bind].
  cbn [Pertag.curtag Pertag.prevtag Pertag.nmasters Pertag.mfacts Pertag.sellts
       Pertag.ltidxs Pertag.showbars Pertag.set_tags].
  destruct (aget_total (Pertag.nmasters (Monitor.pertag SM)) cur) as [nm Hnm];
    [rewrite Ln; lia|]. rewrite Hnm. cbn [mbind option_bind].
  destruct (aget_total (Pertag.mfacts (Monitor.pertag SM)) cur) as [mf ->];
    [rewrite Lm; lia|]. cbn [mbind option_bind].
  destruct (aget_total (Pertag.sellts (Monitor.pertag SM)) cur) as [sl Hsl'];
    [rewrite Ls; lia|]. rewrite Hsl'. cbn [mbind option_bind].
  destruct (aget_total (Pertag.ltidxs (Monitor.pertag SM)) cur) as [lts Hlts];
    [rewrite Ll; lia|]. rewrite Hlts. cbn [mbind option_bind].
  pose proof (aget_Forall _ _ _ _ Hsl Hsl') as Hsl01. cbn beta in Hsl01.
  pose proof (aget_Forall _ _ _ _ Hlt Hlts) as [Hlt1 Hlt2].
  pose proof (aget_Forall _ _ _ _ Hnms Hnm) as Rnm. cbn beta in Rnm.
  destruct (reload_pair (Monitor.lt SM) lts sl Hsl01)
    as (a & b & lt1 & lt2 & -> & Hu1 & Hb & Hu2 & Hnew & Ha).
  cbn [mbind option_bind]. rewrite Hu1. cbn [mbind option_bind]. rewrite Hb.
  cbn [mbind option_bind]. rewrite Hu2. cbn [mbind option_bind].
  destruct (aget_total (Pertag.showbars (Monitor.pertag SM)) cur) as [sb ->];
    [rewrite Lb; lia|]. cbn [mbind option_bind].
  set (P1 := Pertag.set_tags (Monitor.pertag SM) cur (Pertag.curtag (Monitor.pertag SM))).
  set (SM1 := Monitor.set_live
                (Monitor.set_view SM (Z.lxor (Monitor.seltags SM) 1) ts P1) nm mf sl lt2).
  set (s1 := put_mon s (selmon s) SM1).
  assert (Hsel1 : Monitor.seltags SM1 = 0 \/ Monitor.seltags SM1 = 1).
  { unfold SM1. cbn. destruct Hsel as [-> | ->]; [by right|by left]. }
  destruct (cur_layout_total SM1 a) as [L HL]; [exact Hnew| |].
  { destruct Ha as [-> | ->]; done. }
  (* the layout that is loaded *)
  assert (HshapeL : arrange_of L = None \/ arrange_of L = Some fn_monocle
                    \/ (length (nonfloating s (Monitor.clients SM)) <= 1)%nat).
  { destruct Hshape as [Hlone|Hst]; [auto|].
    pose proof (aget_Forall _ _ _ _ Hst Hlts) as [Hs1 Hs2]. cbn beta in Hs1, Hs2.
    assert (Hsa : steady_layout cfg a) by (destruct Ha as [-> | ->]; done).
    destruct Hsa as (L' & HL' & HaL). unfold cur_layout in HL.
    change (Monitor.lt SM1) with lt2 in HL. change (Monitor.sellt SM1) with sl in HL.
    rewrite Hnew in HL. cbn [mbind option_bind] in HL. rewrite HL' in HL.
    injection HL as <-. destruct HaL; auto. }
  (* what a monitor needs to take the place of the selected one *)
  assert (HX : forall X,
    Monitor.clients X = Monitor.clients SM -> Monitor.stack X = Monitor.stack SM ->
    Monitor.seltags X = Monitor.seltags SM1 ->
    cur_layout cfg X = cur_layout cfg SM1 -> Monitor.nmaster X = nm ->
    Monitor.ww X = Monitor.ww SM ->
    (Monitor.wh X = Monitor.wh SM \/ Monitor.wh X = Monitor.mh SM - bh s
     \/ Monitor.wh X = Monitor.mh SM) ->
    wf (put_mon s (selmon s) X)
    /\ anim_ready cfg (put_mon s (selmon s) X) (selmon s)).
  { intros X Ecl Est Esl EL Enm Eww Ewh.
    assert (Hwfx : wf (put_mon s (selmon s) X)).
    { eapply wf_put_mon; [done|done|by rewrite Esl|done]. }
    split; [done|].
    eapply (anim_ready_of _ (selmon s) X L); try done.
    - apply lookup_insert_eq.
    - by rewrite EL.
    - rewrite Ecl. intros t Ht. destruct (Hcl t Ht) as (T & HT & HmT & _). eauto.
    - by rewrite Enm.
    - by rewrite Eww.
    - destruct Ewh as [-> | [-> | ->]]; lia.
    - rewrite Ecl. intros t Ht T HT. destruct (Hcl t Ht) as (T0 & HT0 & _ & Hbd).
      change (cl (put_mon s (selmon s) X)) with (cl s) in HT.
      rewrite HT0 in HT. injection HT as <-. rewrite Eww.
      destruct Ewh as [-> | [-> | ->]]; lia.
    - rewrite Ecl. exact HshapeL. }
  (* the bar *)
  match goal with
  | |- exists _, (?e ≫= _) = _ /\ _ =>
      assert (H2 : exists X s2,
                 e = Some s2 /\ same_arr (put_mon s (selmon s) X) s2
                 /\ Monitor.clients X = Monitor.clients SM
                 /\ Monitor.stack X = Monitor.stack SM
                 /\ Monitor.seltags X = Monitor.seltags SM1
                 /\ cur_layout cfg X = cur_layout cfg SM1
                 /\ Monitor.nmaster X = nm
                 /\ Monitor.ww X = Monitor.ww SM /\ Monitor.mh X = Monitor.mh SM
                 /\ (Monitor.wh X = Monitor.wh SM \/ Monitor.wh X = Monitor.mh SM - bh s
                     \/ Monitor.wh X = Monitor.mh SM)
                 /\ pertag_ok cfg X
                 /\ Pertag.nmasters (Monitor.pertag X) = Pertag.nmasters (Monitor.pertag SM)
                 /\ Pertag.ltidxs (Monitor.pertag X) = Pertag.ltidxs (Monitor.pertag SM))
  end.
  { destruct (negb (Monitor.showbar SM1 =? sb)).
    - unfold togglebar.
      change (mn s1 !! selmon s1) with (<[selmon s := SM1]> (mn s) !! selmon s).
      rewrite lookup_insert_eq. cbn [mbind option_bind].
      destruct (aset_total (Pertag.showbars (Monitor.pertag SM1))
                  (Pertag.curtag (Monitor.pertag SM1)) (lnot (Monitor.showbar SM1)))
        as [sbs Hsbs]; [cbn; rewrite Lb; lia|].
      rewrite Hsbs. cbn [mbind option_bind].
      set (SM2 := updatebarpos s1 (Monitor.set_showbar SM1 (lnot (Monitor.showbar SM1))
                                     (Pertag.set_showbars (Monitor.pertag SM1) sbs))).
      change (put_mon s1 (selmon s1) SM2) with (put_mon (put_mon s (selmon s) SM1) (selmon s) SM2).
      rewrite put_mon_put_mon.
      assert (E2 : Monitor.seltags SM2 = Monitor.seltags SM1
                   /\ Monitor.stack SM2 = Monitor.stack SM
                   /\ Monitor.clients SM2 = Monitor.clients SM
                   /\ cur_layout cfg SM2 = cur_layout cfg SM1
                   /\ Monitor.nmaster SM2 = nm
                   /\ Monitor.ww SM2 = Monitor.ww SM /\ Monitor.mh SM2 = Monitor.mh SM
                   /\ Monitor.pertag SM2 = Pertag.set_showbars P1 sbs
                   /\ (Monitor.wh SM2 = Monitor.mh SM - bh s
                       \/ Monitor.wh SM2 = Monitor.mh SM)).
      { unfold SM2, updatebarpos. destruct (truthy _); cbn; auto 12. }
      destruct E2 as (E2a & E2b & E2c & E2d & E2e & E2f & E2g & E2h & E2i).
      destruct (HX SM2) as [Hwf2 Hr2]; try done; [tauto|].
      destruct (arrange_anim cfg ease clientcount fuel _ (selmon s) Hfuel Hr2) as [s2 H2].
      exists SM2, s2.
      change (selmon (put_mon s (selmon s) SM2)) with (selmon s).
      split; [exact H2|]. split; [by eapply arrange_arr|].
      repeat (split; [done|]). split; [tauto|].
      split; [|by rewrite E2h]. pose proof (aset_length _ _ _ _ Hsbs) as Lsb.
      change (length sbs = length (Pertag.showbars (Monitor.pertag SM))) in Lsb.
      rewrite Lb in Lsb. split; rewrite E2h; cbn; done.
    - exists SM1, s1. split; [done|]. split; [apply same_arr_refl|].
      repeat (split; [done|]). split; [tauto|].
      split; [|done]. split; cbn; done. }
  destruct H2 as (X & s2 & -> & Ha2 & Ecl & Est & Esl & EL & Enm & Eww & Emh & Ewh
                  & HpoX & EPn & EPl).
  cbn [mbind option_bind].
  set (px := put_mon s (selmon s) X) in *.
  destruct (HX X) as [Hwfp Hrp]; try done. fold px in Hwfp, Hrp.
  pose proof (wf_arr _ _ Ha2 Hwfp) as Hwf2.
  assert (Hsm2 : selmon s2 = selmon s) by (by rewrite (sa_selmon _ _ Ha2)).
  destruct (focus_total s2 None Hwf2) as [s3 H3]; [done|].
  rewrite H3. cbn [mbind option_bind].
  pose proof (focus_static _ _ _ H3) as Hs3.
  pose proof (wf_focus _ _ _ Hwf2 H3) as Hwf3.
  rewrite (focus_none_selmon _ _ Hwf2 H3), Hsm2.
  assert (Hr3 : anim_ready cfg s3 (selmon s)).
  { eapply anim_ready_static; [done|exact Hs3|]. by eapply anim_ready_arr. }
  destruct (arrange_anim cfg ease clientcount fuel s3 (selmon s) Hfuel Hr3) as [s' H'].
  exists s'. split; [exact H'|].
  pose proof (arrange_arr _ _ _ _ _ _ _ H') as Ha3.
  assert (Hs : same_static px s').
  { eapply same_static_trans; [by apply same_arr_static|].
    eapply same_static_trans; [exact Hs3|by apply same_arr_static]. }
  assert (Hsm : selmon s' = selmon s).
  { by rewrite (sa_selmon _ _ Ha3), (focus_none_selmon _ _ Hwf2 H3). }
  destruct (same_static_mn px s' (selmon s) X Hs) as (M' & HM' & HS);
    [apply lookup_insert_eq|].
  destruct (mstatic_fields _ _ HS)
    as (_ & _ & _ & _ & Ecl' & Ept & _ & _ & _ & Escr & Earea).
  injection Escr as _ _ _ Emh'. injection Earea as _ _ Eww' Ewh'.
  assert (Ebh : bh s' = bh s) by (by rewrite (ss_bh _ _ Hs)).
  split; [by eapply wf_arr|done|by rewrite Ebh|].
  exists M'. rewrite Hsm, Ept, Eww', Ewh', Emh', Ecl', Ebh, EPn, EPl, Eww, Emh, Ecl.
  split; [done|]. split.
  { destruct HpoX as [? ? ? ? ? ? ? ? ?]. split; by rewrite Ept. }
  split; [done|]. split; [done|].
  split; [destruct Ewh as [-> | [-> | ->]]; lia|]. split; [done|]. split.
  - intros t Ht. destruct (Hcl t Ht) as (T & HT & HmT & Hbd).
    destruct (same_static_cl px s' t T Hs HT) as (T' & HT' & HC).
    destruct (cstatic_fields _ _ HC) as (_ & _ & Em & _ & _ & _ & _ & Ebw).
    exists T'. rewrite Em, Ebw. split; [done|]. split; [done|].
    destruct Ewh as [-> | [-> | ->]]; lia.
  - rewrite (nonfloating_static px s' _ Hs). exact Hshape.
Qed.

Lemma view_post_pertag_ok ui SM X :
  (ntags cfg <= 31)%nat -> pertag_ok cfg SM -> view_post cfg ui SM X ->
  pertag_ok cfg X.
Proof.
  intros Hn [Ln Lm Ls Ll Lb Hcur Hprev Hsl Hlt].
  unfold view_post. cbv zeta.
  intros (_ & Hbr & Epv & En & Em & Es & El & _ & _ & _ & _ & _ & sb & _ & Hsb).
  assert (Hc : 0 <= Pertag.curtag (Monitor.pertag X) <= Z.of_nat (ntags cfg)).
  { destruct (Z.eqb_spec (Z.land ui (TAGMASK cfg)) 0) as [E|E].
    - destruct Hbr as [_ ->]. done.
    - destruct Hbr as [_ Hbr]. destruct (ui =? 2 ^ 32 - 1); [lia|].
      destruct Hbr as (i & Hi & ->).
      destruct (lowest_bit_tag ui Hn E) as (i' & Hi' & Hr).
      rewrite Hi in Hi'. injection Hi' as <-. lia. }
  split; rewrite ?En, ?Em, ?Es, ?El, ?Epv; try done.
  destruct (Monitor.showbar SM =? sb).
  - destruct Hsb as [_ ->]. done.
  - destruct Hsb as [_ Hsb]. by rewrite (aset_length _ _ _ _ Hsb).
Qed.

(** [view] leaves a ready state ready. *)
Lemma view_ready_view fuel s ui s' :
  view_ready cfg s -> view cfg ease clientcount fuel s ui = Some s' ->
  view_ready cfg s' /\ selmon s' = selmon s.
Proof.
  intros [Hwf Hst Hn (SM & HSM & Hpo & Hcl)] H.
  assert (Hsm : selmon s' = selmon s).
  { eapply view_selmon; [exact H|exact HSM|]. intros t T Ht HT.
    destruct (wf_stack _ Hwf _ _ _ HSM Ht) as (T' & HT' & HmT').
    rewrite HT in HT'. by injection HT' as <-. }
  split; [|done].
  apply view_inv in H as (SM0 & X & s2 & s3 & HSM0 & HX & Est & Ecl & Ha2 & Hf & Harr).
  rewrite HSM in HSM0. injection HSM0 as <-.
  set (px := put_mon s (selmon s) X) in *.
  assert (HselX : Monitor.seltags X = 0 \/ Monitor.seltags X = 1).
  { destruct HX as (-> & _).
    destruct (wf_seltags _ Hwf _ _ HSM) as [-> | ->]; [by right|by left]. }
  assert (Hwfp : wf px) by (by eapply wf_put_mon).
  pose proof (wf_arr _ _ Ha2 Hwfp) as Hwf2.
  pose proof (wf_focus _ _ _ Hwf2 Hf) as Hwf3.
  pose proof (arrange_arr _ _ _ _ _ _ _ Harr) as Ha3.
  pose proof (wf_arr _ _ Ha3 Hwf3) as Hwf'.
  assert (Hs : same_static px s').
  { eapply same_static_trans; [by apply same_arr_static|].
    eapply same_static_trans; [by eapply focus_static|by apply same_arr_static]. }
  split; [done| |done|].
  - rewrite (ss_animated _ _ Hs). exact Hst.
  - destruct (same_static_mn px s' (selmon s) X Hs) as (M' & HM' & HS);
      [apply lookup_insert_eq|].
    destruct (mstatic_fields _ _ HS) as (_ & _ & _ & _ & Ecl' & Ept & _).
    exists M'. rewrite Hsm. split; [done|]. split.
    + pose proof (view_post_pertag_ok ui SM X Hn Hpo HX) as [? ? ? ? ? ? ? ? ?].
      split; by rewrite Ept.
    + rewrite Ecl', Ecl. intros t Ht. destruct (Hcl t Ht) as (T & HT & HmT).
      by eapply (owned_static px s').
Qed.

(** C1, as amended.  A call of [view] with a mask that selects some tag
    and is not the all-ones mask sets the current tag index of the
    selected monitor to the position of the lowest set bit of the mask
    plus one, however many bits are set; the previous index is kept as
    the index to go back to.  Without animation the call returns on
    every ready state; with the animation on or off it returns, given
    fuel for two nested calls of [animateclient], on every ready state
    where the borders fit the window area and either one client of the
    monitor at most does not float or every layout of the per-tag block
    is null or monocle. *)
Theorem view_curtag_lowest_bit fuel s ui :
  Z.land ui (TAGMASK cfg) <> 0 ->
  ui <> 2 ^ 32 - 1 ->
  (forall s', view cfg ease clientcount fuel s ui = Some s' ->
     exists SM M' i,
       mn s !! selmon s = Some SM /\ mn s' !! selmon s = Some M'
       /\ Z.testbit ui i = true /\ (forall j, 0 <= j < i -> Z.testbit ui j = false)
       /\ Pertag.curtag (Monitor.pertag M') = i + 1
       /\ Pertag.prevtag (Monitor.pertag M') = Pertag.curtag (Monitor.pertag SM))
  /\ ((1 <= fuel)%nat -> view_ready cfg s ->
      is_Some (view cfg ease clientcount fuel s ui))
  /\ ((2 <= fuel)%nat -> view_anim_ready cfg s ->
      is_Some (view cfg ease clientcount fuel s ui)).
Proof.
  intros Hmask Hall. split; [|split].
  - intros s' H. by eapply view_curtag_after.
  - intros Hfuel Hr. by apply view_total.
  - intros Hfuel Hr. destruct (view_anim fuel s ui Hfuel Hr) as (s' & H & _). eauto.
Qed.

(** C9, as amended.  On a monitor whose live configuration agrees with its
    per-tag block at the current tag index, a call of [view] with a mask
    followed by a call with the empty mask restores the active tag set,
    the current tag index and the live configuration (master count, split
    factor, selected layout and layout pair, bar flag).  Without
    animation both calls return on every ready state; with the animation
    on or off they return, given fuel for two nested calls of
    [animateclient], on every ready state where the borders fit the
    window area and either one client of the monitor at most does not
    float or every layout of the per-tag block is null or monocle. *)
Theorem view_back_toggle_restores fuel s ui SM :
  mn s !! selmon s = Some SM ->
  pertag_synced SM ->
  (forall t T, t ∈ Monitor.stack SM -> cl s !! t = Some T -> Client.mon T = selmon s) ->
  (forall s1 s2,
     view cfg ease clientcount fuel s ui = Some s1 ->
     view cfg ease clientcount fuel s1 0 = Some s2 ->
     exists M2,
       mn s2 !! selmon s = Some M2
       /\ Monitor.seltags M2 = Monitor.seltags SM
       /\ idx2 (Monitor.tagset M2) (Monitor.seltags M2)
          = idx2 (Monitor.tagset SM) (Monitor.seltags SM)
       /\ Pertag.curtag (Monitor.pertag M2) = Pertag.curtag (Monitor.pertag SM)
       /\ Monitor.nmaster M2 = Monitor.nmaster SM
       /\ Monitor.mfact M2 = Monitor.mfact SM
       /\ Monitor.sellt M2 = Monitor.sellt SM
       /\ Monitor.lt M2 = Monitor.lt SM
       /\ Monitor.showbar M2 = Monitor.showbar SM)
  /\ ((1 <= fuel)%nat -> view_ready cfg s ->
      exists s1 s2,
        view cfg ease clientcount fuel s ui = Some s1
        /\ view cfg ease clientcount fuel s1 0 = Some s2)
  /\ ((2 <= fuel)%nat -> view_anim_ready cfg s ->
      exists s1 s2,
        view cfg ease clientcount fuel s ui = Some s1
        /\ view cfg ease clientcount fuel s1 0 = Some s2).
Proof.
  intros HSM Hsync Hown. split; [|split].
  - intros s1 s2 H1 H2. by eapply view_round_trip.
  - intros Hfuel Hr. destruct (view_total fuel s ui Hfuel Hr) as [s1 H1].
    destruct (view_ready_view fuel s ui s1 Hr H1) as [Hr1 _].
    destruct (view_total fuel s1 0 Hfuel Hr1) as [s2 H2]. eauto.
  - intros Hfuel Hr. destruct (view_anim fuel s ui Hfuel Hr) as (s1 & H1 & Hr1).
    destruct (view_anim fuel s1 0 Hfuel Hr1) as (s2 & H2 & _). eauto.
Qed.

End ViewTermination.

(** ** The theorems at concrete states *)

(** [Demo.calm_desk] is ready for [view]. *)
Lemma calm_desk_ready : view_ready Demo.cfg Demo.calm_desk.
Proof.
  split.
  - prove_wf Demo.calm_desk.
  - by_eval.
  - vm_compute. lia.
  - eexists. split; [vm_compute; reflexivity|]. split.
    + split; try by_eval; try (vm_compute; split; discriminate);
        vm_compute; repeat constructor.
    + intros t Ht. vm_compute in Ht. in_list Ht; eexists; split; by_eval.
Qed.

(** [Demo.anim_desk], where the animation is on, is ready for [view]:
    one of its two clients floats. *)
Lemma anim_desk_ready : view_anim_ready Demo.cfg Demo.anim_desk.
Proof.
  split.
  - prove_wf Demo.anim_desk.
  - by_eval.
  - by_eval.
  - eexists. split; [vm_compute; reflexivity|]. split; [|split; [|split; [|split; [|split; [|split]]]]].
    + split; try by_eval; try (vm_compute; split; discriminate);
        vm_compute; repeat constructor.
    + apply Forall_forall. intros v Hv. vm_compute in Hv. in_list Hv; lia.
    + by_eval.
    + by_eval.
    + by_eval.
    + intros t Ht. vm_compute in Ht.
      in_list Ht; eexists; (split; [vm_compute; reflexivity|]); vm_compute;
        repeat split; congruence.
    + left. vm_compute. lia.
Qed.

(** C5 as the claim has it fails for clients with [incw = 10], base
    width 0, [minw = 20] and no maximal width.  With [resizehints = 0]
    the tiled client [Demo.stepped] under the monocle layout keeps the
    proposed width 47, as the size hints are not consulted; with
    [resizehints = 1] the client [Demo.stepped_square], whose aspect
    ratio is fixed to one, gets the proposal 47 by 20 resolved to 20 by
    20. *)
Lemma applysizehints_snap_not_reached :
  (Client.incw Demo.stepped, Client.basew Demo.stepped,
   Client.minw Demo.stepped, Client.maxw Demo.stepped) = (10, 0, 20, 0)
  /\ applysizehints Demo.cfg_nohints Demo.stepped_desk 1%nat 0 20 47 100 false
     = Some (0, 20, 47, 100, true)
  /\ (Client.incw Demo.stepped_square, Client.basew Demo.stepped_square,
      Client.minw Demo.stepped_square, Client.maxw Demo.stepped_square) = (10, 0, 20, 0)
  /\ applysizehints Demo.cfg Demo.square_desk 1%nat 0 20 47 20 false
     = Some (0, 20, 20, 20, true).
Proof. conj_split; by_eval. Qed.

(** C5 as amended, at the client [Demo.stepped]: the proposed width 47
    becomes 40. *)
Lemma applysizehints_increment_snap_witness :
  exists x' y' h' ch,
    applysizehints Demo.cfg Demo.stepped_desk 1%nat 0 20 47 100 false
    = Some (x', y', 40, h', ch).
Proof.
  apply (applysizehints_increment_snap Demo.cfg Demo.stepped_desk 1%nat Demo.stepped
           0 20 100 false); by_eval.
Defined.

(** C7 as the claim has it fails for a client whose largest size is below
    the bar thickness: with [bh = 20] and [maxw = maxh = 16] the resolved
    size is 16 by 16. *)
Lemma applysizehints_below_bar :
  bh Demo.small_desk = 20
  /\ applysizehints Demo.cfg Demo.small_desk 1%nat 0 20 100 100 false
     = Some (0, 20, 16, 16, false).
Proof. conj_split; by_eval. Qed.

(** C7 as amended, at a tiled client under [resizehints = 0]: the
    proposed size 5 by 5 is raised to the bar thickness. *)
Lemma applysizehints_bar_floor_witness :
  exists x' y' w' h' ch,
    applysizehints Demo.cfg_nohints Demo.mono_desk 1%nat 0 20 5 5 false
    = Some (x', y', w', h', ch)
    /\ bh Demo.mono_desk <= w' /\ bh Demo.mono_desk <= h'.
Proof.
  destruct (applysizehints_bar_floor Demo.cfg_nohints Demo.mono_desk 1%nat
              (Demo.client 0 20 800 600 1 1 0 0%nat 101) 0 20 5 5 false false)
    as (x' & y' & w' & h' & ch & w0 & h0 & Hrun & _ & _ & _ & Hfloor);
    [by_eval|by_eval|by_eval|].
  exists x', y', w', h', ch. split; [exact Hrun|]. by apply Hfloor.
Defined.

(** C1 as the claim has it fails on the desktop after [setup]: the mask 6
    has the bits of tags 2 and 3 and is not the all-ones mask, the index
    was 1 and [view] leaves 2. *)
Lemma view_two_bits_moves_curtag :
  Z.testbit 6 1 = true /\ Z.testbit 6 2 = true /\ 6 <> 2 ^ 32 - 1
  /\ Demo.curtag_of Demo.desk = Some 1
  /\ view Demo.cfg Demo.ease Demo.clientcount 3 Demo.desk 6 ≫= Demo.curtag_of = Some 2.
Proof. conj_split; by_eval. Qed.

(** C1 as amended, at [Demo.anim_desk] and the mask 3, with the
    animation on: the call returns, and bit 0 is the lowest bit of 3.
    Without animation the call returns at [Demo.calm_desk]. *)
Lemma view_curtag_lowest_bit_witness :
  animated Demo.anim_desk = 1
  /\ is_Some (view Demo.cfg Demo.ease Demo.clientcount 2 Demo.anim_desk 3)
  /\ is_Some (view Demo.cfg Demo.ease Demo.clientcount 2 Demo.calm_desk 3)
  /\ exists SM M' i,
       mn Demo.anim_desk !! selmon Demo.anim_desk = Some SM
       /\ mn Demo.anim_desk_3 !! selmon Demo.anim_desk = Some M'
       /\ Z.testbit 3 i = true /\ (forall j, 0 <= j < i -> Z.testbit 3 j = false)
       /\ Pertag.curtag (Monitor.pertag M') = i + 1
       /\ Pertag.prevtag (Monitor.pertag M') = Pertag.curtag (Monitor.pertag SM).
Proof.
  destruct (view_curtag_lowest_bit Demo.cfg Demo.ease Demo.clientcount 2
              Demo.anim_desk 3) as (Hpost & _ & Hanim); [by_eval|by_eval|].
  destruct (view_curtag_lowest_bit Demo.cfg Demo.ease Demo.clientcount 2
              Demo.calm_desk 3) as (_ & Hstill & _); [by_eval|by_eval|].
  split; [by_eval|]. split; [|split].
  - apply Hanim; [lia|exact anim_desk_ready].
  - apply Hstill; [lia|exact calm_desk_ready].
  - apply (Hpost Demo.anim_desk_3). by_eval.
Defined.

(** C9 as the claim has it fails on the desktop after [setup]: the layout
    pair of a fresh monitor is (3, 0), and after [view] with the mask 2
    and [view] with the empty mask it is (0, 3). *)
Lemma view_back_toggle_changes_layout :
  Demo.layout_pair Demo.desk = Some (3%nat, 0%nat)
  /\ (s1 ← view Demo.cfg Demo.ease Demo.clientcount 3 Demo.desk 2;
      s2 ← view Demo.cfg Demo.ease Demo.clientcount 3 s1 0;
      Demo.layout_pair s2) = Some (0%nat, 3%nat).
Proof. conj_split; by_eval. Qed.

(** C9 as amended, at [Demo.anim_desk] and the mask 3, with the
    animation on. *)
Lemma view_back_toggle_restores_witness :
  animated Demo.anim_desk = 1
  /\ exists SM,
    mn Demo.anim_desk !! selmon Demo.anim_desk = Some SM
    /\ (exists s1 s2,
          view Demo.cfg Demo.ease Demo.clientcount 2 Demo.anim_desk 3 = Some s1
          /\ view Demo.cfg Demo.ease Demo.clientcount 2 s1 0 = Some s2)
    /\ exists M2,
         mn Demo.anim_desk_back !! selmon Demo.anim_desk = Some M2
         /\ Monitor.seltags M2 = Monitor.seltags SM
         /\ idx2 (Monitor.tagset M2) (Monitor.seltags M2)
            = idx2 (Monitor.tagset SM) (Monitor.seltags SM)
         /\ Pertag.curtag (Monitor.pertag M2) = Pertag.curtag (Monitor.pertag SM)
         /\ Monitor.nmaster M2 = Monitor.nmaster SM
         /\ Monitor.mfact M2 = Monitor.mfact SM
         /\ Monitor.sellt M2 = Monitor.sellt SM
         /\ Monitor.lt M2 = Monitor.lt SM
         /\ Monitor.showbar M2 = Monitor.showbar SM.
Proof.
  split; [by_eval|].
  eexists. split; [vm_compute; reflexivity|].
  edestruct (view_back_toggle_restores Demo.cfg Demo.ease Demo.clientcount 2
               Demo.anim_desk 3) as (Hpost & _ & Hanim).
  - vm_compute. reflexivity.
  - unfold pertag_synced. conj_split; by_eval.
  - intros t T Ht HT. vm_compute in Ht. in_list Ht; vm_compute in HT;
      injection HT as <-; reflexivity.
  - split.
    + apply Hanim; [lia|exact anim_desk_ready].
    + apply (Hpost Demo.anim_desk_3 Demo.anim_desk_back); by_eval.
Defined.

(** C10 at [Demo.twin_desk]: client 5 is owned by monitor 1 while
    monitor 0 is selected. *)
Lemma focus_switches_selmon_witness :
  selmon Demo.twin_desk = 0%nat
  /\ exists s' SM',
       focus Demo.twin_desk (Some 5%nat) = Some s'
       /\ selmon s' = 1%nat
       /\ mn s' !! 1%nat = Some SM'
       /\ Monitor.sel SM' = Some 5%nat.
Proof.
  split; [by_eval|].
  eapply (focus_switches_selmon Demo.twin_desk 5%nat
            (Demo.client 1930 30 500 400 1 1 0 1%nat 105)).
  - by_eval.
  - vm_compute. reflexivity.
  - in_eval.
  - intros t Ht. vm_compute in Ht. in_list Ht; by_eval.
  - by_eval.
  - by_eval.
  - by_eval.
Defined.

(** C3 at [Demo.hidden_desk]: the stack list is 1, 2, 3 and client 1 is
    focused; clients 2 and 3 are visible, the window of client 2 is
    iconic.  [detachstack] on client 1 leaves the focused-client pointer
    at client 2, the hidden one, where the loop of [focus] would have
    passed on to client 3. *)
Theorem detachstack_selects_hidden :
  Demo.stack_sel Demo.hidden_desk 0%nat = Some ([1; 2; 3]%nat, Some 1%nat)
  /\ ISVISIBLE Demo.hidden_desk 2%nat = Some true
  /\ HIDDEN Demo.hidden_desk 2%nat = Some true
  /\ ISVISIBLE Demo.hidden_desk 3%nat = Some true
  /\ HIDDEN Demo.hidden_desk 3%nat = Some false
  /\ (detachstack Demo.hidden_desk 1%nat ≫= fun s' => Demo.stack_sel s' 0%nat)
     = Some ([2; 3]%nat, Some 2%nat)
  /\ (detachstack Demo.hidden_desk 1%nat ≫= fun s' => first_focusable s' [2; 3]%nat)
     = Some (Some 3%nat).
Proof. conj_split; by_eval. Qed.

(** C8 at [Demo.mono_desk]: the state is well formed, so [focus] on
    client 1 returns; afterwards client 1 is focused, on the stack list,
    visible and not hidden. *)
Lemma focus_invariant_witness :
  is_Some (focus Demo.mono_desk (Some 1%nat))
  /\ exists SM',
       mn Demo.mono_focused !! selmon Demo.mono_focused = Some SM'
       /\ match Monitor.sel SM' with
          | None => True
          | Some k => k ∈ Monitor.stack SM'
                      /\ ISVISIBLE Demo.mono_focused k = Some true
                      /\ HIDDEN Demo.mono_focused k = Some false
          end.
Proof.
  destruct (focus_invariant Demo.mono_desk (Some 1%nat)) as [Hpost Htotal].
  split.
  - apply Htotal.
    + prove_wf Demo.mono_desk.
    + intros k Hk. injection Hk as <-. eexists _, _.
      split; [by_eval|]. split; [vm_compute; reflexivity|in_eval].
  - apply Hpost. by_eval.
Defined.



(** C6 as the claim has it fails at [Demo.tile_desk07]: the window area
    is 1920 wide and the split factor is 0.7f, the binary32 number
    11744051 / 2^24, which is less than 0.7.  [floor(W * f)] is 1343;
    the binary32 product is rounded to 1344 before it is cut, and the
    master is 1344 and the stack client 576 wide. *)
Lemma tile_master_above_floor :
  (M ← mn Demo.tile_desk07 !! 0%nat;
   L ← cur_layout Demo.cfg07 M;
   t ← tiled Demo.tile_desk07 (Monitor.clients M);
   Some (arrange_of L, Monitor.nmaster M, t, Monitor.ww M, Monitor.mfact M))
  = Some (Some fn_tile, 1, [1; 2]%nat, 1920, S754_finite false 11744051 (-24))
  /\ floor_product 1920 (S754_finite false 11744051 (-24)) = 1343
  /\ (tile Demo.cfg07 Demo.ease Demo.clientcount 2 Demo.tile_desk07 0%nat
        ≫= fun s' => Demo.width_of s' 1%nat) = Some 1344
  /\ (tile Demo.cfg07 Demo.ease Demo.clientcount 2 Demo.tile_desk07 0%nat
        ≫= fun s' => Demo.width_of s' 2%nat) = Some 576.
Proof. conj_split; by_eval. Qed.

(** C6 as amended, at [Demo.tile_desk]: the window area is 1920 wide, the split
    factor is 0.55, the master is 1056 and the stack client 864 wide. *)
Lemma tile_master_stack_widths_witness :
  exists M,
    mn Demo.tile_desk !! 0%nat = Some M
    /\ Monitor.ww M = 1920
    /\ fmul_trunc (Monitor.ww M) (Monitor.mfact M) = 1056
    /\ exists s' Ca' Cb',
         tile Demo.cfg Demo.ease Demo.clientcount 2 Demo.tile_desk 0%nat = Some s'
         /\ cl s' !! 1%nat = Some Ca' /\ cl s' !! 2%nat = Some Cb'
         /\ Client.WIDTH Ca' = fmul_trunc (Monitor.ww M) (Monitor.mfact M)
         /\ Client.WIDTH Cb' = Monitor.ww M - fmul_trunc (Monitor.ww M) (Monitor.mfact M)
         /\ Client.WIDTH Ca' + Client.WIDTH Cb' = Monitor.ww M.
Proof.
  eexists. split; [vm_compute; reflexivity|].
  split; [by_eval|]. split; [by_eval|].
  eapply (tile_master_stack_widths Demo.cfg Demo.ease Demo.clientcount 2 Demo.tile_desk
            0%nat _ (Build_Layout "+" (Some fn_tile)) 1%nat 2%nat
            (Demo.client 0 20 800 600 1 1 0 0%nat 101)
            (Demo.client 0 20 800 600 1 1 0 0%nat 102)).
  all: try (vm_compute; reflexivity).
  all: try by_eval.
  all: try (vm_compute; split; discriminate).
Defined.

(** C2 as the claim has it fails at [Demo.twin_desk]: the second screen
    goes away while its monitor has client 6 before client 5 on its
    client list; on the client list of the monitor that stays client 5
    comes before client 6. *)
Lemma updategeom_reverses_clients :
  mons Demo.twin_desk = [0; 1]%nat
  /\ Demo.client_list Demo.twin_desk 1%nat = Some [6; 5]%nat
  /\ Demo.client_list Demo.twin_desk 0%nat = Some [1]%nat
  /\ (updategeom Demo.cfg 8 Demo.twin_desk (Some [Demo.screen0])
        ≫= fun r => Demo.client_list r.1 0%nat) = Some [5; 6; 1]%nat.
Proof. conj_split; by_eval. Qed.

(** C2 as amended, at the same state. *)
Lemma updategeom_fewer_outputs_witness :
  exists Mf,
    mn Demo.twin_desk !! 0%nat = Some Mf
    /\ moved Demo.twin_desk [1%nat] = [5; 6]%nat
    /\ exists s' d,
         updategeom Demo.cfg 8 Demo.twin_desk (Some [Demo.screen0]) = Some (s', d)
         /\ mons s' = 0%nat :: []
         /\ (forall m, m ∈ [1%nat] -> mn s' !! m = None)
         /\ mn s' !! 0%nat
            = Some (Monitor.set_stack
                      (Monitor.set_clients Mf
                         (moved Demo.twin_desk [1%nat] ++ Monitor.clients Mf))
                      (moved Demo.twin_desk [1%nat] ++ Monitor.stack Mf))
         /\ (forall m c, m ∈ [1%nat] -> c ∈ clients_of Demo.twin_desk m ->
               exists C, cl Demo.twin_desk !! c = Some C
                         /\ cl s' !! c = Some (Client.set_mon C 0%nat))
         /\ (forall k, k ∉ moved Demo.twin_desk [1%nat] ->
               cl s' !! k = cl Demo.twin_desk !! k)
         /\ (forall k, is_Some (cl s' !! k) <-> is_Some (cl Demo.twin_desk !! k)).
Proof.
  eexists. split; [vm_compute; reflexivity|]. split; [by_eval|].
  eapply (updategeom_fewer_outputs Demo.cfg 8 Demo.twin_desk [Demo.screen0]
            0%nat [] [1%nat]).
  - split.
    + vm_compute. compute_done.
    + intros m Hm. vm_compute in Hm.
      in_list Hm; eexists; (split; [vm_compute; reflexivity|]);
        (split;
         [ vm_compute; by left
         | vm_compute; compute_done
         | vm_compute; compute_done
         | intros c Hc; vm_compute in Hc; in_list Hc; in_eval
         | intros t Ht; vm_compute in Ht; in_list Ht; eexists; split; by_eval ]).
  - by_eval.
  - discriminate.
  - by_eval.
  - intros m Hm. in_list Hm. vm_compute. lia.
  - vm_compute. reflexivity.
Defined.
